(** * Resume analysis engine: a shallow embedding of [backend/utils.py] and
    [backend/main.py]

    Conventions of the embedding.

    - A Python [str] is a list of Unicode code points ([str := list N]), so
      that [len], slicing and [count] see what Python sees (the bullet
      marker U+2022 is one character).
    - A Python [float] is read as an exact rational ([Q]); [round(x, 2)] is
      rounding to the nearest hundredth, ties to the even hundredth.  Scores
      are compared with [==] ([Qeq]).  [Binary64] repeats the arithmetic of
      the scores on IEEE 754 doubles, and [Binary64Facts] checks on them
      the cases that are finite.  The two readings give the same ranges,
      but not always the same value: where a sum is a tie in the third
      decimal as a rational, the double can lie just above it and [round]
      then gives one hundredth more ([third_decimal_ties]).
    - The ASCII range and the white space set of [str.isspace] are written
      out.  The parts of the Unicode character database that the code
      consults through [str.lower], [\d] and [\w] outside ASCII are taken as
      tables ([unicode_tables]); so are the two library oracles
      ([textstat.flesch_kincaid_grade] and [rapidfuzz.fuzz.partial_ratio])
      and the iteration order of the set literal [canon] of [jd_compare].
      [str.lower] is a map on single characters: the rule of Python that
      lowers a capital sigma by its context is outside every table.  Under
      [re.I] two characters match when their lower-case forms agree; the
      further case equivalences of the regex engine outside ASCII (U+017F
      for "s") are not modelled. *)

From Stdlib Require Import List Bool Arith ZArith NArith QArith Qround Lia Lqa.
From Stdlib Require Import Ascii String.
From Stdlib Require Import Floats.SpecFloat.
Import ListNotations.

Set Implicit Arguments.

Local Open Scope N_scope.

(** ** Strings as lists of code points *)

Definition cp := N.
Bind Scope N_scope with cp.
Definition str := list cp.

(** An ASCII literal of the source, as code points. *)
Definition lit (s : string) : str :=
  List.map N_of_ascii (list_ascii_of_string s).

Definition cp_eqb (a b : cp) : bool := N.eqb a b.

Fixpoint str_eqb (a b : str) : bool :=
  match a, b with
  | [], [] => true
  | x :: a', y :: b' => cp_eqb x y && str_eqb a' b'
  | _, _ => false
  end.

(** [x in xs] for a list or a set of strings. *)
Definition str_mem (x : str) (xs : list str) : bool :=
  existsb (str_eqb x) xs.

Definition in_range (lo hi c : cp) : bool := (lo <=? c) && (c <=? hi).

Definition NL : cp := 10.
Definition TAB : cp := 9.
Definition SPACE : cp := 32.
Definition HYPHEN : cp := 45.
(** U+2022, the bullet character. *)
Definition BULLET : cp := 8226.

(** [str.isspace] on one character; also [\s] of [re] on [str] patterns. *)
Definition is_space (c : cp) : bool :=
  in_range 9 13 c || in_range 28 32 c || cp_eqb c 133 || cp_eqb c 160
  || cp_eqb c 5760 || in_range 8192 8202 c || cp_eqb c 8232
  || cp_eqb c 8233 || cp_eqb c 8239 || cp_eqb c 8287 || cp_eqb c 12288.

(** The line boundaries of [str.splitlines] other than CR. *)
Definition is_linebreak (c : cp) : bool :=
  in_range 10 12 c || in_range 28 30 c || cp_eqb c 133
  || cp_eqb c 8232 || cp_eqb c 8233.

(** What the code reads from the Unicode character database outside ASCII. *)
Record unicode_tables : Type := {
  (** category Nd, for [\d] *)
  u_decimal : cp -> bool;
  (** [str.isalnum], for [\w] *)
  u_alnum : cp -> bool;
  (** the full lower-case mapping of [str.lower] *)
  u_lower : cp -> list cp;
  (** the simple lower-case mapping used by [re.I] *)
  u_tolower : cp -> cp
}.

(** Tables under which no character outside ASCII is a digit or a letter. *)
Definition ascii_tables : unicode_tables :=
  {| u_decimal := fun _ => false;
     u_alnum := fun _ => false;
     u_lower := fun c => [c];
     u_tolower := fun c => c |}.

Definition is_ascii (c : cp) : bool := c <? 128.
Definition is_AZ (c : cp) : bool := in_range 65 90 c.
Definition is_az (c : cp) : bool := in_range 97 122 c.
Definition is_09 (c : cp) : bool := in_range 48 57 c.

Section Strings.

Variable U : unicode_tables.

(** [\d] *)
Definition is_digit (c : cp) : bool :=
  if is_ascii c then is_09 c else u_decimal U c.

(** [\w] *)
Definition is_word (c : cp) : bool :=
  if is_ascii c then is_AZ c || is_az c || is_09 c || cp_eqb c 95
  else u_alnum U c.

Definition lower_cp (c : cp) : list cp :=
  if is_ascii c then (if is_AZ c then [c + 32] else [c]) else u_lower U c.

(** [s.lower()], character by character (Python lowers a capital sigma
    by its context, which no table expresses). *)
Definition lower (s : str) : str := flat_map lower_cp s.

(** The case-insensitive comparison of a pattern character [c] under
    [re.I]: the characters agree or their lower-case forms do (the regex
    engine knows a few more equivalences outside ASCII). *)
Definition tolower_cp (c : cp) : cp :=
  if is_ascii c then (if is_AZ c then c + 32 else c) else u_tolower U c.

Definition ci_eqb (c x : cp) : bool :=
  cp_eqb x c || cp_eqb (tolower_cp x) (tolower_cp c).

End Strings.

Fixpoint drop_while (p : cp -> bool) (s : str) : str :=
  match s with
  | [] => []
  | c :: s' => if p c then drop_while p s' else s
  end.

(** [s.strip()] *)
Definition strip (s : str) : str :=
  rev (drop_while is_space (rev (drop_while is_space s))).

(** [s.split()]: the maximal runs of characters that are not white space. *)
Fixpoint split_ws_aux (acc : str) (s : str) : list str :=
  match s with
  | [] => match acc with [] => [] | _ => [rev acc] end
  | c :: s' =>
      if is_space c
      then match acc with
           | [] => split_ws_aux [] s'
           | _ => rev acc :: split_ws_aux [] s'
           end
      else split_ws_aux (c :: acc) s'
  end.

Definition split_ws (s : str) : list str := split_ws_aux [] s.

(** [s.splitlines()]: CR LF is one boundary, and no empty last line. *)
Fixpoint splitlines_aux (acc : str) (s : str) : list str :=
  match s with
  | [] => match acc with [] => [] | _ => [rev acc] end
  | c :: s' =>
      if cp_eqb c 13
      then match s' with
           | d :: s'' =>
               if cp_eqb d 10 then rev acc :: splitlines_aux [] s''
               else rev acc :: splitlines_aux [] s'
           | [] => rev acc :: splitlines_aux [] s'
           end
      else if is_linebreak c then rev acc :: splitlines_aux [] s'
      else splitlines_aux (c :: acc) s'
  end.

Definition splitlines (s : str) : list str := splitlines_aux [] s.

(** [sep.join(parts)] *)
Fixpoint join (sep : str) (parts : list str) : str :=
  match parts with
  | [] => []
  | [p] => p
  | p :: ps => p ++ sep ++ join sep ps
  end.

Fixpoint is_prefix (p s : str) : bool :=
  match p, s with
  | [], _ => true
  | x :: p', y :: s' => cp_eqb x y && is_prefix p' s'
  | _ :: _, [] => false
  end.

(** [sub in s] *)
Fixpoint contains (sub s : str) : bool :=
  is_prefix sub s ||
  match s with
  | [] => false
  | _ :: s' => contains sub s'
  end.

(** [s.count(c)] for a one-character string [c]. *)
Definition count_cp (c : cp) (s : str) : nat :=
  List.length (filter (cp_eqb c) s).

(** [len(s)] as a Python integer. *)
Definition len {A : Type} (l : list A) : Z := Z.of_nat (List.length l).

(** ** Regular expressions

    The patterns of [utils.py] are written as values of [regex]; [rmatch]
    is the backtracking matcher of [re], with its priorities: the left
    alternative first, repetitions greedy.  Repetition is over a character
    class, which is all the patterns of the source use. *)

Inductive regex : Type :=
| Eps
| Chr (p : cp -> bool)
| Seq (r1 r2 : regex)
| Alt (r1 r2 : regex)
| Rep (p : cp -> bool) (lo : nat) (hi : option nat)
| WordB
| Bol
| Grp (r : regex).

(** [r?] *)
Definition Opt (r : regex) : regex := Alt r Eps.
(** [p*], [p+] and [p?] over a class *)
Definition Star (p : cp -> bool) : regex := Rep p 0 None.
Definition Plus (p : cp -> bool) : regex := Rep p 1 None.
(** a literal string *)
Fixpoint Str (eqc : cp -> cp -> bool) (s : str) : regex :=
  match s with
  | [] => Eps
  | [c] => Chr (eqc c)
  | c :: s' => Seq (Chr (eqc c)) (Str eqc s')
  end.
(** [r1|r2|...] *)
Fixpoint Alts (rs : list regex) : regex :=
  match rs with
  | [] => Eps
  | [r] => r
  | r :: rs' => Alt r (Alts rs')
  end.

(** The state of a match: the text of group 1, the character before the
    current position and the text from the current position on. *)
Section Matcher.

Variable U : unicode_tables.
Variable A : Type.

Definition kont : Type := option str -> option cp -> str -> option A.

Fixpoint rep_lo (p : cp -> bool) (lo : nat) (prev : option cp) (s : str)
    (k : option cp -> str -> option A) : option A :=
  match lo with
  | O => k prev s
  | S lo' =>
      match s with
      | c :: s' => if p c then rep_lo p lo' (Some c) s' k else None
      | [] => None
      end
  end.

Definition budget_left (b : option nat) : bool :=
  match b with Some O => false | _ => true end.

Definition budget_pred (b : option nat) : option nat :=
  match b with Some n => Some (Nat.pred n) | None => None end.

Fixpoint rep_greedy (p : cp -> bool) (b : option nat) (prev : option cp)
    (s : str) (k : option cp -> str -> option A) : option A :=
  match s with
  | c :: s' =>
      if p c && budget_left b
      then match rep_greedy p (budget_pred b) (Some c) s' k with
           | Some a => Some a
           | None => k prev s
           end
      else k prev s
  | [] => k prev s
  end.

Definition word_before (prev : option cp) : bool :=
  match prev with Some c => is_word U c | None => false end.

Definition word_at (s : str) : bool :=
  match s with c :: _ => is_word U c | [] => false end.

Fixpoint rmatch (r : regex) (g : option str) (prev : option cp) (s : str)
    (k : kont) : option A :=
  match r with
  | Eps => k g prev s
  | Chr p =>
      match s with
      | c :: s' => if p c then k g (Some c) s' else None
      | [] => None
      end
  | Seq r1 r2 => rmatch r1 g prev s (fun g' p' s' => rmatch r2 g' p' s' k)
  | Alt r1 r2 =>
      match rmatch r1 g prev s k with
      | Some a => Some a
      | None => rmatch r2 g prev s k
      end
  | Rep p lo hi =>
      rep_lo p lo prev s
        (fun p' s' =>
           rep_greedy p (option_map (fun h => (h - lo)%nat) hi) p' s' (k g))
  | WordB =>
      if xorb (word_before prev) (word_at s) then k g prev s else None
  | Bol =>
      match prev with
      | None => k g prev s
      | Some c => if cp_eqb c NL then k g prev s else None
      end
  | Grp r1 =>
      rmatch r1 g prev s
        (fun _ p' s' =>
           k (Some (firstn (List.length s - List.length s') s)) p' s')
  end.

End Matcher.

(** A match object: [m.group(0)] and [m.group(1)]. *)
Record rematch : Type := { group0 : str; group1 : option str }.

Section Search.

Variable U : unicode_tables.

(** The match of [r] that starts at the current position, if any. *)
Definition match_here (r : regex) (prev : option cp) (s : str)
    : option rematch :=
  rmatch U r None prev s
    (fun g _ s' =>
       Some {| group0 := firstn (List.length s - List.length s') s;
               group1 := g |}).

(** [r.search(s)]: the leftmost match. *)
Fixpoint search_from (r : regex) (prev : option cp) (s : str)
    : option rematch :=
  match match_here r prev s with
  | Some m => Some m
  | None =>
      match s with
      | [] => None
      | c :: s' => search_from r (Some c) s'
      end
  end.

Definition re_search (r : regex) (s : str) : option rematch :=
  search_from r None s.

(** [if r.search(s)] *)
Definition re_found (r : regex) (s : str) : bool :=
  match re_search r s with Some _ => true | None => false end.

(** [r.finditer(s)]: the matches from left to right, each search starting
    where the previous match ended.  [skip] counts the characters of the
    previous match still to pass.  (No pattern of the source matches the
    empty string, so the rule of [re] for empty matches is not needed.) *)
Fixpoint finditer_from (r : regex) (prev : option cp) (s : str) (skip : nat)
    : list rematch :=
  match s with
  | [] => []
  | c :: s' =>
      match skip with
      | S n => finditer_from r (Some c) s' n
      | O =>
          match match_here r prev s with
          | Some m =>
              m :: finditer_from r (Some c) s'
                     (Nat.pred (List.length (group0 m)))
          | None => finditer_from r (Some c) s' 0
          end
      end
  end.

Definition re_finditer (r : regex) (s : str) : list rematch :=
  finditer_from r None s 0.

(** [len(r.findall(s))] *)
Definition re_count (r : regex) (s : str) : Z := len (re_finditer r s).

End Search.

(** [re.split(r"\W+", s)]: the pieces between the maximal runs of characters
    that are not word characters; a run at either end leaves an empty
    piece. *)
Fixpoint split_nonword_aux (U : unicode_tables) (acc : str) (in_sep : bool)
    (s : str) : list str :=
  match s with
  | [] => [rev acc]
  | c :: s' =>
      if is_word U c then split_nonword_aux U (c :: acc) false s'
      else if in_sep then split_nonword_aux U acc true s'
      else rev acc :: split_nonword_aux U [] true s'
  end.

Definition split_nonword (U : unicode_tables) (s : str) : list str :=
  split_nonword_aux U [] false s.

(** ** Numbers *)

Local Open Scope Q_scope.

(** An [int] used where Python wants a [float]. *)
Definition of_int (z : Z) : Q := inject_Z z.

Definition Qltb (a b : Q) : bool := negb (Qle_bool b a).

(** [min(a, b)] and [max(a, b)] of Python: the first argument unless the
    second is strictly smaller (larger). *)
Definition py_min (a b : Q) : Q := if Qltb b a then b else a.
Definition py_max (a b : Q) : Q := if Qltb a b then b else a.

(** [abs(x)] *)
Definition py_abs (x : Q) : Q := if Qltb x 0 then - x else x.

(** Rounding to the nearest integer, ties to even. *)
Definition round_half_even (q : Q) : Z :=
  let f := Qfloor q in
  match Qcompare (q - inject_Z f) 0.5 with
  | Lt => f
  | Gt => (f + 1)%Z
  | Eq => if Z.even f then f else (f + 1)%Z
  end.

(** [round(x, 2)] *)
Definition round2 (x : Q) : Q := Qmake (round_half_even (x * 100)) 100.

(** [int(x)]: truncation towards zero. *)
Definition py_int (x : Q) : Z := if Qltb x 0 then Qceiling x else Qfloor x.

(** ** [utils.py]: constants *)

Definition chr_is (a : string) (c : cp) : bool :=
  existsb (cp_eqb c) (lit a).

Definition not_newline (c : cp) : bool := negb (cp_eqb c NL).

(** [[-•*]] *)
Definition is_marker (c : cp) : bool :=
  cp_eqb c HYPHEN || cp_eqb c BULLET || cp_eqb c 42.

(** [ACTION_BULLET_RE], compiled with [re.M]; its pattern, with spaces
    between the parts:  ^ (?: [-•*] \s* )? ( [A-Z] [^\n]{0,200} )  *)
Definition ACTION_BULLET_RE : regex :=
  Seq Bol
    (Seq (Opt (Seq (Chr is_marker) (Star is_space)))
         (Grp (Seq (Chr is_AZ) (Rep not_newline 0 (Some 200%nat))))).

Definition S_ (s : string) : regex := Str cp_eqb (lit s).

(** The units: ms|s|min|hr|days?|x|k|K|M|million|billion *)
Definition METRIC_UNITS : regex :=
  Alts [S_ "ms"; S_ "s"; S_ "min"; S_ "hr";
        Seq (S_ "day") (Opt (S_ "s"));
        S_ "x"; S_ "k"; S_ "K"; S_ "M"; S_ "million"; S_ "billion"].

(** [METRIC_RE]; its pattern, with spaces between the parts:
    (?: ( \d+ \.? \d* ) %
      | \b \d+ \b \s* (?: ms|s|min|hr|days?|x|k|K|M|million|billion ) )  *)
Definition METRIC_RE (U : unicode_tables) : regex :=
  Alt (Seq (Grp (Seq (Plus (is_digit U))
                     (Seq (Opt (S_ ".")) (Star (is_digit U)))))
           (S_ "%"))
      (Seq WordB
         (Seq (Plus (is_digit U))
            (Seq WordB (Seq (Star is_space) METRIC_UNITS)))).

Definition HEADER_HINTS : list str :=
  List.map lit ["experience"; "work"; "projects"; "education"; "skills";
                "summary"; "certifications"]%string.

(** The technology keywords of [score_bullets]. *)
Definition TECH_WORDS : list str :=
  List.map lit ["python"; "sql"; "react"; "docker"; "pandas"; "tensorflow";
                "pytorch"; "powerbi"; "tableau"; "fastapi"; "flask";
                "airflow"]%string.

(** The set literal [canon] of [jd_compare], in the order of the source. *)
Definition canon_literal : list str :=
  List.map lit ["python"; "sql"; "powerbi"; "docker"; "airflow"; "react";
                "tableau"; "pandas"; "numpy"; "tensorflow";
                "pytorch"]%string.

(** The ontology, as [json.load] returns it: a dictionary that may have the
    keys ["skills"] (bucket name to synonyms) and ["action_verbs"]. *)
Record ontology : Type := {
  ont_skills : option (list (str * list str));
  ont_action_verbs : option (list str)
}.

(** [d.get(key, default)] on an optional entry. *)
Definition get_or {A : Type} (o : option A) (d : A) : A :=
  match o with Some a => a | None => d end.

(** ** [detect_sections] *)

(** [sections]: the seven keys in the order of [HEADER_HINTS], each with
    its lines. *)
Definition section_lines : Type := list (str * list str).

Definition sections_init : section_lines :=
  List.map (fun k => (k, @nil str)) HEADER_HINTS.

(** [sections[current].append(ln)] *)
Definition section_append (current ln : str) (secs : section_lines)
    : section_lines :=
  List.map (fun kv => if str_eqb (fst kv) current
                      then (fst kv, snd kv ++ [ln]) else kv) secs.

(** [d.get(key, "")] on the result of [detect_sections]. *)
Fixpoint sections_get (secs : list (str * str)) (key : str) : str :=
  match secs with
  | [] => []
  | (k, v) :: secs' => if str_eqb k key then v else sections_get secs' key
  end.

Section Segmenter.

Variable U : unicode_tables.

(** The inner loop over [HEADER_HINTS]: the first hint [h] with
    [h in key and len(ln) <= 40]. *)
Definition match_header (ln : str) : option str :=
  let key := lower U ln in
  find (fun h => contains h key && (len ln <=? 40)%Z) HEADER_HINTS.

(** One turn of the loop over the lines, on [(current, sections)]. *)
Definition segment_step (st : str * section_lines) (ln : str)
    : str * section_lines :=
  match match_header ln with
  | Some h => (h, snd st)
  | None => (fst st, section_append (fst st) ln (snd st))
  end.

Definition segment_loop (lines : list str) (st : str * section_lines)
    : str * section_lines :=
  fold_left segment_step lines st.

Definition detect_sections (text : str) : list (str * str) :=
  let lines := List.map strip (splitlines text) in
  let sections := snd (segment_loop lines (lit "summary", sections_init)) in
  List.map (fun kv => (fst kv, strip (join [NL] (snd kv))))
    (filter (fun kv => match snd kv with [] => false | _ => true end)
       sections).

End Segmenter.

(** ** Skills and bullets *)

(** [BulletScoreReport]: the dictionary that [score_bullets] returns. *)
Record bullet_report : Type := { score : Q; reasons : list str }.

(** The three counters of the loop of [score_bullets]. *)
Record hit_counts : Type := {
  action_hits : Z;
  metric_hits : Z;
  tech_hits : Z
}.

Fixpoint str_ltb (a b : str) : bool :=
  match a, b with
  | _, [] => false
  | [], _ :: _ => true
  | x :: a', y :: b' => (x <? y)%N || (cp_eqb x y && str_ltb a' b')
  end.

Fixpoint insert_sorted (x : str) (l : list str) : list str :=
  match l with
  | [] => [x]
  | y :: l' =>
      if str_eqb x y then l
      else if str_ltb x y then x :: l
      else y :: insert_sorted x l'
  end.

(** [sorted(found)] for the set [found] of the strings of [l]. *)
Definition sorted_set (l : list str) : list str :=
  fold_right insert_sorted [] l.

Section Features.

Variable U : unicode_tables.

(** [rapidfuzz.fuzz.partial_ratio], a similarity from 0 to 100. *)
Variable partial_ratio : str -> str -> Q.

(** The character class "[^a-z0-9+.#]" of [normalize_token]. *)
Definition is_token_char (c : cp) : bool :=
  is_az c || is_09 c || chr_is "+.#" c.

(** [re.sub(r"[^a-z0-9+.#]", " ", t.lower()).strip()] *)
Definition normalize_token (t : str) : str :=
  strip (List.map (fun c => if is_token_char c then c else SPACE)
           (lower U t)).

Definition skill_detected (tokens : list str) (norm_text s : str) : bool :=
  let key := normalize_token s in
  if str_mem key tokens then true
  else Qltb 90 (partial_ratio key norm_text).

Definition extract_skills (text : str) (ont : ontology) : list str :=
  let tokens := List.map normalize_token (split_nonword U (lower U text)) in
  let norm_text := normalize_token text in
  let found :=
    flat_map (fun bucket => filter (skill_detected tokens norm_text)
                              (snd bucket))
      (get_or (ont_skills ont) []) in
  sorted_set found.

(** [[m.group(1).strip() for m in ACTION_BULLET_RE.finditer(text)]] *)
Definition bullets (text : str) : list str :=
  List.map (fun m => strip (get_or (group1 m) []))
    (re_finditer U ACTION_BULLET_RE text).

(** [METRIC_RE.search(b)] as a condition *)
Definition has_metric (b : str) : bool := re_found U (METRIC_RE U) b.

Definition bump (c : bool) (n : Z) : Z := if c then (n + 1)%Z else n.

(** The body of the loop of [score_bullets] for the bullet [b]. *)
Definition count_step (action_verbs : list str) (h : hit_counts) (b : str)
    : hit_counts :=
  match split_ws b with
  | [] => h
  | w :: _ =>
      let tok0 := lower U w in
      {| action_hits := bump (str_mem tok0 action_verbs) (action_hits h);
         metric_hits := bump (has_metric b) (metric_hits h);
         tech_hits :=
           bump (existsb (fun s => contains s (lower U b)) TECH_WORDS)
             (tech_hits h) |}
  end.

Definition count_hits (bullets_list : list str) (ont : ontology)
    : hit_counts :=
  fold_left (count_step (get_or (ont_action_verbs ont) [])) bullets_list
    {| action_hits := 0; metric_hits := 0; tech_hits := 0 |}.

(** [composite] of [score_bullets]. *)
Definition composite (h : hit_counts) (n : Z) : Q :=
  0.8 * (of_int (action_hits h) / of_int n)
  + 1.2 * (of_int (metric_hits h) / of_int n)
  + 1.0 * (of_int (tech_hits h) / of_int n).

Definition reason_if (c : bool) (msg : string) : list str :=
  if c then [lit msg] else [].

Definition score_bullets (bullets_list : list str) (ont : ontology)
    : bullet_report :=
  match bullets_list with
  | [] => {| score := 0.0; reasons := [lit "No bullet points detected."] |}
  | _ =>
      let h := count_hits bullets_list ont in
      let n := Z.max 1 (len bullets_list) in
      let score := py_min 3.0 (round2 (composite h n * 3.0)) / 3.0 * 3.0 in
      let half := of_int n / 2 in
      {| score := round2 score;
         reasons :=
           reason_if (Qltb (of_int (action_hits h)) half)
             "Many bullets lack strong action verbs."
           ++ reason_if (Qltb (of_int (metric_hits h)) half)
                "Few bullets quantify impact (%, #, time)."
           ++ reason_if (Qltb (of_int (tech_hits h)) half)
                "Bullets often miss concrete tech/context." |}
  end.

End Features.

(** ** The rubric sub-scorers *)

(** [\b\w+ed\b] and [\b\w+ing\b] *)
Definition word_ending (U : unicode_tables) (suffix : string) : regex :=
  Seq WordB (Seq (Plus (is_word U)) (Seq (S_ suffix) WordB)).

(** A pattern [(w1|w2|...)] compiled with [re.I]. *)
Definition any_word_ci (U : unicode_tables) (ws : list string) : regex :=
  Grp (Alts (List.map (fun w => Str (ci_eqb U) (lit w)) ws)).

(** [\+?\d{7,}] *)
Definition PHONE_RE (U : unicode_tables) : regex :=
  Seq (Opt (S_ "+")) (Rep (is_digit U) 7 None).

(** [if c: reasons.append(msg); score -= amount] on [(score, reasons)]. *)
Definition penalty (c : bool) (msg : string) (amount : Q)
    (st : Q * list str) : Q * list str :=
  if c then (fst st - amount, snd st ++ [lit msg]) else st.

(** [if c: score += amount] and [if c: score -= amount]. *)
Definition add_if (c : bool) (amount : Q) (s : Q) : Q :=
  if c then s + amount else s.
Definition sub_if (c : bool) (amount : Q) (s : Q) : Q :=
  if c then s - amount else s.

Section Rubric.

Variable U : unicode_tables.

(** [textstat.flesch_kincaid_grade]; [None] when it raises. *)
Variable flesch_kincaid_grade : str -> option Q.

Definition readability_score (text : str) : Q :=
  match flesch_kincaid_grade text with
  | Some grade =>
      if Qle_bool 10 grade && Qle_bool grade 12 then 0.8
      else py_max 0.0 (0.8 - py_abs (11 - grade) * 0.1)
  | None => 0.4
  end.

Definition concision_bonus (text : str) : Q :=
  match bullets U text with
  | [] => 0.3
  | blts =>
      let long := len (filter (fun b => (28 <? len (split_ws b))%Z) blts) in
      let frac := of_int long / of_int (len blts) in
      py_max 0.0 (0.7 - 0.7 * frac)
  end.

Definition tense_consistency (text : str) : Q :=
  let past := re_count U (word_ending U "ed") (lower U text) in
  let present := re_count U (word_ending U "ing") (lower U text) in
  let total := (past + present + 1)%Z in
  let ratio := of_int (Z.min past present) / of_int total in
  0.2 + 0.3 * (1 - ratio).

(** The four conditions of [structure_ats], in the order of the source. *)
Definition too_long (text : str) : bool := (18000 <? len text)%Z.
Definition has_tab (text : str) : bool := contains [TAB] text.
Definition few_markers (text : str) : bool :=
  (count_cp BULLET text + count_cp HYPHEN text <? 5)%nat.
Definition no_header (text : str) : bool :=
  negb (existsb (fun h => contains h (lower U text)) HEADER_HINTS).

Definition structure_ats (text : str) : Q * list str :=
  let st0 := (1.5, @nil str) in
  let st1 := penalty (too_long text)
               "Resume likely exceeds recommended length." 0.4 st0 in
  let st2 := penalty (has_tab text)
               "Tabs/tables may hurt ATS parsing." 0.3 st1 in
  let st3 := penalty (few_markers text)
               "Too few bullet points detected." 0.3 st2 in
  let st4 := penalty (no_header text)
               "Missing standard section headers." 0.3 st3 in
  (py_max 0.0 (round2 (fst st4)), snd st4).

Definition projects_evidence (sec_text : str) : Q :=
  let s1 := add_if (re_found U
                      (any_word_ci U ["problem"; "challenge"; "goal"]%string)
                      sec_text) 0.3 0.0 in
  let s2 := add_if (re_found U
                      (any_word_ci U
                         ["approach"; "method"; "stack"; "tech"]%string)
                      sec_text) 0.3 s1 in
  let s3 := add_if (has_metric U sec_text) 0.4 s2 in
  py_min 1.0 (round2 s3).

Definition hygiene (text : str) : Q :=
  let s1 := sub_if (negb (re_found U (S_ "@") text)) 0.2 0.5 in
  let s2 := sub_if (negb (re_found U (PHONE_RE U) text)) 0.1 s1 in
  let s3 := sub_if (len text <? 500)%Z 0.2 s2 in
  py_max 0.0 (round2 s3).

End Rubric.

(** ** [jd_compare] *)

Record jd_comparison : Type := {
  coverage_pct : option Z;
  missing_skills : list str;
  matched_keywords : list str;
  recommendations : list str
}.

(** The f-string of the recommendations. *)
Definition recommendation (m : str) : str :=
  lit "Add a bullet showing " ++ m
  ++ lit " in context of a project/result.".

Section Comparator.

Variable U : unicode_tables.

(** The elements of the set [canon] in the order in which Python iterates
    over it (a permutation of [canon_literal] fixed by the hashes of the
    strings). *)
Variable canon : list str.

Definition jd_tokens (jd : str) : list str :=
  List.map (normalize_token U) (split_ws jd).

Definition jd_matched (jd : str) (skills : list str) : list str :=
  filter (fun s => str_mem (normalize_token U s) (jd_tokens jd)) skills.

Definition jd_missing (jd : str) (skills : list str) : list str :=
  filter (fun s => negb (str_mem s (List.map (normalize_token U) skills))
                   && str_mem s (jd_tokens jd)) canon.

Definition jd_compare (jd : str) (skills : list str) : jd_comparison :=
  match jd with
  | [] => {| coverage_pct := None; missing_skills := [];
             matched_keywords := []; recommendations := [] |}
  | _ =>
      let matched := jd_matched jd skills in
      let missing := jd_missing jd skills in
      let coverage :=
        py_int (of_int (100 * len matched)
                / of_int (Z.max 1 (len matched + len missing))) in
      {| coverage_pct := Some coverage;
         missing_skills := firstn 8 missing;
         matched_keywords := matched;
         recommendations := List.map recommendation (firstn 5 missing) |}
  end.

End Comparator.

(** ** [main.py]: the analysis *)

Record subscore_set : Type := {
  sub_impact_bullets : Q;
  sub_skill_alignment : Q;
  sub_clarity_tone : Q;
  sub_structure_ats : Q;
  sub_projects : Q;
  sub_hygiene : Q
}.

(** The response of [analyze].  Its field [improvements] is a list of
    texts assembled from the same sections and reasons; it feeds no score
    and is left out. *)
Record analysis_response : Type := {
  overall_score : Q;
  subscores : subscore_set;
  skills_detected : list str;
  bullets_analyzed : list str;
  two_line_summary_text : str;
  jd_result : jd_comparison
}.

(** [x or d] for an optional string. *)
Definition str_or (x : option str) (d : str) : str :=
  match x with
  | Some (c :: s) => c :: s
  | _ => d
  end.

(** U+2011, the hyphen of the summary template. *)
Definition NB_HYPHEN : cp := 8209.

Definition two_line_summary (skills : list str) (target_role : option str)
    : str :=
  let lead := str_or target_role (lit "technology") in
  let top := match skills with
             | [] => lit "impactful projects"
             | _ => join (lit ", ") (firstn 4 skills)
             end in
  lit "Early" ++ [NB_HYPHEN] ++ lit "career " ++ lead
  ++ lit " candidate with hands" ++ [NB_HYPHEN] ++ lit "on experience in "
  ++ top
  ++ lit ". Delivers measurable outcomes through clear problem framing, "
  ++ lit "rapid experimentation, and clean deliverables.".

(** [min(2.0, round(2.0 * len(skills[:10]) / 10, 2))] *)
Definition keyword_alignment (skills : list str) : Q :=
  py_min 2.0 (round2 (2.0 * of_int (len (firstn 10 skills)) / 10)).

Definition subscore_total (s : subscore_set) : Q :=
  sub_impact_bullets s + sub_skill_alignment s + sub_clarity_tone s
  + sub_structure_ats s + sub_projects s + sub_hygiene s.

Section Analyze.

Variable U : unicode_tables.
Variable partial_ratio : str -> str -> Q.
Variable flesch_kincaid_grade : str -> option Q.
Variable canon : list str.

(** The six values [impact_bullets] ... [hygiene_sub] of [analyze]. *)
Definition rubric (text : str) (ont : ontology) : subscore_set :=
  let sections := detect_sections U text in
  let skills := extract_skills U partial_ratio text ont in
  let blts := bullets U (sections_get sections (lit "experience") ++ [NL]
                         ++ sections_get sections (lit "projects")) in
  let bullets_score := score_bullets U blts ont in
  let clarity := readability_score flesch_kincaid_grade text
                 + concision_bonus U text + tense_consistency U text in
  let ats_score := fst (structure_ats U text) in
  let proj_score :=
    projects_evidence U (sections_get sections (lit "projects")) in
  let hygiene_score := hygiene U text in
  {| sub_impact_bullets := py_min 3.0 (score bullets_score);
     sub_skill_alignment := keyword_alignment skills;
     sub_clarity_tone := py_min 2.0 (round2 clarity);
     sub_structure_ats := py_min 1.5 ats_score;
     sub_projects := py_min 1.0 proj_score;
     sub_hygiene := py_min 0.5 hygiene_score |}.

Definition round_subscores (s : subscore_set) : subscore_set :=
  {| sub_impact_bullets := round2 (sub_impact_bullets s);
     sub_skill_alignment := round2 (sub_skill_alignment s);
     sub_clarity_tone := round2 (sub_clarity_tone s);
     sub_structure_ats := round2 (sub_structure_ats s);
     sub_projects := round2 (sub_projects s);
     sub_hygiene := round2 (sub_hygiene s) |}.

(** The engine behind the [/analyze] route, from the decoded text on. *)
Definition analyze (text : str) (ont : ontology) (target_role : option str)
    (job_description : option str) : analysis_response :=
  let sections := detect_sections U text in
  let skills := extract_skills U partial_ratio text ont in
  let blts := bullets U (sections_get sections (lit "experience") ++ [NL]
                         ++ sections_get sections (lit "projects")) in
  let subs := rubric text ont in
  let total := subscore_total subs in
  {| overall_score := round2 total;
     subscores := round_subscores subs;
     skills_detected := skills;
     bullets_analyzed := firstn 10 blts;
     two_line_summary_text := two_line_summary skills target_role;
     jd_result := jd_compare U canon (str_or job_description []) skills |}.

End Analyze.

(** The bullet scorer of the specification: one cap, no scaling down and
    up again. *)
Definition score_bullets_simplified (h : hit_counts) (n : Z) : Q :=
  py_min 3.0 (round2 (composite h n * 3.0)).

(** The coverage as the specification words it: the quotient rounded to
    the nearest integer. *)
Definition coverage_rounded (matched missing : list str) : Z :=
  round_half_even (of_int (100 * len matched)
                   / of_int (Z.max 1 (len matched + len missing))).

(** ** The arithmetic of the scores on IEEE 754 doubles

    The score arithmetic of the source once more, on binary64 values with
    the operations of [SpecFloat] (round to nearest, ties to even), the
    conditions of the source being given as booleans.  It serves to check
    where reading the floats as rationals leaves the scores as they are
    (the capped bullet score, the skill alignment, Structure/ATS and
    hygiene) and where it does not: a sum that is a tie in the third
    decimal as a rational can lie just above the tie as a double, so that
    [round] gives one hundredth more for the clarity sum and for the
    bullet composite. *)

Module Binary64.

Definition float : Type := spec_float.
Definition prec : Z := 53.
Definition emax : Z := 1024.

(** [float(z)] *)
Definition of_int (z : Z) : float := binary_normalize prec emax z 0 false.

Definition add : float -> float -> float := SFadd prec emax.
Definition sub : float -> float -> float := SFsub prec emax.
Definition mul : float -> float -> float := SFmul prec emax.
Definition div : float -> float -> float := SFdiv prec emax.

(** The decimal literal [n/d] of the source: the double nearest to it. *)
Definition decimal (n d : Z) : float := div (of_int n) (of_int d).

(** The rational that a finite double stands for. *)
Definition value (x : float) : Q :=
  match x with
  | S754_finite s m e =>
      let v := inject_Z (Z.pos m) * Qpower 2 e in if s then - v else v
  | _ => 0
  end.

Definition sign_of (x : float) : bool :=
  match x with
  | S754_zero s | S754_infinity s | S754_finite s _ _ => s
  | S754_nan => false
  end.

(** [round(x, 2)]: the double nearest to the hundredth nearest to the
    value of [x] (ties to the even hundredth), with the sign of [x] when
    that is zero. *)
Definition round2 (x : float) : float :=
  match x with
  | S754_finite _ _ _ =>
      let k := round_half_even (value x * 100) in
      if (k =? 0)%Z then S754_zero (sign_of x) else decimal k 100
  | _ => x
  end.

Definition py_min (a b : float) : float := if SFltb b a then b else a.
Definition py_max (a b : float) : float := if SFltb a b then b else a.

(** [round(min(3.0, r) / 3.0 * 3.0, 2)] of [score_bullets], for the
    rounded composite [r]. *)
Definition score_tail (r : float) : float :=
  round2 (mul (div (py_min (decimal 30 10) r) (decimal 30 10))
            (decimal 30 10)).

(** [min(2.0, round(2.0 * n / 10, 2))] of [analyze], for [n] skills. *)
Definition keyword_alignment (n : Z) : float :=
  py_min (decimal 20 10)
    (round2 (div (mul (decimal 20 10) (of_int n)) (of_int 10))).

Definition sub_if (c : bool) (amount s : float) : float :=
  if c then sub s amount else s.

(** The score of [structure_ats] when its four conditions are [p1] to
    [p4]. *)
Definition structure_ats_score (p1 p2 p3 p4 : bool) : float :=
  let s1 := sub_if p1 (decimal 4 10) (decimal 15 10) in
  let s2 := sub_if p2 (decimal 3 10) s1 in
  let s3 := sub_if p3 (decimal 3 10) s2 in
  let s4 := sub_if p4 (decimal 3 10) s3 in
  py_max (decimal 0 10) (round2 s4).

(** The score of [hygiene] when its three conditions are [c1] to [c3]. *)
Definition hygiene_score (c1 c2 c3 : bool) : float :=
  let s1 := sub_if c1 (decimal 2 10) (decimal 5 10) in
  let s2 := sub_if c2 (decimal 1 10) s1 in
  let s3 := sub_if c3 (decimal 2 10) s2 in
  py_max (decimal 0 10) (round2 s3).

(** [round(composite * 3.0, 2)] of [score_bullets], for the three
    counters and [n] bullets. *)
Definition composite_rounded (a m t n : Z) : float :=
  let composite :=
    add (add (mul (decimal 8 10) (div (of_int a) (of_int n)))
             (mul (decimal 12 10) (div (of_int m) (of_int n))))
        (mul (decimal 10 10) (div (of_int t) (of_int n))) in
  round2 (mul composite (decimal 30 10)).

(** [tense_consistency], for the two counts. *)
Definition tense (past present : Z) : float :=
  let total := (past + present + 1)%Z in
  let ratio := div (of_int (Z.min past present)) (of_int total) in
  add (decimal 2 10) (mul (decimal 3 10) (sub (of_int 1) ratio)).

(** [min(2.0, round(clarity, 2))] of [analyze], for the readability score
    [r], the concision bonus [c] and the two counts. *)
Definition clarity_tone (r c : float) (past present : Z) : float :=
  py_min (decimal 20 10) (round2 (add (add r c) (tense past present))).

(** The integers [0 .. n-1]. *)
Definition upto (n : nat) : list Z := List.map Z.of_nat (seq 0 n).

Definition all_bools : list bool := [true; false].

End Binary64.

(** ** Definitions used to state the properties *)

(** A value with two decimals: [k] hundredths. *)
Definition hundredths (k : Z) : Q := Qmake k 100.

(** The values that already have two decimals. *)
Definition two_decimals (x : Q) : Prop := exists k : Z, x == hundredths k.

(** The comparison returned when there is no job description. *)
Definition no_comparison : jd_comparison :=
  {| coverage_pct := None; missing_skills := [];
     matched_keywords := []; recommendations := [] |}.

(** The scenario text: a "Skills" header, six hyphens and 19987 letters. *)
Definition long_resume : str :=
  lit "Skills" ++ [NL] ++ List.repeat HYPHEN 6
  ++ List.repeat 97%N (N.to_nat 19987).

(** The quantified-impact pattern as the specification words it: a
    percentage number, or an integer followed by one of the units. *)
Definition QUANTIFIED_IMPACT (U : unicode_tables) : regex :=
  Alt (Seq (Plus (is_digit U))
         (Seq (Opt (S_ ".")) (Seq (Star (is_digit U)) (S_ "%"))))
      (Seq (Plus (is_digit U)) (Seq (Star is_space) METRIC_UNITS)).

(** The bullet [b] contains that pattern. *)
Definition quantified_impact (U : unicode_tables) (b : str) : bool :=
  re_found U (QUANTIFIED_IMPACT U) b.

(** No counter of the loop of [score_bullets] is negative. *)
Definition hits_nonneg (h : hit_counts) : Prop :=
  (0 <= action_hits h)%Z /\ (0 <= metric_hits h)%Z /\ (0 <= tech_hits h)%Z.

From Stdlib Require Import Sorted Permutation.

(** ** [improvements] and the tips of [analyze] *)

(** One improvement tip: the dictionary with the keys ["section"],
    ["issue"] and ["fix_example"]. *)
Record tip : Type := {
  tip_section : str;
  tip_issue : str;
  tip_fix_example : str
}.

Section Tips.

Variable U : unicode_tables.

(** The title-case mapping of [str.capitalize] outside ASCII. *)
Variable u_title : cp -> list cp.

Definition title_cp (c : cp) : list cp :=
  if is_ascii c then (if is_az c then [c - 32] else [c])%N else u_title c.

(** [s.capitalize()]: the first character in title case, the rest in
    lower case. *)
Definition capitalize (s : str) : str :=
  match s with
  | [] => []
  | c :: s' => title_cp c ++ lower U s'
  end.

(** The tip for the bullet [b]; [None] when [b.split()[0]] raises
    [IndexError]. *)
Definition bullet_tip (b : str) : option tip :=
  match split_ws b with
  | [] => None
  | w :: _ =>
      Some {| tip_section := lit "Experience/Projects";
              tip_issue := lit "Bullet lacks measurable result";
              tip_fix_example :=
                capitalize w
                ++ lit " ... resulting in {metric} (e.g., +23%, "
                ++ [8722%N] ++ lit "120ms, 2" ++ [215%N]
                ++ lit " throughput)." |}
  end.

Definition skills_tip : tip :=
  {| tip_section := lit "Skills";
     tip_issue := lit "Skills too generic or short";
     tip_fix_example :=
       lit "Group as Languages / Libraries / Tools with 4" ++ [8211%N]
       ++ lit "6 items each." |}.

Definition projects_tip : tip :=
  {| tip_section := lit "Projects";
     tip_issue := lit "Missing or weak projects section";
     tip_fix_example :=
       lit "Add 2 projects with Problem" ++ [8594%N] ++ lit "Approach"
       ++ [8594%N] ++ lit "Result and links." |}.

(** The loop over [blts[:3]]: the tip of the first bullet without a
    metric, if there is one.  The outer [None] is the [IndexError]. *)
Definition first_bullet_tip (blts : list str) : option (list tip) :=
  match find (fun b => negb (has_metric U b)) (firstn 3 blts) with
  | None => Some []
  | Some b => option_map (fun t => [t]) (bullet_tip b)
  end.

Definition list_if {A : Type} (c : bool) (x : A) : list A :=
  if c then [x] else [].

(** [improvements(section_texts)]; [None] when it raises. *)
Definition improvements (section_texts : list (str * str))
    : option (list tip) :=
  let exp := sections_get section_texts (lit "experience") ++ [NL]
             ++ sections_get section_texts (lit "projects") in
  match first_bullet_tip (bullets U exp) with
  | None => None
  | Some tips =>
      Some (tips
            ++ list_if (len (split_ws (sections_get section_texts
                                         (lit "skills"))) <? 6)%Z
                 skills_tip
            ++ list_if (match sections_get section_texts (lit "projects")
                        with [] => true | _ => false end)
                 projects_tip)
  end.

Definition ats_tip (ats_reasons : list str) : tip :=
  {| tip_section := lit "Structure/ATS";
     tip_issue := join (lit "; ") ats_reasons;
     tip_fix_example :=
       lit "Use simple headers and bullet lists; avoid tables/columns." |}.

(** The field [improvements] of the response of [analyze]. *)
Definition analyze_tips (text : str) : option (list tip) :=
  let ats_reasons := snd (structure_ats U text) in
  match improvements (detect_sections U text) with
  | None => None
  | Some tips =>
      Some (tips ++ match ats_reasons with
                    | [] => []
                    | _ => [ats_tip ats_reasons]
                    end)
  end.

End Tips.

(** ** Definitions used to state further properties *)

(** The strict order of [sorted] on strings, as a relation. *)
Definition str_lt (a b : str) : Prop := str_ltb a b = true.

(** The number of lines stored in the sections. *)
Definition stored_lines (secs : section_lines) : nat :=
  list_sum (List.map (fun kv => List.length (snd kv)) secs).

(** The line [ln] is taken for a header. *)
Definition is_header (U : unicode_tables) (ln : str) : bool :=
  match match_header U ln with Some _ => true | None => false end.

(** The shape of a stripped string: empty, or with a first and a last
    character that are not white space. *)
Definition trimmed (s : str) : Prop :=
  drop_while is_space s = s /\ drop_while is_space (rev s) = rev s.

(** The characters that a normal form is made of. *)
Definition normal_char (c : cp) : bool := is_token_char c || cp_eqb c SPACE.

(** No line is stored yet under the key [k]. *)
Definition untouched (k : str) (secs : section_lines) : Prop :=
  forall kv, In kv secs -> fst kv = k -> snd kv = [].

(** The sections with [acc] under ["summary"] and nothing elsewhere. *)
Definition summary_only (acc : list str) : section_lines :=
  List.map (fun k => (k, if str_eqb k (lit "summary") then acc else []))
    HEADER_HINTS.

(** What the loop keeps: the seven keys, and a current key among them. *)
Definition well_keyed (st : str * section_lines) : Prop :=
  In (fst st) HEADER_HINTS /\ List.map fst (snd st) = HEADER_HINTS.

(** ** What a pattern matches

    [matches U r prev w rest]: the pattern [r] matches the text [w] at a
    position where the character before is [prev] and the text after [w]
    is [rest]. *)

(** The character before the position reached after [w]. *)
Definition lastc (prev : option cp) (w : str) : option cp :=
  fold_left (fun _ c => Some c) w prev.

Inductive matches (U : unicode_tables)
    : regex -> option cp -> str -> str -> Prop :=
| matches_Eps prev rest : matches U Eps prev [] rest
| matches_Chr p c prev rest :
    p c = true -> matches U (Chr p) prev [c] rest
| matches_Seq r1 r2 prev w1 w2 rest :
    matches U r1 prev w1 (w2 ++ rest) ->
    matches U r2 (lastc prev w1) w2 rest ->
    matches U (Seq r1 r2) prev (w1 ++ w2) rest
| matches_Alt_l r1 r2 prev w rest :
    matches U r1 prev w rest -> matches U (Alt r1 r2) prev w rest
| matches_Alt_r r1 r2 prev w rest :
    matches U r2 prev w rest -> matches U (Alt r1 r2) prev w rest
| matches_Rep p lo hi prev w rest :
    forallb p w = true ->
    (lo <= List.length w)%nat ->
    match hi with
    | Some h => (List.length w <= Nat.max lo h)%nat
    | None => True
    end ->
    matches U (Rep p lo hi) prev w rest
| matches_WordB prev rest :
    xorb (word_before U prev) (word_at U rest) = true ->
    matches U WordB prev [] rest
| matches_Bol prev rest :
    prev = None \/ prev = Some NL -> matches U Bol prev [] rest
| matches_Grp r prev w rest :
    matches U r prev w rest -> matches U (Grp r) prev w rest.

(** The text [s] has a part that [r] matches. *)
Definition has_match (U : unicode_tables) (r : regex) (s : str) : Prop :=
  exists a w b, s = a ++ w ++ b /\ matches U r (lastc None a) w b.

(** No counter of the loop of [score_bullets] exceeds [n]. *)
Definition hits_at_most (n : Z) (h : hit_counts) : Prop :=
  (action_hits h <= n)%Z /\ (metric_hits h <= n)%Z /\ (tech_hits h <= n)%Z.

(** The text has seven decimal digits in a row. *)
Definition seven_digits (U : unicode_tables) (text : str) : Prop :=
  exists a d b, text = a ++ d ++ b /\ List.length d = 7%nat
                /\ forallb (is_digit U) d = true.

(** The text contains one of the words, in the case given. *)
Definition contains_any (ws : list string) (text : str) : bool :=
  existsb (fun w => contains (lit w) text) ws.

(** The text has a decimal digit right before a "%". *)
Definition digit_percent (U : unicode_tables) (text : str) : Prop :=
  exists a d b, text = a ++ d :: 37%N :: b /\ is_digit U d = true.

(** * Properties *)

(** ** Arithmetic of the scores *)

Lemma Qltb_true (a b : Q) : Qltb a b = true -> a < b.
Proof.
  unfold Qltb. intros H. apply negb_true_iff in H.
  apply Qnot_le_lt. intros Hle. apply Qle_bool_iff in Hle. congruence.
Qed.

Lemma Qltb_false (a b : Q) : Qltb a b = false -> b <= a.
Proof.
  unfold Qltb. intros H. apply negb_false_iff in H.
  now apply Qle_bool_iff.
Qed.

(** Case analysis on a Python comparison [a < b]. *)
Ltac cases_Qltb a b :=
  let E := fresh "E" in
  destruct (Qltb a b) eqn:E;
  [apply Qltb_true in E | apply Qltb_false in E].

Lemma py_min_cases (a b : Q) :
  (py_min a b = b /\ b < a) \/ (py_min a b = a /\ a <= b).
Proof. unfold py_min. cases_Qltb b a; auto. Qed.

Lemma py_max_cases (a b : Q) :
  (py_max a b = b /\ a < b) \/ (py_max a b = a /\ b <= a).
Proof. unfold py_max. cases_Qltb a b; auto. Qed.

Lemma py_min_le_l (a b : Q) : py_min a b <= a.
Proof. destruct (py_min_cases a b) as [[-> H]|[-> H]]; lra. Qed.

Lemma py_min_ge (a b c : Q) : c <= a -> c <= b -> c <= py_min a b.
Proof. intros. destruct (py_min_cases a b) as [[-> _]|[-> _]]; assumption. Qed.

Lemma py_max_ge_l (a b : Q) : a <= py_max a b.
Proof. destruct (py_max_cases a b) as [[-> H]|[-> H]]; lra. Qed.

Lemma round_half_even_floor (q : Q) :
  round_half_even q = Qfloor q \/
  (round_half_even q = (Qfloor q + 1)%Z /\ inject_Z (Qfloor q) < q).
Proof.
  unfold round_half_even.
  destruct (Qcompare_spec (q - inject_Z (Qfloor q)) 0.5) as [H|H|H].
  - destruct (Z.even (Qfloor q)); [now left | right].
    split; [reflexivity | lra].
  - now left.
  - right. split; [reflexivity | lra].
Qed.

Lemma round_half_even_ge (q : Q) (z : Z) :
  inject_Z z <= q -> (z <= round_half_even q)%Z.
Proof.
  intros H. apply Qfloor_resp_le in H. rewrite Qfloor_Z in H.
  destruct (round_half_even_floor q) as [-> | [-> _]]; lia.
Qed.

Lemma round_half_even_le (q : Q) (z : Z) :
  q <= inject_Z z -> (round_half_even q <= z)%Z.
Proof.
  intros H.
  destruct (round_half_even_floor q) as [-> | [-> Hlt]].
  - apply Qfloor_resp_le in H. now rewrite Qfloor_Z in H.
  - assert (Hz : inject_Z (Qfloor q) < inject_Z z) by lra.
    rewrite <- Zlt_Qlt in Hz. lia.
Qed.

Lemma round_half_even_int (q : Q) (z : Z) :
  q == inject_Z z -> round_half_even q = z.
Proof.
  intros H. apply Z.le_antisymm.
  - apply round_half_even_le. lra.
  - apply round_half_even_ge. lra.
Qed.

Lemma hundredths_scale (k : Z) : hundredths k * 100 == inject_Z k.
Proof. unfold hundredths, Qeq, Qmult, inject_Z. simpl. lia. Qed.

Lemma round2_hundredths (x : Q) (k : Z) :
  x == hundredths k -> round2 x = hundredths k.
Proof.
  intros H. unfold round2. fold (hundredths (round_half_even (x * 100))).
  f_equal. apply round_half_even_int.
  rewrite H. apply hundredths_scale.
Qed.

Lemma round2_ge (x : Q) (lo : Z) :
  hundredths lo <= x -> hundredths lo <= round2 x.
Proof.
  intros Hlo. pose proof (hundredths_scale lo) as Hs.
  assert (H1 : inject_Z lo <= x * 100) by lra.
  apply round_half_even_ge in H1.
  unfold round2, hundredths, Qle. simpl. lia.
Qed.

Lemma round2_ge0 (x : Q) : 0 <= x -> 0 <= round2 x.
Proof.
  intros H. apply Qle_trans with (hundredths 0); [unfold hundredths; lra|].
  apply round2_ge. unfold hundredths. lra.
Qed.

Lemma round2_fixed (x : Q) (k : Z) : x == hundredths k -> round2 x == x.
Proof. intros H. rewrite (round2_hundredths H). now symmetry. Qed.

Lemma two_decimals_round2 (x : Q) : two_decimals (round2 x).
Proof. exists (round_half_even (x * 100)). reflexivity. Qed.

Lemma two_decimals_py_min (a b : Q) :
  two_decimals a -> two_decimals b -> two_decimals (py_min a b).
Proof. intros. destruct (py_min_cases a b) as [[-> _]|[-> _]]; assumption. Qed.

Lemma two_decimals_py_max (a b : Q) :
  two_decimals a -> two_decimals b -> two_decimals (py_max a b).
Proof. intros. destruct (py_max_cases a b) as [[-> _]|[-> _]]; assumption. Qed.

Lemma round2_two_decimals (x : Q) : two_decimals x -> round2 x == x.
Proof. intros [k Hk]. exact (round2_fixed Hk). Qed.

(** ** The job-description comparison *)

(** C5.  Without a job description (absent, or the empty string) the
    comparator returns an unset coverage and three empty lists, through
    [jd_compare] itself and through [analyze]; the unset coverage is not the
    computed value 0, and every non-empty job description gets a computed
    coverage. *)
Theorem C5_no_job_description
    (U : unicode_tables) (canon : list str) (skills : list str) :
  jd_compare U canon [] skills = no_comparison
  /\ (forall pr fk text ont role,
        jd_result (analyze U pr fk canon text ont role None) = no_comparison)
  /\ (forall pr fk text ont role,
        jd_result (analyze U pr fk canon text ont role (Some []))
        = no_comparison)
  /\ coverage_pct no_comparison = None
  /\ missing_skills no_comparison = []
  /\ matched_keywords no_comparison = []
  /\ recommendations no_comparison = []
  /\ coverage_pct no_comparison <> Some 0%Z
  /\ (forall c jd, coverage_pct (jd_compare U canon (c :: jd) skills) <> None).
Proof.
  repeat split; try reflexivity; try discriminate.
Qed.

(** ** The skill-alignment subscore *)

Lemma keyword_alignment_value (skills : list str) :
  keyword_alignment skills
  == 0.2 * of_int (Z.min 10 (len skills)).
Proof.
  assert (Hlen : len (firstn 10 skills) = Z.min 10 (len skills)).
  { unfold len. rewrite length_firstn. lia. }
  unfold keyword_alignment. rewrite Hlen.
  set (m := Z.min 10 (len skills)).
  assert (Hm : (0 <= m <= 10)%Z) by (unfold m, len; lia).
  assert (Hr : round2 (2.0 * of_int m / 10) = hundredths (20 * m)).
  { apply round2_hundredths.
    unfold of_int, hundredths, Qeq, Qdiv, Qmult, Qinv, inject_Z.
    cbn [Qnum Qden]. lia. }
  rewrite Hr.
  assert (Hh : hundredths (20 * m) == 0.2 * of_int m).
  { unfold of_int, hundredths, Qeq, Qmult, inject_Z. cbn [Qnum Qden]. lia. }
  assert (Hq : of_int m <= 10).
  { unfold of_int. change 10 with (inject_Z 10).
    rewrite <- Zle_Qle. lia. }
  destruct (py_min_cases 2.0 (hundredths (20 * m))) as [[-> _]|[-> H]].
  - exact Hh.
  - rewrite Hh in H. lra.
Qed.

(** C7.  The skill-alignment subscore depends on the number of detected
    skills only, does not decrease when that number grows, and is 2.0 from
    ten skills on. *)
Theorem C7_skill_alignment_monotone (skills1 skills2 : list str)
    (Hle : (List.length skills1 <= List.length skills2)%nat) :
  keyword_alignment skills1 <= keyword_alignment skills2
  /\ ((10 <= List.length skills1)%nat ->
      keyword_alignment skills1 == 2.0 /\ keyword_alignment skills2 == 2.0).
Proof.
  rewrite !keyword_alignment_value.
  assert (H12 : (Z.min 10 (len skills1) <= Z.min 10 (len skills2))%Z)
    by (unfold len; lia).
  split.
  - rewrite Zle_Qle in H12. unfold of_int. lra.
  - intros H10.
    assert (E1 : Z.min 10 (len skills1) = 10%Z) by (unfold len; lia).
    assert (E2 : Z.min 10 (len skills2) = 10%Z) by (unfold len; lia).
    rewrite E1, E2. split; reflexivity.
Qed.

(** Ten and eleven skills: the subscore stays at 2.0. *)
Lemma C7_skill_alignment_witness :
  let ten := List.repeat (lit "sql") 10 in
  let eleven := List.repeat (lit "sql") 11 in
  keyword_alignment ten <= keyword_alignment eleven
  /\ keyword_alignment ten == 2.0 /\ keyword_alignment eleven == 2.0.
Proof.
  intros ten eleven.
  assert (Hle : (List.length ten <= List.length eleven)%nat)
    by (simpl; lia).
  destruct (C7_skill_alignment_monotone ten eleven Hle) as [Hmono Hsat].
  split; [exact Hmono | apply Hsat; simpl; lia].
Defined.

(** ** The empty document *)

(** C4.  On the empty text the analysis returns a response: no bullet is
    analysed, the bullet scorer gives 0.0 with the single reason
    "No bullet points detected.", and the hygiene subscore is at most 0.3
    (it is 0.0: no "@", no digit run, fewer than 500 characters). *)
Theorem C4_empty_document
    (U : unicode_tables) (pr : str -> str -> Q) (fk : str -> option Q)
    (canon : list str) (ont : ontology) (role jd : option str) :
  let r := analyze U pr fk canon [] ont role jd in
  let sections := detect_sections U [] in
  let blts := bullets U (sections_get sections (lit "experience") ++ [NL]
                         ++ sections_get sections (lit "projects")) in
  blts = []
  /\ bullets_analyzed r = []
  /\ score_bullets U blts ont
     = {| score := 0.0; reasons := [lit "No bullet points detected."] |}
  /\ sub_impact_bullets (subscores r) == 0
  /\ hygiene U [] == 0
  /\ hygiene U [] <= 0.3
  /\ sub_hygiene (subscores r) <= 0.3.
Proof.
  cbv zeta.
  assert (Hb : bullets U (sections_get (detect_sections U []) (lit "experience")
                          ++ [NL]
                          ++ sections_get (detect_sections U [])
                               (lit "projects")) = []) by reflexivity.
  assert (Hh : hygiene U [] = 0.0) by reflexivity.
  refine (conj Hb (conj _ (conj _ (conj _ (conj _ (conj _ _)))))).
  - unfold analyze, bullets_analyzed. rewrite Hb. reflexivity.
  - rewrite Hb. reflexivity.
  - unfold analyze, subscores, round_subscores, rubric, sub_impact_bullets.
    rewrite Hb. reflexivity.
  - rewrite Hh. reflexivity.
  - rewrite Hh. discriminate.
  - unfold analyze, subscores, round_subscores, rubric, sub_hygiene.
    rewrite Hh. discriminate.
Qed.

(** ** Substrings and lower case *)

Lemma cp_eqb_refl (c : cp) : cp_eqb c c = true.
Proof. apply N.eqb_refl. Qed.

Lemma cp_eqb_eq (a b : cp) : cp_eqb a b = true -> a = b.
Proof. apply N.eqb_eq. Qed.

Lemma is_prefix_app (p s : str) : is_prefix p (p ++ s) = true.
Proof.
  induction p as [|c p IH]; simpl; [reflexivity|].
  now rewrite cp_eqb_refl, IH.
Qed.

Lemma is_prefix_split (p s : str) :
  is_prefix p s = true -> exists b, s = p ++ b.
Proof.
  revert s. induction p as [|c p IH]; intros s H.
  - now exists s.
  - destruct s as [|d s]; simpl in H; [discriminate|].
    apply andb_true_iff in H. destruct H as [Hc Hp].
    apply cp_eqb_eq in Hc. subst d.
    destruct (IH s Hp) as [b ->]. now exists b.
Qed.

Lemma contains_app (a sub b : str) : contains sub (a ++ sub ++ b) = true.
Proof.
  induction a as [|c a IH].
  - simpl app. destruct (sub ++ b) eqn:E; simpl;
      rewrite <- E, is_prefix_app; reflexivity.
  - simpl. rewrite IH. apply orb_true_r.
Qed.

Lemma contains_split (sub s : str) :
  contains sub s = true -> exists a b, s = a ++ sub ++ b.
Proof.
  induction s as [|c s IH]; simpl; intros H.
  - rewrite orb_false_r in H. apply is_prefix_split in H.
    destruct H as [b Hb]. now exists [], b.
  - apply orb_true_iff in H. destruct H as [H|H].
    + apply is_prefix_split in H. destruct H as [b Hb]. now exists [], b.
    + destruct (IH H) as (a & b & ->). now exists (c :: a), b.
Qed.

Lemma lower_app (U : unicode_tables) (a b : str) :
  lower U (a ++ b) = lower U a ++ lower U b.
Proof. unfold lower. apply flat_map_app. Qed.

(** A substring stays a substring when both texts are lowered. *)
Lemma contains_lower (U : unicode_tables) (sub s : str) :
  contains sub s = true -> contains (lower U sub) (lower U s) = true.
Proof.
  intros H. destruct (contains_split _ _ H) as (a & b & ->).
  rewrite !lower_app. apply contains_app.
Qed.

(** ** Structure/ATS *)

Lemma contains_single (c : cp) (s : str) :
  contains [c] s = existsb (N.eqb c) s.
Proof.
  induction s as [|d s IH]; simpl; [reflexivity|].
  rewrite IH. unfold cp_eqb. now rewrite andb_true_r.
Qed.

Lemma count_cp_count_occ (c : cp) (s : str) :
  count_cp c s = count_occ N.eq_dec s c.
Proof.
  unfold count_cp. induction s as [|d s IH]; simpl; [reflexivity|].
  unfold cp_eqb at 1. destruct (N.eq_dec d c) as [->|Hne].
  - rewrite N.eqb_refl. simpl. now rewrite IH.
  - destruct (N.eqb_spec c d) as [E|_]; [now subst|exact IH].
Qed.

Lemma In_existsb_eqb (c : cp) (s : str) :
  In c s <-> existsb (N.eqb c) s = true.
Proof.
  rewrite existsb_exists. split.
  - intros H. exists c. split; [exact H | apply N.eqb_refl].
  - intros (d & Hd & E). apply N.eqb_eq in E. now subst.
Qed.

(** The hint test of [structure_ats] fails exactly when no hint is a
    piece of the lowered text. *)
Lemma no_hint_found (hints : list str) (s : str) :
  negb (existsb (fun h => contains h s) hints) = true
  <-> forall h a b, In h hints -> s <> a ++ h ++ b.
Proof.
  rewrite negb_true_iff. split.
  - intros H h a b Hin E.
    assert (Hex : existsb (fun h => contains h s) hints = true).
    { apply existsb_exists. exists h. split; [exact Hin|].
      rewrite E. apply contains_app. }
    rewrite H in Hex. discriminate Hex.
  - intros H. destruct (existsb (fun h => contains h s) hints) eqn:E;
      [|reflexivity].
    apply existsb_exists in E. destruct E as (h & Hin & Hc).
    apply contains_split in Hc. destruct Hc as (a & b & E).
    exfalso. exact (H h a b Hin E).
Qed.

(** C8.  [structure_ats] starts at 1.5 and takes 0.4 when the text has
    more than 18000 characters, 0.3 when it contains a tab (code point 9),
    0.3 when its bullet signs (U+2022) and hyphens (code point 45) number
    fewer than 5 together, and 0.3 when none of the seven header hints is
    a piece of the lowered text; the result lies in 0..1.5 and comes with
    one reason per condition that holds, in the order of the conditions.
    A text of 20000 characters without a tab, with 6 bullet markers and a
    "Skills" header scores 1.1 with the length reason alone. *)
Theorem C8_structure_ats (U : unicode_tables) (text : str) :
  let hints :=
    List.map lit ["experience"; "work"; "projects"; "education"; "skills";
                  "summary"; "certifications"]%string in
  let p1 := (18000 <? Z.of_nat (List.length text))%Z in
  let p2 := existsb (N.eqb 9) text in
  let p3 := (count_occ N.eq_dec text 8226%N + count_occ N.eq_dec text 45%N
             <? 5)%nat in
  let p4 := negb (existsb (fun h => contains h (lower U text)) hints) in
  let result := structure_ats U text in
  (fst result == 1.5 - (if p1 then 0.4 else 0) - (if p2 then 0.3 else 0)
                 - (if p3 then 0.3 else 0) - (if p4 then 0.3 else 0))
  /\ 0 <= fst result <= 1.5
  /\ snd result
     = (if p1 then [lit "Resume likely exceeds recommended length."]
        else [])
       ++ (if p2 then [lit "Tabs/tables may hurt ATS parsing."] else [])
       ++ (if p3 then [lit "Too few bullet points detected."] else [])
       ++ (if p4 then [lit "Missing standard section headers."] else [])
  /\ List.length (snd result)
     = (Nat.b2n p1 + Nat.b2n p2 + Nat.b2n p3 + Nat.b2n p4)%nat
  /\ (p2 = true <-> In 9%N text)
  /\ (p4 = true <-> forall h a b, In h hints -> lower U text <> a ++ h ++ b)
  /\ (Z.of_nat (List.length text) = 20000%Z ->
      ~ In 9%N text ->
      (count_occ N.eq_dec text 8226%N + count_occ N.eq_dec text 45%N
       = 6)%nat ->
      (exists a b, text = a ++ lit "Skills" ++ b) ->
      fst result == 1.1
      /\ snd result = [lit "Resume likely exceeds recommended length."]).
Proof.
  cbv zeta.
  assert (Hgen :
    forall p1 p2 p3 p4 : bool,
      (18000 <? Z.of_nat (List.length text))%Z = p1 ->
      existsb (N.eqb 9) text = p2 ->
      (count_occ N.eq_dec text 8226%N + count_occ N.eq_dec text 45%N
       <? 5)%nat = p3 ->
      negb (existsb (fun h => contains h (lower U text)) HEADER_HINTS)
      = p4 ->
      (fst (structure_ats U text)
         == 1.5 - (if p1 then 0.4 else 0) - (if p2 then 0.3 else 0)
            - (if p3 then 0.3 else 0) - (if p4 then 0.3 else 0))
      /\ 0 <= fst (structure_ats U text) <= 1.5
      /\ snd (structure_ats U text)
         = (if p1 then [lit "Resume likely exceeds recommended length."]
            else [])
           ++ (if p2 then [lit "Tabs/tables may hurt ATS parsing."] else [])
           ++ (if p3 then [lit "Too few bullet points detected."] else [])
           ++ (if p4 then [lit "Missing standard section headers."]
               else [])
      /\ List.length (snd (structure_ats U text))
         = (Nat.b2n p1 + Nat.b2n p2 + Nat.b2n p3 + Nat.b2n p4)%nat).
  { intros p1 p2 p3 p4 H1 H2 H3 H4.
    unfold structure_ats, too_long, has_tab, few_markers, no_header, len,
      TAB, BULLET, HYPHEN.
    rewrite contains_single, !count_cp_count_occ, H1, H2, H3, H4.
    destruct p1, p2, p3, p4; vm_compute; repeat split; discriminate. }
  destruct (Hgen _ _ _ _ eq_refl eq_refl eq_refl eq_refl)
    as (Hs & Hb & Hr & Hl).
  refine (conj Hs (conj Hb (conj Hr (conj Hl (conj _ (conj _ _)))))).
  - symmetry. apply In_existsb_eqb.
  - apply no_hint_found.
  - intros Hlen Htab Hmark (a & b & Hskills).
    assert (E1 : (18000 <? Z.of_nat (List.length text))%Z = true)
      by now rewrite Hlen.
    assert (E2 : existsb (N.eqb 9) text = false).
    { destruct (existsb (N.eqb 9) text) eqn:E; [|reflexivity].
      exfalso. apply Htab. now apply In_existsb_eqb. }
    assert (E3 : (count_occ N.eq_dec text 8226%N
                  + count_occ N.eq_dec text 45%N <? 5)%nat = false)
      by now rewrite Hmark.
    assert (E4 : negb (existsb (fun h => contains h (lower U text))
                         HEADER_HINTS) = false).
    { apply negb_false_iff, existsb_exists.
      exists (lit "skills"). split.
      - unfold HEADER_HINTS. simpl. tauto.
      - rewrite Hskills, !lower_app.
        change (lower U (lit "Skills")) with (lit "skills").
        apply contains_app. }
    destruct (Hgen _ _ _ _ E1 E2 E3 E4) as (Hs' & _ & Hr' & _).
    split.
    + rewrite Hs'. reflexivity.
    + rewrite Hr'. reflexivity.
Qed.

Lemma C8_structure_ats_witness :
  fst (structure_ats ascii_tables long_resume) == 1.1
  /\ snd (structure_ats ascii_tables long_resume)
     = [lit "Resume likely exceeds recommended length."].
Proof.
  destruct (C8_structure_ats ascii_tables long_resume)
    as (_ & _ & _ & _ & _ & _ & Hscenario).
  apply Hscenario.
  - vm_compute. reflexivity.
  - intros H. apply In_existsb_eqb in H. vm_compute in H. discriminate H.
  - vm_compute. reflexivity.
  - exists [], ([NL] ++ List.repeat HYPHEN 6
                ++ List.repeat 97%N (N.to_nat 19987)).
    reflexivity.
Defined.

(** ** Coverage and recommendations *)

Lemma str_eqb_eq (a b : str) : str_eqb a b = true <-> a = b.
Proof.
  revert b. induction a as [|x a IH]; intros [|y b]; simpl;
    try (split; [discriminate | discriminate]); [tauto|].
  rewrite andb_true_iff. unfold cp_eqb. rewrite N.eqb_eq, IH.
  split; [intros [-> ->]; reflexivity | intros E; inversion E; auto].
Qed.

Lemma str_mem_In (x : str) (xs : list str) : str_mem x xs = true <-> In x xs.
Proof.
  unfold str_mem. rewrite existsb_exists. split.
  - intros (y & Hy & E). apply str_eqb_eq in E. now subst.
  - intros H. exists x. split; [exact H | now apply str_eqb_eq].
Qed.

Lemma of_int_nonneg (z : Z) : (0 <= z)%Z -> 0 <= of_int z.
Proof.
  intros H. unfold of_int. change 0 with (inject_Z 0).
  now rewrite <- Zle_Qle.
Qed.

Lemma of_int_pos (z : Z) : (0 < z)%Z -> 0 < of_int z.
Proof.
  intros H. unfold of_int. change 0 with (inject_Z 0).
  now rewrite <- Zlt_Qlt.
Qed.

Lemma Qdiv_nonneg (a b : Q) : 0 <= a -> 0 < b -> 0 <= a / b.
Proof. intros Ha Hb. apply Qle_shift_div_l; [exact Hb | lra]. Qed.

(** [int(a / b)] on non-negative integers is the integer quotient. *)
Lemma py_int_quotient (a b : Z) :
  (0 <= a)%Z -> (0 < b)%Z -> py_int (of_int a / of_int b) = (a / b)%Z.
Proof.
  intros Ha Hb. unfold py_int.
  cases_Qltb (of_int a / of_int b) 0.
  - pose proof (Qdiv_nonneg (of_int_nonneg Ha) (of_int_pos Hb)). lra.
  - unfold of_int. symmetry. apply Zdiv_Qdiv.
Qed.

Lemma len_nonneg {A : Type} (l : list A) : (0 <= len l)%Z.
Proof. unfold len. lia. Qed.

(** The coverage that [jd_compare] computes, as an integer quotient. *)
Lemma coverage_value (U : unicode_tables) (canon : list str) (c : cp)
    (jd : str) (skills : list str) :
  coverage_pct (jd_compare U canon (c :: jd) skills)
  = Some (100 * len (jd_matched U (c :: jd) skills)
          / Z.max 1 (len (jd_matched U (c :: jd) skills)
                     + len (jd_missing U canon (c :: jd) skills)))%Z.
Proof.
  unfold jd_compare, coverage_pct. f_equal.
  apply py_int_quotient.
  - pose proof (len_nonneg (jd_matched U (c :: jd) skills)). lia.
  - lia.
Qed.

(** C2, as the code has it.  For a non-empty job description the coverage
    is the integer part of [100 * |matched| / max(1, |matched| + |missing|)]
    ([int] truncates; it does not round), a percentage from 0 to 100;
    [matched] are the detected skills whose normal form is a token of the
    job description, [missing] the canonical skills that are no normal form
    of a detected skill and are a token of the job description; with both
    lists empty the coverage is 0. *)
Theorem C2_coverage_truncated (U : unicode_tables) (canon : list str)
    (c : cp) (jd : str) (skills : list str) :
  let r := jd_compare U canon (c :: jd) skills in
  let matched := jd_matched U (c :: jd) skills in
  let missing := jd_missing U canon (c :: jd) skills in
  let quotient :=
    (100 * len matched / Z.max 1 (len matched + len missing))%Z in
  coverage_pct r = Some quotient
  /\ (0 <= quotient <= 100)%Z
  /\ matched_keywords r = matched
  /\ (forall s, In s matched <->
        In s skills /\ In (normalize_token U s) (jd_tokens U (c :: jd)))
  /\ (forall s, In s missing <->
        In s canon /\ ~ In s (List.map (normalize_token U) skills)
        /\ In s (jd_tokens U (c :: jd)))
  /\ (matched = [] -> missing = [] -> coverage_pct r = Some 0%Z).
Proof.
  cbv zeta.
  pose proof (len_nonneg (jd_matched U (c :: jd) skills)) as Hm.
  pose proof (len_nonneg (jd_missing U canon (c :: jd) skills)) as Hn.
  refine (conj (coverage_value U canon c jd skills)
            (conj _ (conj eq_refl (conj _ (conj _ _))))).
  - split.
    + apply Z.div_pos; lia.
    + apply Z.div_le_upper_bound; lia.
  - intros s. unfold jd_matched. rewrite filter_In, str_mem_In. tauto.
  - intros s. unfold jd_missing.
    rewrite filter_In, andb_true_iff, negb_true_iff, !str_mem_In.
    rewrite <- not_true_iff_false, str_mem_In. tauto.
  - intros E1 E2. rewrite coverage_value, E1, E2. reflexivity.
Qed.

(** The scenario of the specification: "docker" and "airflow" asked for,
    "docker" detected. *)
Lemma C2_coverage_witness :
  let r := jd_compare ascii_tables canon_literal (lit "docker airflow")
             [lit "docker"] in
  coverage_pct r = Some 50%Z
  /\ matched_keywords r = [lit "docker"]
  /\ In (lit "airflow") (missing_skills r)
  /\ coverage_pct (jd_compare ascii_tables canon_literal (lit "x") [])
     = Some 0%Z.
Proof.
  cbv zeta.
  destruct (C2_coverage_truncated ascii_tables canon_literal 100
              (lit "ocker airflow") [lit "docker"])
    as (Hcov & _ & Hmat & _ & _ & _).
  destruct (C2_coverage_truncated ascii_tables canon_literal 120 [] [])
    as (_ & _ & _ & _ & _ & Hzero).
  split; [exact Hcov|].
  split; [exact Hmat|].
  split; [vm_compute; tauto|].
  apply Hzero; reflexivity.
Defined.

(** C2, as the specification words it, fails: two of three asked skills
    give 66, and rounding the quotient would give 67. *)
Lemma C2_coverage_not_rounded :
  let jd := lit "python sql docker" in
  let skills := [lit "python"; lit "sql"] in
  let r := jd_compare ascii_tables canon_literal jd skills in
  coverage_pct r = Some 66%Z
  /\ coverage_rounded (jd_matched ascii_tables jd skills)
       (jd_missing ascii_tables canon_literal jd skills) = 67%Z
  /\ coverage_pct r
     <> Some (coverage_rounded (jd_matched ascii_tables jd skills)
                (jd_missing ascii_tables canon_literal jd skills)).
Proof.
  cbv zeta. split; [reflexivity|]. split; [reflexivity|].
  vm_compute. discriminate.
Qed.

(** C9.  For a non-empty job description [missing_skills] is the first 8
    missing canonical skills and [recommendations] is the template applied
    to the first 5 of them, in order; with more than 5 missing skills the
    list of missing skills is longer than the list of recommendations. *)
Theorem C9_missing_and_recommendations (U : unicode_tables)
    (canon : list str) (c : cp) (jd : str) (skills : list str) :
  let r := jd_compare U canon (c :: jd) skills in
  let missing := jd_missing U canon (c :: jd) skills in
  missing_skills r = firstn 8 missing
  /\ (List.length (missing_skills r) <= 8)%nat
  /\ recommendations r = List.map recommendation (firstn 5 (missing_skills r))
  /\ recommendations r = List.map recommendation (firstn 5 missing)
  /\ (List.length (recommendations r) <= 5)%nat
  /\ ((5 < List.length missing)%nat ->
      (List.length (recommendations r) < List.length (missing_skills r))%nat).
Proof.
  cbv zeta. unfold jd_compare, missing_skills, recommendations.
  set (missing := jd_missing U canon (c :: jd) skills).
  refine (conj eq_refl (conj _ (conj _ (conj eq_refl (conj _ _))))).
  - rewrite length_firstn. lia.
  - rewrite firstn_firstn. reflexivity.
  - rewrite length_map, length_firstn. lia.
  - intros H. rewrite length_map, !length_firstn. lia.
Qed.

(** Six canonical skills asked for and none detected: six listed as
    missing, five recommendations. *)
Lemma C9_missing_and_recommendations_witness :
  let r := jd_compare ascii_tables canon_literal
             (lit "python sql powerbi docker airflow react") [] in
  List.length (missing_skills r) = 6%nat
  /\ List.length (recommendations r) = 5%nat
  /\ (List.length (recommendations r) < List.length (missing_skills r))%nat.
Proof.
  cbv zeta.
  destruct (C9_missing_and_recommendations ascii_tables canon_literal 112
              (lit "ython sql powerbi docker airflow react") [])
    as (_ & _ & _ & _ & _ & Hmore).
  split; [reflexivity|]. split; [reflexivity|].
  apply Hmore. vm_compute. lia.
Defined.

(** ** The bullet score *)

Lemma max_1_len_cons {A : Type} (b : A) (bl : list A) :
  Z.max 1 (len (b :: bl)) = len (b :: bl).
Proof. unfold len. simpl List.length. lia. Qed.

(** Dividing a capped, rounded score by 3.0 and multiplying it by 3.0
    again changes nothing, and neither does rounding it once more. *)
Lemma scale_round_trip (x : Q) :
  round2 (py_min 3.0 (round2 x) / 3.0 * 3.0) == py_min 3.0 (round2 x).
Proof.
  assert (Htd : two_decimals (py_min 3.0 (round2 x))).
  { apply two_decimals_py_min.
    - exists 300%Z. reflexivity.
    - apply two_decimals_round2. }
  destruct Htd as [k Hk].
  assert (Hs : py_min 3.0 (round2 x) / 3.0 * 3.0 == hundredths k).
  { rewrite <- Hk. field. }
  rewrite (round2_hundredths Hs). now symmetry.
Qed.

Lemma score_bullets_cons (U : unicode_tables) (b : str) (bl : list str)
    (ont : ontology) :
  score (score_bullets U (b :: bl) ont)
  == score_bullets_simplified (count_hits U (b :: bl) ont) (len (b :: bl)).
Proof.
  unfold score_bullets, score. rewrite max_1_len_cons.
  apply scale_round_trip.
Qed.

(** C3.  For a non-empty list of [n] bullets the score is
    [min(3.0, round((0.8*a/n + 1.2*m/n + 1.0*t/n) * 3.0, 2))], the value of
    the scorer with a single cap: the division by 3.0, the multiplication
    by 3.0 and the second rounding of the implementation change nothing in
    exact arithmetic. *)
Theorem C3_bullet_score_single_cap (U : unicode_tables) (b : str)
    (bl : list str) (ont : ontology) :
  let bullets_list := b :: bl in
  let h := count_hits U bullets_list ont in
  let n := len bullets_list in
  let a := of_int (action_hits h) in
  let m := of_int (metric_hits h) in
  let t := of_int (tech_hits h) in
  score (score_bullets U bullets_list ont)
  == py_min 3.0
       (round2 ((0.8 * (a / of_int n) + 1.2 * (m / of_int n)
                 + 1.0 * (t / of_int n)) * 3.0))
  /\ score (score_bullets U bullets_list ont) == score_bullets_simplified h n
  /\ py_min 3.0 (round2 (composite h n * 3.0)) / 3.0 * 3.0
     == py_min 3.0 (round2 (composite h n * 3.0)).
Proof.
  cbv zeta.
  pose proof (score_bullets_cons U b bl ont) as Hs.
  split; [exact Hs|]. split; [exact Hs|]. field.
Qed.

(** ** Header lines *)

Lemma find_first {A : Type} (f : A -> bool) (l : list A) :
  forall (i : nat) (h : A),
    nth_error l i = Some h ->
    f h = true ->
    (forall j h', (j < i)%nat -> nth_error l j = Some h' -> f h' = false) ->
    find f l = Some h.
Proof.
  induction l as [|x l IH]; intros i h Hnth Hf Hbefore.
  - destruct i; discriminate.
  - destruct i as [|i]; simpl in Hnth |- *.
    + injection Hnth as ->. now rewrite Hf.
    + rewrite (Hbefore 0%nat x (Nat.lt_0_succ i) eq_refl).
      apply (IH i h Hnth Hf).
      intros j h' Hj Hn. apply (Hbefore (S j) h'); [lia | exact Hn].
Qed.

Lemma segment_loop_app (U : unicode_tables) (pre post : list str)
    (st : str * section_lines) :
  segment_loop U (pre ++ post) st = segment_loop U post (segment_loop U pre st).
Proof. unfold segment_loop. apply fold_left_app. Qed.

(** C10.  A line of at most 40 characters that contains several header
    hints switches the current section to the one that comes first in
    [HEADER_HINTS], and the line is not added to any section: the sections
    after the line are the sections before it. *)
Theorem C10_first_hint_wins (U : unicode_tables) (ln : str) (i : nat)
    (h : str) (pre post : list str) (st : str * section_lines)
    (Hlen : (len ln <= 40)%Z)
    (Hnth : nth_error HEADER_HINTS i = Some h)
    (Hin : contains h (lower U ln) = true)
    (Hfirst : forall j h', (j < i)%nat ->
                nth_error HEADER_HINTS j = Some h' ->
                contains h' (lower U ln) = false) :
  match_header U ln = Some h
  /\ segment_step U st ln = (h, snd st)
  /\ segment_loop U (pre ++ ln :: post) st
     = segment_loop U post (h, snd (segment_loop U pre st)).
Proof.
  assert (Hm : match_header U ln = Some h).
  { unfold match_header. apply find_first with (i := i).
    - exact Hnth.
    - rewrite Hin. simpl. now apply Z.leb_le.
    - intros j h' Hj Hn. now rewrite (Hfirst j h' Hj Hn). }
  assert (Hstep : forall s, segment_step U s ln = (h, snd s)).
  { intros s. unfold segment_step. now rewrite Hm. }
  refine (conj Hm (conj (Hstep st) _)).
  rewrite segment_loop_app. unfold segment_loop at 1. simpl fold_left.
  rewrite Hstep. reflexivity.
Qed.

(** "Work Experience" holds both "work" and "experience" and opens the
    section "experience"; "Skills Summary" opens "skills". *)
Lemma C10_first_hint_wins_witness :
  let st := (lit "summary", sections_init) in
  contains (lit "work") (lower ascii_tables (lit "Work Experience")) = true
  /\ segment_step ascii_tables st (lit "Work Experience")
     = (lit "experience", sections_init)
  /\ lit "experience" <> lit "work"
  /\ segment_step ascii_tables st (lit "Skills Summary")
     = (lit "skills", sections_init)
  /\ snd (segment_loop ascii_tables
            [lit "Jane Doe"; lit "Work Experience"; lit "Built things"] st)
     = section_append (lit "experience") (lit "Built things")
         (section_append (lit "summary") (lit "Jane Doe") sections_init)
  /\ detect_sections ascii_tables
       (lit "Jane Doe" ++ [NL] ++ lit "Work Experience" ++ [NL]
        ++ lit "Built things")
     = [(lit "experience", lit "Built things");
        (lit "summary", lit "Jane Doe")].
Proof.
  intros st.
  assert (H40a : (len (lit "Work Experience") <= 40)%Z)
    by (vm_compute; discriminate).
  assert (H40b : (len (lit "Skills Summary") <= 40)%Z)
    by (vm_compute; discriminate).
  assert (Hfa : forall j h', (j < 0)%nat ->
            nth_error HEADER_HINTS j = Some h' ->
            contains h' (lower ascii_tables (lit "Work Experience")) = false)
    by (intros j h' Hj; lia).
  assert (Hfb : forall j h', (j < 4)%nat ->
            nth_error HEADER_HINTS j = Some h' ->
            contains h' (lower ascii_tables (lit "Skills Summary")) = false).
  { intros j h' Hj Hn.
    destruct j as [|[|[|[|j]]]]; try lia;
      injection Hn as <-; reflexivity. }
  destruct (@C10_first_hint_wins ascii_tables (lit "Work Experience") 0%nat
              (lit "experience") [lit "Jane Doe"] [lit "Built things"] st
              H40a eq_refl eq_refl Hfa) as (_ & Hstep_a & Hloop_a).
  destruct (@C10_first_hint_wins ascii_tables (lit "Skills Summary") 4%nat
              (lit "skills") [] [] st H40b eq_refl eq_refl Hfb)
    as (_ & Hstep_b & _).
  split; [reflexivity|].
  split; [exact Hstep_a|].
  split; [discriminate|].
  split; [exact Hstep_b|].
  split; [|reflexivity].
  simpl app in Hloop_a. rewrite Hloop_a. reflexivity.
Defined.

(** ** Quantified impact *)

(** The scenario of the specification: the line with its marker gives one
    bullet without it, [METRIC_RE] finds "40%" in it, and the bullet counts
    as an action hit when "built" is an action verb of the ontology. *)
Lemma built_dashboard_scenario (U : unicode_tables) (ont : ontology) :
  let line := lit "- Built a dashboard reducing load time by 40%" in
  let b := lit "Built a dashboard reducing load time by 40%" in
  bullets U line = [b]
  /\ option_map group0 (re_search U (METRIC_RE U) b) = Some (lit "40%")
  /\ metric_hits (count_hits U [b] ont) = 1%Z
  /\ (In (lit "built") (get_or (ont_action_verbs ont) []) ->
      action_hits (count_hits U [b] ont) = 1%Z).
Proof.
  cbv zeta. split; [reflexivity|]. split; [reflexivity|].
  split; [reflexivity|].
  intros Hin. apply str_mem_In in Hin.
  unfold count_hits. simpl fold_left. unfold count_step.
  change (split_ws (lit "Built a dashboard reducing load time by 40%"))
    with [lit "Built"; lit "a"; lit "dashboard"; lit "reducing"; lit "load";
          lit "time"; lit "by"; lit "40%"].
  cbn [action_hits].
  change (lower U (lit "Built")) with (lit "built").
  rewrite Hin. reflexivity.
Qed.

(** C6 at an input the code mishandles.  "120ms", "2x" and "10k" are
    integers followed by a unit, yet [METRIC_RE] asks for a word boundary
    between the digits and the unit and finds nothing: such bullets are not
    counted in [metric_hits].  With white space in between they are. *)
Theorem C6_adjacent_unit_not_counted (U : unicode_tables) (ont : ontology) :
  let b := lit "Reduced latency by 120ms" in
  bullets U (lit "- Reduced latency by 120ms") = [b]
  /\ quantified_impact U b = true
  /\ has_metric U b = false
  /\ metric_hits (count_hits U [b] ont) = 0%Z
  /\ metric_hits
       (count_hits U [lit "Improved throughput 2x"; lit "Served 10k users"]
          ont) = 0%Z
  /\ quantified_impact U (lit "Improved throughput 2x") = true
  /\ quantified_impact U (lit "Served 10k users") = true
  /\ has_metric U (lit "Reduced latency by 120 ms") = true.
Proof.
  cbv zeta. repeat split; reflexivity.
Qed.

(** ** The bounds of the subscores *)

Lemma bump_nonneg (c : bool) (n : Z) : (0 <= n)%Z -> (0 <= bump c n)%Z.
Proof. unfold bump. destruct c; lia. Qed.

Lemma count_step_nonneg (U : unicode_tables) (verbs : list str)
    (h : hit_counts) (b : str) :
  hits_nonneg h -> hits_nonneg (count_step U verbs h b).
Proof.
  intros (Ha & Hm & Ht). unfold count_step.
  destruct (split_ws b); [now repeat split|].
  repeat split; simpl; now apply bump_nonneg.
Qed.

Lemma count_hits_nonneg (U : unicode_tables) (bl : list str)
    (ont : ontology) : hits_nonneg (count_hits U bl ont).
Proof.
  unfold count_hits.
  set (h0 := {| action_hits := 0; metric_hits := 0; tech_hits := 0 |}).
  assert (H0 : hits_nonneg h0) by (repeat split; simpl; lia).
  revert H0. generalize h0. clear h0.
  induction bl as [|b bl IH]; intros h Hh; simpl.
  - exact Hh.
  - apply IH. now apply count_step_nonneg.
Qed.

Lemma composite_nonneg (h : hit_counts) (n : Z) :
  hits_nonneg h -> (0 < n)%Z -> 0 <= composite h n.
Proof.
  intros (Ha & Hm & Ht) Hn. unfold composite.
  pose proof (Qdiv_nonneg (of_int_nonneg Ha) (of_int_pos Hn)).
  pose proof (Qdiv_nonneg (of_int_nonneg Hm) (of_int_pos Hn)).
  pose proof (Qdiv_nonneg (of_int_nonneg Ht) (of_int_pos Hn)).
  lra.
Qed.

Lemma two_decimals_zero : two_decimals 0.0.
Proof. exists 0%Z. reflexivity. Qed.

Lemma score_bullets_range (U : unicode_tables) (bl : list str)
    (ont : ontology) :
  0 <= score (score_bullets U bl ont) <= 3.0
  /\ two_decimals (score (score_bullets U bl ont)).
Proof.
  destruct bl as [|b bl].
  - simpl. split; [split; discriminate | apply two_decimals_zero].
  - pose proof (score_bullets_cons U b bl ont) as Hs.
    split.
    + rewrite Hs. unfold score_bullets_simplified. split.
      * apply py_min_ge; [discriminate|]. apply round2_ge0.
        assert (0 <= composite (count_hits U (b :: bl) ont) (len (b :: bl))).
        { apply composite_nonneg; [apply count_hits_nonneg|].
          unfold len. simpl List.length. lia. }
        lra.
      * apply py_min_le_l.
    + unfold score_bullets, score. apply two_decimals_round2.
Qed.

Lemma py_max_zero_nonneg (x : Q) : 0 <= py_max 0.0 x.
Proof.
  apply Qle_trans with 0.0; [discriminate | apply py_max_ge_l].
Qed.

Lemma readability_score_nonneg (fk : str -> option Q) (text : str) :
  0 <= readability_score fk text.
Proof.
  unfold readability_score. destruct (fk text) as [grade|]; [|discriminate].
  destruct (Qle_bool 10 grade && Qle_bool grade 12); [discriminate|].
  apply py_max_zero_nonneg.
Qed.

Lemma concision_bonus_nonneg (U : unicode_tables) (text : str) :
  0 <= concision_bonus U text.
Proof.
  unfold concision_bonus. destruct (bullets U text); [discriminate|].
  apply py_max_zero_nonneg.
Qed.

Lemma tense_consistency_range (U : unicode_tables) (text : str) :
  0.2 <= tense_consistency U text <= 0.5.
Proof.
  unfold tense_consistency.
  set (past := re_count U (word_ending U "ed") (lower U text)).
  set (present := re_count U (word_ending U "ing") (lower U text)).
  assert (Hp : (0 <= past)%Z) by apply len_nonneg.
  assert (Hq : (0 <= present)%Z) by apply len_nonneg.
  assert (Htot : 0 < of_int (past + present + 1)) by (apply of_int_pos; lia).
  assert (Hmin : 0 <= of_int (Z.min past present))
    by (apply of_int_nonneg; lia).
  assert (Hle : of_int (Z.min past present) <= of_int (past + present + 1)).
  { unfold of_int. rewrite <- Zle_Qle. lia. }
  assert (H0 : 0 <= of_int (Z.min past present) / of_int (past + present + 1))
    by now apply Qdiv_nonneg.
  assert (H1 : of_int (Z.min past present) / of_int (past + present + 1) <= 1).
  { apply Qle_shift_div_r; [exact Htot | lra]. }
  split; lra.
Qed.

Lemma structure_ats_range (U : unicode_tables) (text : str) :
  0 <= fst (structure_ats U text)
  /\ two_decimals (fst (structure_ats U text)).
Proof.
  unfold structure_ats, fst. split.
  - apply py_max_zero_nonneg.
  - apply two_decimals_py_max;
      [apply two_decimals_zero | apply two_decimals_round2].
Qed.

Lemma add_if_nonneg (c : bool) (amount s : Q) :
  0 <= amount -> 0 <= s -> 0 <= add_if c amount s.
Proof. intros. unfold add_if. destruct c; lra. Qed.

Lemma projects_evidence_range (U : unicode_tables) (sec_text : str) :
  0 <= projects_evidence U sec_text
  /\ two_decimals (projects_evidence U sec_text).
Proof.
  unfold projects_evidence. split.
  - apply py_min_ge; [discriminate|]. apply round2_ge0.
    repeat apply add_if_nonneg; discriminate.
  - apply two_decimals_py_min;
      [exists 100%Z; reflexivity | apply two_decimals_round2].
Qed.

Lemma hygiene_range (U : unicode_tables) (text : str) :
  0 <= hygiene U text /\ two_decimals (hygiene U text).
Proof.
  unfold hygiene. split.
  - apply py_max_zero_nonneg.
  - apply two_decimals_py_max;
      [apply two_decimals_zero | apply two_decimals_round2].
Qed.

Lemma keyword_alignment_range (skills : list str) :
  0 <= keyword_alignment skills <= 2.0
  /\ two_decimals (keyword_alignment skills).
Proof.
  split.
  - rewrite keyword_alignment_value.
    assert (H0 : 0 <= of_int (Z.min 10 (len skills))).
    { apply of_int_nonneg. unfold len. lia. }
    assert (H1 : of_int (Z.min 10 (len skills)) <= 10).
    { unfold of_int. change 10 with (inject_Z 10). rewrite <- Zle_Qle. lia. }
    split; lra.
  - unfold keyword_alignment. apply two_decimals_py_min;
      [exists 200%Z; reflexivity | apply two_decimals_round2].
Qed.

(** A capped subscore: within its bound and with two decimals. *)
Lemma capped_range (cap x : Q) :
  0 <= cap -> two_decimals cap -> 0 <= x -> two_decimals x ->
  0 <= py_min cap x <= cap /\ two_decimals (py_min cap x).
Proof.
  intros Hcap Htc Hx Htx. split; [split|].
  - now apply py_min_ge.
  - apply py_min_le_l.
  - now apply two_decimals_py_min.
Qed.

Lemma two_decimals_plus (x y : Q) :
  two_decimals x -> two_decimals y -> two_decimals (x + y).
Proof.
  intros [k Hk] [j Hj]. exists (k + j)%Z. rewrite Hk, Hj.
  unfold hundredths, Qeq, Qplus. cbn [Qnum Qden]. lia.
Qed.

Lemma round2_comp (x y : Q) :
  two_decimals x -> x == y -> round2 x = round2 y.
Proof.
  intros [k Hk] Hxy. rewrite (round2_hundredths Hk).
  symmetry. apply round2_hundredths. now rewrite <- Hxy.
Qed.

(** The six values of [rubric]: each within its bound, with two decimals. *)
Lemma rubric_range (U : unicode_tables) (pr : str -> str -> Q)
    (fk : str -> option Q) (text : str) (ont : ontology) :
  let s := rubric U pr fk text ont in
  (0 <= sub_impact_bullets s <= 3.0 /\ two_decimals (sub_impact_bullets s))
  /\ (0 <= sub_skill_alignment s <= 2.0
      /\ two_decimals (sub_skill_alignment s))
  /\ (0 <= sub_clarity_tone s <= 2.0 /\ two_decimals (sub_clarity_tone s))
  /\ (0 <= sub_structure_ats s <= 1.5 /\ two_decimals (sub_structure_ats s))
  /\ (0 <= sub_projects s <= 1.0 /\ two_decimals (sub_projects s))
  /\ (0 <= sub_hygiene s <= 0.5 /\ two_decimals (sub_hygiene s)).
Proof.
  cbv zeta. unfold rubric.
  cbn [sub_impact_bullets sub_skill_alignment sub_clarity_tone
       sub_structure_ats sub_projects sub_hygiene].
  repeat apply conj.
  1,2,3: apply capped_range;
    [discriminate | exists 300%Z; reflexivity
    | apply score_bullets_range | apply score_bullets_range].
  1,2,3: apply keyword_alignment_range.
  1,2,3: apply capped_range;
    [discriminate | exists 200%Z; reflexivity | | apply two_decimals_round2];
    apply round2_ge0;
    pose proof (readability_score_nonneg fk text);
    pose proof (concision_bonus_nonneg U text);
    pose proof (tense_consistency_range U text); lra.
  1,2,3: apply capped_range;
    [discriminate | exists 150%Z; reflexivity
    | apply structure_ats_range | apply structure_ats_range].
  1,2,3: apply capped_range;
    [discriminate | exists 100%Z; reflexivity
    | apply projects_evidence_range | apply projects_evidence_range].
  1,2,3: apply capped_range;
    [discriminate | exists 50%Z; reflexivity
    | apply hygiene_range | apply hygiene_range].
Qed.

(** C1.  In every response of [analyze] the overall score is the sum of
    the six subscores of the response, rounded to two decimals; it lies
    between 0 and 10.0, and each subscore lies between 0 and its bound:
    3.0, 2.0, 2.0, 1.5, 1.0 and 0.5.  The six subscores are the values of
    the sub-scorers under the caps of [analyze]. *)
Theorem C1_scores_bounded
    (U : unicode_tables) (pr : str -> str -> Q) (fk : str -> option Q)
    (canon : list str) (text : str) (ont : ontology)
    (role jd : option str) :
  let r := analyze U pr fk canon text ont role jd in
  let s := subscores r in
  let sections := detect_sections U text in
  let blts := bullets U (sections_get sections (lit "experience") ++ [NL]
                         ++ sections_get sections (lit "projects")) in
  let skills := extract_skills U pr text ont in
  overall_score r
  = round2 (sub_impact_bullets s + sub_skill_alignment s
            + sub_clarity_tone s + sub_structure_ats s
            + sub_projects s + sub_hygiene s)
  /\ 0 <= overall_score r <= 10.0
  /\ (0 <= sub_impact_bullets s <= 3.0
      /\ 0 <= sub_skill_alignment s <= 2.0
      /\ 0 <= sub_clarity_tone s <= 2.0
      /\ 0 <= sub_structure_ats s <= 1.5
      /\ 0 <= sub_projects s <= 1.0
      /\ 0 <= sub_hygiene s <= 0.5)
  /\ sub_impact_bullets s == py_min 3.0 (score (score_bullets U blts ont))
  /\ sub_skill_alignment s
     == py_min 2.0 (round2 (2.0 * of_int (len (firstn 10 skills)) / 10))
  /\ sub_clarity_tone s
     == py_min 2.0 (round2 (readability_score fk text
                            + concision_bonus U text
                            + tense_consistency U text))
  /\ sub_structure_ats s == py_min 1.5 (fst (structure_ats U text))
  /\ sub_projects s
     == py_min 1.0
          (projects_evidence U (sections_get sections (lit "projects")))
  /\ sub_hygiene s == py_min 0.5 (hygiene U text).
Proof.
  cbv zeta. unfold analyze. cbn [overall_score subscores].
  pose proof (rubric_range U pr fk text ont) as H. cbv zeta in H.
  assert (Es : rubric U pr fk text ont = rubric U pr fk text ont)
    by reflexivity.
  set (s := rubric U pr fk text ont) in H, Es at 1 |- *.
  destruct H as ((B1 & T1) & (B2 & T2) & (B3 & T3) & (B4 & T4)
                 & (B5 & T5) & (B6 & T6)).
  pose proof (round2_two_decimals T1) as R1.
  pose proof (round2_two_decimals T2) as R2.
  pose proof (round2_two_decimals T3) as R3.
  pose proof (round2_two_decimals T4) as R4.
  pose proof (round2_two_decimals T5) as R5.
  pose proof (round2_two_decimals T6) as R6.
  assert (Ttot : two_decimals (subscore_total s)).
  { unfold subscore_total. repeat apply two_decimals_plus; assumption. }
  assert (Etot : subscore_total s == subscore_total (round_subscores s)).
  { unfold subscore_total, round_subscores.
    cbn [sub_impact_bullets sub_skill_alignment sub_clarity_tone
         sub_structure_ats sub_projects sub_hygiene].
    rewrite R1, R2, R3, R4, R5, R6. reflexivity. }
  pose proof (round2_two_decimals Ttot) as Rtot.
  refine (conj _ (conj _ (conj _ _))).
  - exact (round2_comp Ttot Etot).
  - rewrite Rtot. unfold subscore_total. split; lra.
  - unfold round_subscores.
    cbn [sub_impact_bullets sub_skill_alignment sub_clarity_tone
         sub_structure_ats sub_projects sub_hygiene].
    rewrite R1, R2, R3, R4, R5, R6.
    exact (conj B1 (conj B2 (conj B3 (conj B4 (conj B5 B6))))).
  - unfold round_subscores.
    cbn [sub_impact_bullets sub_skill_alignment sub_clarity_tone
         sub_structure_ats sub_projects sub_hygiene].
    rewrite R1, R2, R3, R4, R5, R6. rewrite Es.
    unfold rubric, keyword_alignment.
    cbn [sub_impact_bullets sub_skill_alignment sub_clarity_tone
         sub_structure_ats sub_projects sub_hygiene].
    repeat split; reflexivity.
Qed.

(** ** The scores on IEEE 754 doubles *)

Module Binary64Facts.

Import Binary64.

(** The literals are the doubles of Python: 0.8 is 0x3FE999999999999A. *)
Lemma decimal_0_8 : decimal 8 10 = S754_finite false 7205759403792794 (-53).
Proof. reflexivity. Qed.

(** Dividing by 3.0 and multiplying by 3.0 does change some doubles (0.21
    is one), but the rounding that follows restores every capped score:
    on doubles too, [score_bullets] returns [min(3.0, r)]. *)
Lemma round_trip_on_doubles :
  SFeqb (mul (div (decimal 21 100) (decimal 30 10)) (decimal 30 10))
    (decimal 21 100) = false
  /\ forallb (fun k => SFeqb (score_tail (decimal k 100))
                         (py_min (decimal 30 10) (decimal k 100)))
       (upto 400) = true.
Proof. split; vm_compute; reflexivity. Qed.

(** The skill alignment on doubles: 0.0, 0.2, ..., 2.0 for 0 to 10 skills. *)
Lemma keyword_alignment_on_doubles :
  List.map keyword_alignment (upto 11)
  = List.map (fun n => decimal (2 * n) 10) (upto 11).
Proof. vm_compute. reflexivity. Qed.

(** Structure/ATS on doubles: for each of the 16 cases the double nearest
    to 1.5 minus the penalties taken; 1.1 in the case of the scenario. *)
Lemma structure_ats_on_doubles :
  forallb (fun p1 => forallb (fun p2 => forallb (fun p3 => forallb (fun p4 =>
    SFeqb (structure_ats_score p1 p2 p3 p4)
      (decimal (150 - (if p1 then 40 else 0) - (if p2 then 30 else 0)
                - (if p3 then 30 else 0) - (if p4 then 30 else 0)) 100))
    all_bools) all_bools) all_bools) all_bools = true
  /\ structure_ats_score true false false false = decimal 11 10.
Proof. split; vm_compute; reflexivity. Qed.

(** Hygiene on doubles: never below zero, and 0.0 when all three
    penalties apply (the empty text). *)
Lemma hygiene_on_doubles :
  forallb (fun c1 => forallb (fun c2 => forallb (fun c3 =>
    SFeqb (hygiene_score c1 c2 c3)
      (decimal (50 - (if c1 then 20 else 0) - (if c2 then 10 else 0)
                - (if c3 then 20 else 0)) 100))
    all_bools) all_bools) all_bools = true
  /\ hygiene_score true true true = decimal 0 10.
Proof. split; vm_compute; reflexivity. Qed.

End Binary64Facts.

(** Where the two readings differ.  One bullet with a metric and one with
    a technology among eight give the composite 0.275 and three times
    that, 0.825: a tie that the rationals round to 0.82, while the doubles
    of the source yield 0.8250000000000001 and 0.83.  Likewise a clarity
    sum of 0.8 + 0.7 + 0.425 is 1.92 on the rationals and 1.93 on the
    doubles.  The ranges proved for the scores hold for both. *)
Lemma third_decimal_ties :
  round2 (composite {| action_hits := 0; metric_hits := 1;
                       tech_hits := 1 |} 8 * 3.0) == 0.82
  /\ Binary64.composite_rounded 0 1 1 8 = Binary64.decimal 83 100
  /\ py_min 2.0 (round2 (0.8 + 0.7 + (0.2 + 0.3 * (1 - of_int 1 / of_int 4))))
     == 1.92
  /\ Binary64.clarity_tone (Binary64.decimal 8 10) (Binary64.decimal 7 10)
       1 2
     = Binary64.decimal 193 100.
Proof. repeat split; vm_compute; reflexivity. Qed.

(** * Further properties of the code *)

(** ** The order of the detected skills *)

Lemma str_ltb_irrefl (a : str) : str_ltb a a = false.
Proof.
  induction a as [|x a IH]; simpl; [reflexivity|].
  rewrite N.ltb_irrefl, cp_eqb_refl, IH. reflexivity.
Qed.

Lemma str_ltb_trans (a b c : str) :
  str_ltb a b = true -> str_ltb b c = true -> str_ltb a c = true.
Proof.
  revert b c. induction a as [|x a IH]; intros [|y b] [|z c]; simpl;
    try discriminate; try reflexivity.
  unfold cp_eqb. intros H1 H2.
  apply orb_true_iff in H1. apply orb_true_iff in H2.
  apply orb_true_iff.
  destruct H1 as [H1|H1]; destruct H2 as [H2|H2].
  - left. apply N.ltb_lt in H1, H2. apply N.ltb_lt. lia.
  - apply andb_true_iff in H2. destruct H2 as [E _].
    apply N.eqb_eq in E. subst. now left.
  - apply andb_true_iff in H1. destruct H1 as [E _].
    apply N.eqb_eq in E. subst. now left.
  - apply andb_true_iff in H1. destruct H1 as [E1 L1].
    apply andb_true_iff in H2. destruct H2 as [E2 L2].
    apply N.eqb_eq in E1, E2. subst. right.
    rewrite N.eqb_refl. simpl. now apply IH with b.
Qed.

Lemma str_ltb_total (a b : str) :
  str_eqb a b = false -> str_ltb a b = false -> str_ltb b a = true.
Proof.
  revert b. induction a as [|x a IH]; intros [|y b]; simpl;
    try discriminate; try reflexivity.
  unfold cp_eqb. intros He Hl.
  apply orb_false_iff in Hl. destruct Hl as [Hxy Hl].
  apply N.ltb_ge in Hxy.
  destruct (N.eqb x y) eqn:E.
  - apply N.eqb_eq in E. subst y. simpl in He, Hl.
    rewrite N.ltb_irrefl, N.eqb_refl. simpl. now apply IH.
  - apply N.eqb_neq in E.
    assert (H : (y <? x)%N = true) by (apply N.ltb_lt; lia).
    now rewrite H.
Qed.

Lemma insert_sorted_In (x y : str) (l : list str) :
  In y (insert_sorted x l) <-> y = x \/ In y l.
Proof.
  induction l as [|z l IH]; simpl.
  - intuition.
  - destruct (str_eqb x z) eqn:E.
    + apply str_eqb_eq in E. subst z. simpl. intuition.
    + destruct (str_ltb x z); simpl; [intuition|].
      rewrite IH. intuition.
Qed.

Lemma insert_sorted_Sorted (x : str) (l : list str) :
  Sorted str_lt l -> Sorted str_lt (insert_sorted x l).
Proof.
  induction l as [|z l IH]; intros Hs; simpl.
  - repeat constructor.
  - destruct (str_eqb x z) eqn:E; [exact Hs|].
    destruct (str_ltb x z) eqn:L.
    + constructor; [exact Hs | constructor; exact L].
    + pose proof (str_ltb_total x z E L) as Hzx.
      inversion Hs as [|? ? Hs' Hhd]; subst.
      constructor; [now apply IH|].
      destruct l as [|w l]; simpl.
      * constructor. exact Hzx.
      * destruct (str_eqb x w); [exact Hhd|].
        destruct (str_ltb x w); [constructor; exact Hzx | ].
        inversion Hhd; subst. now constructor.
Qed.

Lemma sorted_set_In (x : str) (l : list str) :
  In x (sorted_set l) <-> In x l.
Proof.
  unfold sorted_set. induction l as [|y l IH]; simpl; [tauto|].
  rewrite insert_sorted_In, IH. intuition.
Qed.

Lemma sorted_set_Sorted (l : list str) : Sorted str_lt (sorted_set l).
Proof.
  unfold sorted_set. induction l as [|y l IH]; simpl.
  - constructor.
  - now apply insert_sorted_Sorted.
Qed.

Lemma str_lt_StronglySorted (l : list str) :
  Sorted str_lt l -> StronglySorted str_lt l.
Proof.
  apply Sorted_StronglySorted. intros a b c. apply str_ltb_trans.
Qed.

Lemma StronglySorted_NoDup (l : list str) :
  StronglySorted str_lt l -> NoDup l.
Proof.
  induction 1 as [|x l Hs IH Hall]; constructor; [|exact IH].
  intros Hin. rewrite Forall_forall in Hall.
  specialize (Hall x Hin). unfold str_lt in Hall.
  now rewrite str_ltb_irrefl in Hall.
Qed.

(** X1.  The detected skills come out in strictly increasing order of
    their code points, hence without duplicates: [len(skills)] is the
    number of distinct detected skills. *)
Theorem extract_skills_sorted (U : unicode_tables)
    (pr : str -> str -> Q) (text : str) (ont : ontology) :
  StronglySorted str_lt (extract_skills U pr text ont)
  /\ NoDup (extract_skills U pr text ont).
Proof.
  assert (H : StronglySorted str_lt (extract_skills U pr text ont)).
  { unfold extract_skills. apply str_lt_StronglySorted, sorted_set_Sorted. }
  split; [exact H | now apply StronglySorted_NoDup].
Qed.

(** X2.  A string is detected exactly when it is a synonym of some bucket
    of the ontology and either its normal form is a token of the text or
    the fuzzy score of its normal form against the normalized text is
    above 90; sorting and the set lose and add nothing. *)
Theorem extract_skills_spec (U : unicode_tables) (pr : str -> str -> Q)
    (text : str) (ont : ontology) (s : str) :
  In s (extract_skills U pr text ont)
  <-> (exists bucket, In bucket (get_or (ont_skills ont) [])
                      /\ In s (snd bucket))
      /\ (In (normalize_token U s)
            (List.map (normalize_token U) (split_nonword U (lower U text)))
          \/ 90 < pr (normalize_token U s) (normalize_token U text)).
Proof.
  unfold extract_skills. rewrite sorted_set_In, in_flat_map.
  set (tokens := List.map (normalize_token U)
                   (split_nonword U (lower U text))).
  assert (Hd : skill_detected U pr tokens (normalize_token U text) s = true
               <-> In (normalize_token U s) tokens
                   \/ 90 < pr (normalize_token U s) (normalize_token U text)).
  { unfold skill_detected.
    destruct (str_mem (normalize_token U s) tokens) eqn:E.
    - apply str_mem_In in E. tauto.
    - split.
      + intros H. right. now apply Qltb_true.
      + intros [H|H].
        * apply str_mem_In in H. congruence.
        * unfold Qltb. apply negb_true_iff.
          destruct (Qle_bool (pr (normalize_token U s)
                                (normalize_token U text)) 90) eqn:L;
            [|reflexivity].
          apply Qle_bool_iff in L. lra. }
  split.
  - intros (bucket & Hb & Hs). apply filter_In in Hs.
    destruct Hs as [Hs Hdet].
    split; [now exists bucket | now apply Hd].
  - intros [(bucket & Hb & Hs) H]. exists bucket.
    split; [exact Hb|]. apply filter_In. split; [exact Hs | now apply Hd].
Qed.

(** ** Normal forms of tokens *)

Lemma drop_while_head (p : cp -> bool) (s : str) :
  match drop_while p s with
  | [] => True
  | c :: _ => p c = false
  end.
Proof.
  induction s as [|c s IH]; simpl; [exact I|].
  destruct (p c) eqn:E; [exact IH | exact E].
Qed.

Lemma drop_while_fixed (p : cp -> bool) (c : cp) (s : str) :
  p c = false -> drop_while p (c :: s) = c :: s.
Proof. intros H. simpl. now rewrite H. Qed.

Lemma drop_while_suffix (p : cp -> bool) (s : str) :
  exists pre, s = pre ++ drop_while p s /\ forallb p pre = true.
Proof.
  induction s as [|c s (pre & E & Hp)]; simpl.
  - now exists [].
  - destruct (p c) eqn:Hc.
    + exists (c :: pre). simpl. rewrite Hc, Hp. split; [now f_equal|reflexivity].
    + now exists [].
Qed.

Lemma strip_trimmed (s : str) : trimmed (strip s).
Proof.
  unfold trimmed, strip.
  set (a := drop_while is_space s).
  set (b := drop_while is_space (rev a)).
  rewrite rev_involutive.
  assert (Hb : drop_while is_space b = b).
  { pose proof (drop_while_head is_space (rev a)) as H. fold b in H.
    destruct b as [|c t]; [reflexivity | now apply drop_while_fixed]. }
  split; [|exact Hb].
  destruct (drop_while_suffix is_space (rev a)) as (pre & E & Hpre).
  fold b in E.
  destruct b as [|c t] eqn:Eb; [reflexivity|].
  (* [a] starts with the head of [rev b] *)
  assert (Ea : a = rev (c :: t) ++ rev pre).
  { rewrite <- (rev_involutive a), E, rev_app_distr. reflexivity. }
  pose proof (drop_while_head is_space s) as Ha. fold a in Ha.
  destruct (rev (c :: t)) as [|d u] eqn:Er.
  - apply (f_equal (@List.length cp)) in Er.
    rewrite length_rev in Er. discriminate.
  - rewrite Ea in Ha. simpl in Ha. now apply drop_while_fixed.
Qed.

Lemma strip_fixed (s : str) : trimmed s -> strip s = s.
Proof.
  intros [H1 H2]. unfold strip. rewrite H1, H2. apply rev_involutive.
Qed.

Lemma strip_idempotent (s : str) : strip (strip s) = strip s.
Proof. apply strip_fixed, strip_trimmed. Qed.

Lemma drop_while_incl (p : cp -> bool) (s : str) (c : cp) :
  In c (drop_while p s) -> In c s.
Proof.
  induction s as [|d s IH]; simpl; [tauto|].
  destruct (p d); [intros H; right; now apply IH | tauto].
Qed.

Lemma strip_incl (s : str) (c : cp) : In c (strip s) -> In c s.
Proof.
  unfold strip. intros H. apply in_rev in H.
  apply drop_while_incl in H. apply in_rev in H.
  now apply drop_while_incl in H.
Qed.

Lemma normal_char_lower (U : unicode_tables) (c : cp) :
  normal_char c = true -> lower_cp U c = [c].
Proof.
  unfold normal_char, is_token_char, chr_is, lower_cp, is_ascii, is_AZ,
    is_az, is_09, in_range, cp_eqb, SPACE. simpl.
  intros H.
  repeat (apply orb_true_iff in H; destruct H as [H|H]);
    try (apply andb_true_iff in H; destruct H as [H1 H2];
         apply N.leb_le in H1, H2);
    try (apply N.eqb_eq in H);
    try discriminate;
    (replace (c <? 128)%N with true by (symmetry; apply N.ltb_lt; lia));
    (replace ((65 <=? c)%N && (c <=? 90)%N) with false; [reflexivity|]);
    symmetry; apply andb_false_iff;
    first [left; apply N.leb_gt; lia | right; apply N.leb_gt; lia].
Qed.

Lemma lower_normal (U : unicode_tables) (s : str) :
  forallb normal_char s = true -> lower U s = s.
Proof.
  induction s as [|c s IH]; simpl; [reflexivity|].
  intros H. apply andb_true_iff in H. destruct H as [Hc Hs].
  unfold lower in *. simpl. rewrite (normal_char_lower U c Hc), IH by exact Hs.
  reflexivity.
Qed.

Lemma replace_normal (s : str) :
  forallb normal_char s = true ->
  List.map (fun c => if is_token_char c then c else SPACE) s = s.
Proof.
  induction s as [|c s IH]; simpl; [reflexivity|].
  intros H. apply andb_true_iff in H. destruct H as [Hc Hs].
  rewrite IH by exact Hs. f_equal.
  unfold normal_char in Hc. destruct (is_token_char c); [reflexivity|].
  simpl in Hc. apply cp_eqb_eq in Hc. now subst.
Qed.

Lemma normalize_token_chars (U : unicode_tables) (t : str) :
  forallb normal_char (normalize_token U t) = true.
Proof.
  apply forallb_forall. intros c Hc. unfold normalize_token in Hc.
  apply strip_incl in Hc. apply in_map_iff in Hc.
  destruct Hc as (d & Hd & _). unfold normal_char.
  destruct (is_token_char d) eqn:E; subst c; [now rewrite E|].
  apply orb_true_r.
Qed.

(** X3.  A normal form consists of the characters a-z, 0-9, "+", "." and
    "#" and of spaces, has no white space at either end, and is its own
    normal form: normalizing twice is normalizing once. *)
Theorem normalize_token_idempotent (U : unicode_tables) (t : str) :
  forallb normal_char (normalize_token U t) = true
  /\ trimmed (normalize_token U t)
  /\ normalize_token U (normalize_token U t) = normalize_token U t.
Proof.
  pose proof (normalize_token_chars U t) as Hc.
  assert (Ht : trimmed (normalize_token U t))
    by (unfold normalize_token; apply strip_trimmed).
  refine (conj Hc (conj Ht _)).
  unfold normalize_token at 1.
  rewrite (lower_normal U _ Hc), (replace_normal _ Hc).
  now apply strip_fixed.
Qed.

(** ** The section segmenter *)

Lemma match_header_Some (U : unicode_tables) (ln h : str) :
  match_header U ln = Some h ->
  In h HEADER_HINTS /\ contains h (lower U ln) = true /\ (len ln <= 40)%Z.
Proof.
  unfold match_header. intros H. apply find_some in H.
  destruct H as [Hin Hc]. apply andb_true_iff in Hc.
  destruct Hc as [Hc Hl]. apply Z.leb_le in Hl. auto.
Qed.

Lemma section_append_keys (cur ln : str) (secs : section_lines) :
  List.map fst (section_append cur ln secs) = List.map fst secs.
Proof.
  unfold section_append. rewrite map_map. apply map_ext.
  intros kv. now destruct (str_eqb (fst kv) cur).
Qed.

Lemma segment_step_well_keyed (U : unicode_tables)
    (st : str * section_lines) (ln : str) :
  well_keyed st -> well_keyed (segment_step U st ln).
Proof.
  intros [Hc Hk]. unfold segment_step, well_keyed.
  destruct (match_header U ln) as [h|] eqn:E; simpl.
  - split; [now apply match_header_Some in E | exact Hk].
  - split; [exact Hc | now rewrite section_append_keys].
Qed.

Lemma segment_loop_well_keyed (U : unicode_tables) (lines : list str)
    (st : str * section_lines) :
  well_keyed st -> well_keyed (segment_loop U lines st).
Proof.
  revert st. induction lines as [|ln lines IH]; intros st H; simpl.
  - exact H.
  - apply IH. now apply segment_step_well_keyed.
Qed.

Lemma well_keyed_init : well_keyed (lit "summary", sections_init).
Proof. split; [simpl; tauto | reflexivity]. Qed.

Lemma stored_lines_append (cur ln : str) (secs : section_lines) :
  stored_lines (section_append cur ln secs)
  = (stored_lines secs
     + List.length (filter (fun k => str_eqb k cur) (List.map fst secs)))%nat.
Proof.
  unfold stored_lines, section_append.
  induction secs as [|kv secs IH]; simpl; [reflexivity|].
  rewrite IH. destruct (str_eqb (fst kv) cur); simpl.
  - rewrite length_app. simpl. lia.
  - lia.
Qed.

Lemma header_hint_once (cur : str) :
  In cur HEADER_HINTS ->
  List.length (filter (fun k => str_eqb k cur) HEADER_HINTS) = 1%nat.
Proof.
  intros H. simpl in H.
  repeat (destruct H as [H|H]; [subst cur; reflexivity|]).
  destruct H.
Qed.

Lemma segment_loop_counts (U : unicode_tables) (lines : list str)
    (st : str * section_lines) :
  well_keyed st ->
  stored_lines (snd (segment_loop U lines st))
  = (stored_lines (snd st)
     + List.length (filter (fun ln => negb (is_header U ln)) lines))%nat.
Proof.
  revert st. induction lines as [|ln lines IH]; intros st Hk; simpl.
  - lia.
  - rewrite IH by now apply segment_step_well_keyed.
    unfold is_header, segment_step.
    destruct Hk as [Hc Hkeys].
    destruct (match_header U ln); simpl; [lia|].
    rewrite stored_lines_append, Hkeys, (header_hint_once Hc). lia.
Qed.

Lemma segment_loop_stored (U : unicode_tables) (lines : list str)
    (st : str * section_lines) (P : str -> Prop) :
  (forall kv ln, In kv (snd st) -> In ln (snd kv) -> P ln) ->
  (forall ln, In ln lines -> is_header U ln = false -> P ln) ->
  forall kv ln, In kv (snd (segment_loop U lines st)) -> In ln (snd kv) ->
                P ln.
Proof.
  revert st. induction lines as [|l lines IH]; intros st Hst Hl; simpl.
  - exact Hst.
  - apply IH.
    + unfold segment_step, is_header in *.
      destruct (match_header U l) eqn:E; simpl; [exact Hst|].
      intros kv ln Hkv Hln. unfold section_append in Hkv.
      apply in_map_iff in Hkv. destruct Hkv as (kv0 & Ekv & Hkv0).
      destruct (str_eqb (fst kv0) (fst st)); subst kv.
      * simpl in Hln. apply in_app_iff in Hln. destruct Hln as [Hln|Hln].
        -- now apply (Hst kv0).
        -- destruct Hln as [<-|[]]. apply Hl; [now left|].
           now rewrite E.
      * now apply (Hst kv0).
    + intros ln Hin. apply Hl. now right.
Qed.

Lemma section_append_perm (cur ln : str) (secs : section_lines) :
  Permutation (List.concat (List.map snd (section_append cur ln secs)))
    (List.concat (List.map snd secs)
     ++ repeat ln (List.length (filter (fun k => str_eqb k cur)
                                  (List.map fst secs)))).
Proof.
  unfold section_append.
  induction secs as [|kv secs IH]; simpl; [constructor|].
  destruct (str_eqb (fst kv) cur); simpl; rewrite <- !app_assoc;
    apply Permutation_app_head.
  - simpl. now apply Permutation_cons_app.
  - exact IH.
Qed.

Lemma segment_loop_perm (U : unicode_tables) (lines : list str)
    (st : str * section_lines) :
  well_keyed st ->
  Permutation (List.concat (List.map snd (snd (segment_loop U lines st))))
    (List.concat (List.map snd (snd st))
     ++ filter (fun ln => negb (is_header U ln)) lines).
Proof.
  revert st. induction lines as [|ln lines IH]; intros st Hk; simpl.
  - now rewrite app_nil_r.
  - eapply Permutation_trans;
      [apply IH; now apply segment_step_well_keyed|].
    unfold is_header, segment_step. destruct Hk as [Hc Hkeys].
    destruct (match_header U ln); simpl; [reflexivity|].
    apply Permutation_trans
      with ((List.concat (List.map snd (snd st)) ++ [ln])
            ++ filter (fun l => negb (is_header U l)) lines).
    + apply Permutation_app_tail.
      pose proof (section_append_perm (fst st) ln (snd st)) as Hp.
      now rewrite Hkeys, (header_hint_once Hc) in Hp.
    + now rewrite <- app_assoc.
Qed.

(** X4.  The segmenter loses no line and stores none twice: after the
    loop the lines stored in the sections, all sections together, are the
    lines of the input that are not headers, each as often as it occurs
    there (a permutation of them); so the sections hold as many lines as
    there are such lines and every stored line is one of them.  The keys
    are still the seven hints, with the current section among them. *)
Theorem segment_loop_conserves_lines (U : unicode_tables)
    (lines : list str) :
  let st := segment_loop U lines (lit "summary", sections_init) in
  Permutation (List.concat (List.map snd (snd st)))
    (filter (fun ln => negb (is_header U ln)) lines)
  /\ stored_lines (snd st)
     = List.length (filter (fun ln => negb (is_header U ln)) lines)
  /\ (forall kv ln, In kv (snd st) -> In ln (snd kv) ->
        In ln lines /\ is_header U ln = false)
  /\ List.map fst (snd st) = HEADER_HINTS
  /\ In (fst st) HEADER_HINTS.
Proof.
  cbv zeta.
  pose proof (segment_loop_well_keyed U lines well_keyed_init) as [Hc Hk].
  refine (conj _ (conj _ (conj _ (conj Hk Hc)))).
  - exact (segment_loop_perm U lines well_keyed_init).
  - rewrite segment_loop_counts by apply well_keyed_init. reflexivity.
  - apply segment_loop_stored.
    + intros kv ln Hkv Hln. simpl in Hkv.
      repeat (destruct Hkv as [<-|Hkv]; [destruct Hln|]). destruct Hkv.
    + auto.
Qed.

Lemma segment_loop_conserves_lines_witness :
  let lines := [lit "Alpha"; lit "Skills"; lit "Beta"; lit "Alpha"] in
  Permutation
    (List.concat (List.map snd (snd (segment_loop ascii_tables lines
                                  (lit "summary", sections_init)))))
    [lit "Alpha"; lit "Beta"; lit "Alpha"].
Proof.
  intros lines.
  exact (proj1 (segment_loop_conserves_lines ascii_tables lines)).
Defined.

Lemma NoDup_HEADER_HINTS : NoDup HEADER_HINTS.
Proof.
  unfold HEADER_HINTS. simpl.
  repeat (constructor; [simpl; intros H;
    repeat (destruct H as [H|H]; [discriminate H|]); exact H|]).
  constructor.
Qed.

Lemma map_fst_filter_incl {A B : Type} (f : A * B -> bool)
    (l : list (A * B)) :
  NoDup (List.map fst l) ->
  NoDup (List.map fst (filter f l))
  /\ forall k, In k (List.map fst (filter f l)) -> In k (List.map fst l).
Proof.
  induction l as [|kv l IH]; simpl; intros Hnd.
  - split; [constructor | tauto].
  - inversion Hnd as [|? ? Hnot Hnd']; subst.
    destruct (IH Hnd') as [IH1 IH2].
    destruct (f kv); simpl.
    + split.
      * constructor; [|exact IH1]. intros H. apply Hnot. now apply IH2.
      * intros k [H|H]; [now left | right; now apply IH2].
    + split; [exact IH1 | intros k H; right; now apply IH2].
Qed.

Lemma sections_get_In (secs : list (str * str)) (k v : str) :
  NoDup (List.map fst secs) -> In (k, v) secs -> sections_get secs k = v.
Proof.
  induction secs as [|[k0 v0] secs IH]; simpl; intros Hnd Hin; [tauto|].
  inversion Hnd as [|? ? Hnot Hnd']; subst.
  destruct Hin as [E|Hin].
  - injection E as -> ->.
    now replace (str_eqb k k) with true by (symmetry; now apply str_eqb_eq).
  - destruct (str_eqb k0 k) eqn:E.
    + apply str_eqb_eq in E. subst k0. exfalso. apply Hnot.
      apply in_map_iff. now exists (k, v).
    + now apply IH.
Qed.

Lemma sections_get_absent (secs : list (str * str)) (k : str) :
  ~ In k (List.map fst secs) -> sections_get secs k = [].
Proof.
  induction secs as [|[k0 v0] secs IH]; simpl; intros Hnot; [reflexivity|].
  destruct (str_eqb k0 k) eqn:E.
  - apply str_eqb_eq in E. subst. tauto.
  - apply IH. tauto.
Qed.

(** X5.  The result of [detect_sections] has header hints for keys, none
    of them twice, so that [get] returns the text stored under a key and
    the empty string for any other key. *)
Theorem detect_sections_keys (U : unicode_tables) (text : str) :
  let result := detect_sections U text in
  NoDup (List.map fst result)
  /\ (forall k, In k (List.map fst result) -> In k HEADER_HINTS)
  /\ (forall k v, In (k, v) result -> sections_get result k = v)
  /\ (forall k, ~ In k (List.map fst result) -> sections_get result k = []).
Proof.
  cbv zeta. unfold detect_sections.
  set (secs := snd (segment_loop U (List.map strip (splitlines text))
                      (lit "summary", sections_init))).
  set (f := fun kv : str * list str =>
              match snd kv with [] => false | _ => true end).
  assert (Hk : List.map fst secs = HEADER_HINTS).
  { apply (segment_loop_well_keyed U _ well_keyed_init). }
  assert (Hm : List.map fst
                 (List.map (fun kv => (fst kv, strip (join [NL] (snd kv))))
                    (filter f secs))
               = List.map fst (filter f secs)).
  { rewrite map_map. reflexivity. }
  destruct (@map_fst_filter_incl _ _ f secs) as [Hnd Hin].
  { rewrite Hk. apply NoDup_HEADER_HINTS. }
  rewrite <- Hm in Hnd, Hin. rewrite Hk in Hin.
  refine (conj Hnd (conj Hin (conj _ _))).
  - intros k v. now apply sections_get_In.
  - intros k. apply sections_get_absent.
Qed.

Lemma detect_sections_keys_witness :
  let text := lit "Jane Doe" ++ [NL] ++ lit "Skills" ++ [NL]
              ++ lit "Python, SQL" in
  In (lit "skills") HEADER_HINTS
  /\ sections_get (detect_sections ascii_tables text) (lit "skills")
     = lit "Python, SQL"
  /\ sections_get (detect_sections ascii_tables text) (lit "projects") = [].
Proof.
  intros text.
  destruct (detect_sections_keys ascii_tables text)
    as (_ & Hkeys & Hget & Hnone).
  split; [apply Hkeys; vm_compute; tauto|].
  split; [apply Hget; vm_compute; tauto|].
  apply Hnone. vm_compute. intros [H|[H|[]]]; discriminate H.
Defined.

Lemma segment_loop_no_header (U : unicode_tables) (lines acc : list str) :
  (forall ln, In ln lines -> match_header U ln = None) ->
  segment_loop U lines (lit "summary", summary_only acc)
  = (lit "summary", summary_only (acc ++ lines)).
Proof.
  revert acc. induction lines as [|ln lines IH]; intros acc H.
  - simpl. now rewrite app_nil_r.
  - assert (Hstep : segment_step U (lit "summary", summary_only acc) ln
                    = (lit "summary", summary_only (acc ++ [ln]))).
    { unfold segment_step. rewrite (H ln) by now left. reflexivity. }
    change (segment_loop U (ln :: lines) (lit "summary", summary_only acc))
      with (segment_loop U lines
              (segment_step U (lit "summary", summary_only acc) ln)).
    rewrite Hstep, IH by (intros l Hl; apply H; now right).
    now rewrite <- app_assoc.
Qed.

(** X6.  When no line of the text is taken for a header, the whole text
    lands in the default section: the result has the single key
    ["summary"] with the stripped lines joined by newlines (and no key at
    all when the text has no line). *)
Theorem detect_sections_no_header (U : unicode_tables) (text : str)
    (Hnone : forall ln, In ln (List.map strip (splitlines text)) ->
                match_header U ln = None) :
  detect_sections U text
  = match List.map strip (splitlines text) with
    | [] => []
    | lines => [(lit "summary", strip (join [NL] lines))]
    end.
Proof.
  unfold detect_sections.
  change sections_init with (summary_only []).
  rewrite (segment_loop_no_header U _ [] Hnone). simpl app.
  now destruct (List.map strip (splitlines text)).
Qed.

Lemma detect_sections_no_header_witness :
  detect_sections ascii_tables (lit " Jane Doe " ++ [NL] ++ lit "Python")
  = [(lit "summary", lit "Jane Doe" ++ [NL] ++ lit "Python")].
Proof.
  rewrite (@detect_sections_no_header ascii_tables).
  - reflexivity.
  - intros ln Hin. vm_compute in Hin.
    destruct Hin as [<-|[<-|[]]]; reflexivity.
Defined.

Lemma section_append_untouched (k cur ln : str) (secs : section_lines) :
  cur <> k -> untouched k secs -> untouched k (section_append cur ln secs).
Proof.
  intros Hne Hu kv Hin Hk. unfold section_append in Hin.
  apply in_map_iff in Hin. destruct Hin as (kv0 & E & Hin0).
  destruct (str_eqb (fst kv0) cur) eqn:Ec; subst kv.
  - apply str_eqb_eq in Ec. simpl in Hk. congruence.
  - now apply Hu.
Qed.

Lemma segment_loop_untouched (U : unicode_tables) (k : str)
    (lines : list str) (st : str * section_lines) :
  fst st <> k -> untouched k (snd st) ->
  (forall ln, In ln lines -> match_header U ln <> Some k) ->
  untouched k (snd (segment_loop U lines st)).
Proof.
  revert st. induction lines as [|ln lines IH]; intros st Hc Hu Hl.
  - exact Hu.
  - change (segment_loop U (ln :: lines) st)
      with (segment_loop U lines (segment_step U st ln)).
    assert (Hln : match_header U ln <> Some k) by (apply Hl; now left).
    apply IH.
    + unfold segment_step. destruct (match_header U ln); simpl; congruence.
    + unfold segment_step. destruct (match_header U ln); simpl;
        [exact Hu | now apply section_append_untouched].
    + intros l Hin. apply Hl. now right.
Qed.

Lemma untouched_get (k : str) (secs : section_lines) :
  untouched k secs ->
  sections_get
    (List.map (fun kv => (fst kv, strip (join [NL] (snd kv))))
       (filter (fun kv => match snd kv with [] => false | _ => true end)
          secs)) k = [].
Proof.
  induction secs as [|[k0 v0] secs IH]; intros Hu; simpl; [reflexivity|].
  assert (Hu' : untouched k secs).
  { intros kv Hin. apply Hu. now right. }
  destruct v0 as [|l v0]; simpl; [now apply IH|].
  destruct (str_eqb k0 k) eqn:E; [|now apply IH].
  apply str_eqb_eq in E. specialize (Hu (k0, l :: v0) (or_introl eq_refl) E).
  discriminate.
Qed.

Lemma detect_sections_untouched (U : unicode_tables) (text k : str) :
  k <> lit "summary" ->
  (forall ln, In ln (List.map strip (splitlines text)) ->
              match_header U ln <> Some k) ->
  sections_get (detect_sections U text) k = [].
Proof.
  intros Hk Hl. unfold detect_sections. apply untouched_get.
  apply segment_loop_untouched; simpl.
  - congruence.
  - intros kv Hin _. unfold sections_init in Hin. simpl in Hin.
    repeat (destruct Hin as [<-|Hin]; [reflexivity|]). destruct Hin.
  - exact Hl.
Qed.

(** X7.  Bullets are taken from the sections "experience" and "projects"
    only.  When no line opens one of these two sections, whatever the
    text holds (bullets under "Work History", say), no bullet is analysed,
    the bullet scorer reports "No bullet points detected." and the impact
    subscore is 0. *)
Theorem no_experience_no_bullets (U : unicode_tables)
    (pr : str -> str -> Q) (fk : str -> option Q) (canon : list str)
    (text : str) (ont : ontology) (role jd : option str)
    (Hnone : forall ln, In ln (List.map strip (splitlines text)) ->
               match_header U ln <> Some (lit "experience")
               /\ match_header U ln <> Some (lit "projects")) :
  let r := analyze U pr fk canon text ont role jd in
  let sections := detect_sections U text in
  let blts := bullets U (sections_get sections (lit "experience") ++ [NL]
                         ++ sections_get sections (lit "projects")) in
  blts = []
  /\ bullets_analyzed r = []
  /\ reasons (score_bullets U blts ont) = [lit "No bullet points detected."]
  /\ sub_impact_bullets (subscores r) == 0.
Proof.
  cbv zeta.
  assert (He : sections_get (detect_sections U text) (lit "experience") = []).
  { apply detect_sections_untouched; [discriminate|].
    intros ln Hin. now apply Hnone. }
  assert (Hp : sections_get (detect_sections U text) (lit "projects") = []).
  { apply detect_sections_untouched; [discriminate|].
    intros ln Hin. now apply Hnone. }
  unfold analyze, rubric.
  cbn [bullets_analyzed subscores round_subscores sub_impact_bullets].
  rewrite He, Hp.
  change (bullets U ([] ++ [NL] ++ [])) with (@nil str).
  repeat split; reflexivity.
Qed.

Lemma no_experience_no_bullets_witness :
  let text := lit "Work History" ++ [NL]
              ++ lit "- Built an API cutting latency by 40%" in
  bullets ascii_tables text
  = [lit "Work History"; lit "Built an API cutting latency by 40%"]
  /\ bullets_analyzed
       (analyze ascii_tables (fun _ _ => 0) (fun _ => None) canon_literal
          text {| ont_skills := None; ont_action_verbs := None |} None None)
     = [].
Proof.
  intros text. split; [reflexivity|].
  refine (proj1 (proj2 (@no_experience_no_bullets ascii_tables
            (fun _ _ => 0) (fun _ => None) canon_literal text
            {| ont_skills := None; ont_action_verbs := None |} None None
            _))).
  intros ln Hin. vm_compute in Hin.
  destruct Hin as [<-|[<-|[]]]; split; discriminate.
Defined.

(** ** The matcher finds what the patterns match *)

Lemma lastc_app (prev : option cp) (w1 w2 : str) :
  lastc prev (w1 ++ w2) = lastc (lastc prev w1) w2.
Proof. unfold lastc. apply fold_left_app. Qed.

Section MatcherSound.

Variable U : unicode_tables.
Variable A : Type.

Lemma rep_lo_sound (p : cp -> bool) (lo : nat) :
  forall prev s (k : option cp -> str -> option A) a,
    rep_lo p lo prev s k = Some a ->
    exists w rest, s = w ++ rest /\ List.length w = lo
                   /\ forallb p w = true /\ k (lastc prev w) rest = Some a.
Proof.
  induction lo as [|lo IH]; intros prev s k a H; simpl in H.
  - now exists [], s.
  - destruct s as [|c s]; [discriminate|].
    destruct (p c) eqn:Hc; [|discriminate].
    destruct (IH _ _ _ _ H) as (w & rest & -> & Hlen & Hp & Hk).
    exists (c :: w), rest. simpl. rewrite Hc, Hlen. auto.
Qed.

Lemma rep_greedy_sound (p : cp -> bool) :
  forall s b prev (k : option cp -> str -> option A) a,
    rep_greedy p b prev s k = Some a ->
    exists w rest, s = w ++ rest /\ forallb p w = true
                   /\ match b with
                      | Some n => (List.length w <= n)%nat
                      | None => True
                      end
                   /\ k (lastc prev w) rest = Some a.
Proof.
  induction s as [|c s IH]; intros b prev k a H; simpl in H.
  - exists [], []. repeat split; [destruct b; simpl; [lia|exact I] | exact H].
  - assert (Hstop : k prev (c :: s) = Some a ->
              exists w rest, c :: s = w ++ rest /\ forallb p w = true
                /\ match b with
                   | Some n => (List.length w <= n)%nat
                   | None => True
                   end
                /\ k (lastc prev w) rest = Some a).
    { intros Hk. exists [], (c :: s).
      repeat split; [destruct b; simpl; [lia|exact I] | exact Hk]. }
    destruct (p c && budget_left b) eqn:Hc; [|now apply Hstop].
    destruct (rep_greedy p (budget_pred b) (Some c) s k) eqn:Hr;
      [|now apply Hstop].
    injection H as ->.
    apply andb_true_iff in Hc. destruct Hc as [Hc Hb].
    destruct (IH _ _ _ _ Hr) as (w & rest & -> & Hp & Hlen & Hk).
    exists (c :: w), rest. simpl. rewrite Hc, Hp.
    repeat split; [|exact Hk].
    destruct b as [[|n]|]; simpl in *; [discriminate | lia | exact I].
Qed.

Lemma firstn_consumed (w rest : str) :
  firstn (List.length (w ++ rest) - List.length rest) (w ++ rest) = w.
Proof.
  rewrite length_app.
  replace (List.length w + List.length rest - List.length rest)%nat
    with (List.length w + 0)%nat by lia.
  rewrite firstn_app_2. simpl. apply app_nil_r.
Qed.

(** When the matcher succeeds, the pattern matches a first part [w] of the
    text and the continuation has succeeded on the rest. *)
Lemma rmatch_sound (r : regex) :
  forall g prev s (k : kont A) a,
    rmatch U r g prev s k = Some a ->
    exists w rest g', s = w ++ rest /\ matches U r prev w rest
                      /\ k g' (lastc prev w) rest = Some a.
Proof.
  induction r as [|p|r1 IH1 r2 IH2|r1 IH1 r2 IH2|p lo hi| | |r IH];
    intros g prev s k a H; simpl in H.
  - exists [], s, g. repeat split; [constructor | exact H].
  - destruct s as [|c s]; [discriminate|].
    destruct (p c) eqn:Hc; [|discriminate].
    exists [c], s, g. repeat split; [now constructor | exact H].
  - destruct (IH1 _ _ _ _ _ H) as (w1 & rest1 & g1 & -> & M1 & H2).
    destruct (IH2 _ _ _ _ _ H2) as (w2 & rest & g2 & -> & M2 & Hk).
    exists (w1 ++ w2), rest, g2. rewrite app_assoc, lastc_app.
    repeat split; [now constructor | exact Hk].
  - destruct (rmatch U r1 g prev s k) eqn:E.
    + injection H as ->.
      destruct (IH1 _ _ _ _ _ E) as (w & rest & g' & -> & M & Hk).
      exists w, rest, g'. repeat split; [now apply matches_Alt_l | exact Hk].
    + destruct (IH2 _ _ _ _ _ H) as (w & rest & g' & -> & M & Hk).
      exists w, rest, g'. repeat split; [now apply matches_Alt_r | exact Hk].
  - apply rep_lo_sound in H.
    destruct H as (w1 & rest1 & -> & Hlen1 & Hp1 & H).
    apply rep_greedy_sound in H.
    destruct H as (w2 & rest & -> & Hp2 & Hlen2 & Hk).
    exists (w1 ++ w2), rest, g. rewrite app_assoc, lastc_app.
    repeat split; [|exact Hk].
    constructor.
    + rewrite forallb_app, Hp1, Hp2. reflexivity.
    + rewrite length_app. lia.
    + destruct hi as [h|]; [|exact I]. simpl in Hlen2.
      rewrite length_app. lia.
  - destruct (xorb (word_before U prev) (word_at U s)) eqn:E; [|discriminate].
    exists [], s, g. repeat split; [now constructor | exact H].
  - assert (Hp : prev = None \/ prev = Some NL).
    { destruct prev as [c|]; [|now left].
      destruct (cp_eqb c NL) eqn:E; [|discriminate].
      apply cp_eqb_eq in E. subst. now right. }
    assert (Hk : k g prev s = Some a).
    { destruct prev as [c|]; [|exact H].
      destruct (cp_eqb c NL); [exact H | discriminate]. }
    exists [], s, g. repeat split; [now constructor | exact Hk].
  - destruct (IH _ _ _ _ _ H) as (w & rest & g' & -> & M & Hk).
    rewrite firstn_consumed in Hk.
    exists w, rest, (Some w). repeat split; [now constructor | exact Hk].
Qed.

End MatcherSound.

(** ** The extracted bullets *)

Lemma rmatch_Grp_sound (U : unicode_tables) (A : Type) (r : regex)
    (g : option str) (prev : option cp) (s : str) (k : kont A) (a : A) :
  rmatch U (Grp r) g prev s k = Some a ->
  exists w rest, s = w ++ rest /\ matches U r prev w rest
                 /\ k (Some w) (lastc prev w) rest = Some a.
Proof.
  simpl. intros H. apply rmatch_sound in H.
  destruct H as (w & rest & _ & -> & M & Hk).
  rewrite firstn_consumed in Hk. now exists w, rest.
Qed.

(** The text of group 1 of a match of [ACTION_BULLET_RE]. *)
Lemma action_bullet_group (U : unicode_tables) (prev : option cp)
    (s : str) (m : rematch) :
  match_here U ACTION_BULLET_RE prev s = Some m ->
  exists c w, group1 m = Some (c :: w) /\ is_AZ c = true
              /\ forallb not_newline w = true
              /\ (List.length w <= 200)%nat.
Proof.
  unfold match_here, ACTION_BULLET_RE. intros H.
  change (rmatch U (Seq Bol ?r) ?g ?p ?t ?k)
    with (rmatch U Bol g p t (fun g' p' s' => rmatch U r g' p' s' k)) in H.
  apply rmatch_sound in H. destruct H as (w0 & s0 & g0 & _ & _ & H).
  change (rmatch U (Seq ?r1 ?r2) ?g ?p ?t ?k)
    with (rmatch U r1 g p t (fun g' p' s' => rmatch U r2 g' p' s' k)) in H.
  apply rmatch_sound in H. destruct H as (w1 & s1 & g1 & _ & _ & H).
  apply rmatch_Grp_sound in H. destruct H as (w & rest & _ & M & H).
  injection H as <-. cbn [group1].
  inversion M as [| |? ? ? wa wb ? Ma Mb| | | | | |]; subst.
  inversion Ma; subst. inversion Mb; subst.
  exists c, wb. simpl in *. repeat split; auto.
Qed.

Lemma finditer_from_In (U : unicode_tables) (r : regex) (m : rematch) :
  forall s prev skip,
    In m (finditer_from U r prev s skip) ->
    exists prev' s', match_here U r prev' s' = Some m.
Proof.
  induction s as [|c s IH]; intros prev skip H; simpl in H; [tauto|].
  destruct skip as [|n]; [|now apply IH in H].
  destruct (match_here U r prev (c :: s)) as [m0|] eqn:E.
  - destruct H as [<-|H]; [now exists prev, (c :: s) | now apply IH in H].
  - now apply IH in H.
Qed.

Lemma is_AZ_not_space (c : cp) : is_AZ c = true -> is_space c = false.
Proof.
  unfold is_AZ, is_space, in_range, cp_eqb. intros H.
  apply andb_true_iff in H. destruct H as [H1 H2].
  apply N.leb_le in H1, H2.
  repeat (apply orb_false_iff; split);
    first [ apply N.eqb_neq; lia
          | apply andb_false_iff;
            first [left; apply N.leb_gt; lia | right; apply N.leb_gt; lia] ].
Qed.

Lemma drop_while_snoc (p : cp -> bool) (s : str) (c : cp) :
  p c = false -> drop_while p (s ++ [c]) = drop_while p s ++ [c].
Proof.
  intros Hc. induction s as [|d s IH]; simpl.
  - now rewrite Hc.
  - destruct (p d); [exact IH | reflexivity].
Qed.

Lemma strip_cons (c : cp) (w : str) :
  is_space c = false ->
  strip (c :: w) = c :: rev (drop_while is_space (rev w)).
Proof.
  intros Hc. unfold strip. rewrite (@drop_while_fixed _ _ w Hc). simpl rev.
  rewrite (@drop_while_snoc _ (rev w) _ Hc), rev_app_distr. reflexivity.
Qed.

Lemma drop_while_length (p : cp -> bool) (s : str) :
  (List.length (drop_while p s) <= List.length s)%nat.
Proof.
  induction s as [|c s IH]; simpl; [lia|]. destruct (p c); simpl; lia.
Qed.

Lemma split_ws_aux_nonempty (s acc : str) :
  acc <> [] -> split_ws_aux acc s <> [].
Proof.
  revert acc. induction s as [|c s IH]; intros acc Hacc; simpl.
  - destruct acc; [contradiction | discriminate].
  - destruct (is_space c).
    + destruct acc; [contradiction | discriminate].
    + apply IH. discriminate.
Qed.

Lemma split_ws_cons (c : cp) (w : str) :
  is_space c = false -> split_ws (c :: w) <> [].
Proof.
  intros Hc. unfold split_ws. simpl. rewrite Hc.
  apply split_ws_aux_nonempty. discriminate.
Qed.

(** X8.  Every bullet that [bullets] returns begins with a capital letter
    A-Z, has at most 200 characters after it, none of them a newline, has
    no white space at its ends, and has a first word ([b.split()] is not
    empty). *)
Theorem bullets_shape (U : unicode_tables) (text b : str)
    (Hin : In b (bullets U text)) :
  (exists c w, b = c :: w /\ is_AZ c = true
               /\ (List.length w <= 200)%nat
               /\ forallb not_newline w = true)
  /\ trimmed b
  /\ split_ws b <> [].
Proof.
  unfold bullets in Hin. apply in_map_iff in Hin.
  destruct Hin as (m & <- & Hm).
  apply finditer_from_In in Hm. destruct Hm as (prev & s & Hm).
  apply action_bullet_group in Hm.
  destruct Hm as (c & w & -> & Hc & Hw & Hlen). cbn [get_or].
  pose proof (@is_AZ_not_space c Hc) as Hs.
  split; [|split].
  - exists c, (rev (drop_while is_space (rev w))).
    rewrite (@strip_cons _ w Hs). repeat split.
    + exact Hc.
    + rewrite length_rev.
      pose proof (drop_while_length is_space (rev w)) as H.
      rewrite length_rev in H. lia.
    + apply forallb_forall. intros x Hx. apply in_rev in Hx.
      apply drop_while_incl in Hx. apply in_rev in Hx.
      rewrite forallb_forall in Hw. now apply Hw.
  - apply strip_trimmed.
  - rewrite (@strip_cons _ w Hs). now apply split_ws_cons.
Qed.

Lemma bullets_shape_witness :
  let b := lit "Built things" in
  exists c w, b = c :: w /\ is_AZ c = true
              /\ (List.length w <= 200)%nat
              /\ forallb not_newline w = true.
Proof.
  refine (proj1 (@bullets_shape ascii_tables
                   (lit "* Built things  " ++ [NL] ++ lit "- and more")
                   (lit "Built things") _)).
  vm_compute. now left.
Defined.

(** ** The improvement tips *)

Lemma In_firstn {A : Type} (n : nat) (l : list A) (x : A) :
  In x (firstn n l) -> In x l.
Proof.
  intros H. rewrite <- (firstn_skipn n l). apply in_or_app. now left.
Qed.

Lemma bullets_first_word (U : unicode_tables) (text b : str) :
  In b (bullets U text) -> split_ws b <> [].
Proof.
  intros Hin. unfold bullets in Hin. apply in_map_iff in Hin.
  destruct Hin as (m & <- & Hm).
  apply finditer_from_In in Hm. destruct Hm as (prev & s & Hm).
  apply action_bullet_group in Hm.
  destruct Hm as (c & w & -> & Hc & _ & _). cbn [get_or].
  pose proof (@is_AZ_not_space c Hc) as Hs.
  rewrite (@strip_cons _ w Hs). now apply split_ws_cons.
Qed.

Lemma first_bullet_tip_total (U : unicode_tables) (title : cp -> list cp)
    (text : str) :
  exists tips, first_bullet_tip U title (bullets U text) = Some tips
               /\ (List.length tips <= 1)%nat
               /\ forall t, In t tips ->
                    tip_section t = lit "Experience/Projects".
Proof.
  unfold first_bullet_tip.
  destruct (find (fun b => negb (has_metric U b))
              (firstn 3 (bullets U text))) as [b|] eqn:E.
  - apply find_some in E. destruct E as [Hin _].
    apply In_firstn in Hin.
    pose proof (@bullets_first_word U text b Hin) as Hw.
    unfold bullet_tip. destruct (split_ws b) as [|w ws]; [contradiction|].
    simpl.
    eexists. split; [reflexivity|]. split; [simpl; lia|].
    intros t [<-|[]]. reflexivity.
  - exists []. split; [reflexivity|]. split; [simpl; lia | intros t []].
Qed.

Lemma improvements_some (U : unicode_tables) (title : cp -> list cp)
    (section_texts : list (str * str)) :
  exists bullet_tips,
    improvements U title section_texts
    = Some (bullet_tips
            ++ list_if (len (split_ws (sections_get section_texts
                                         (lit "skills"))) <? 6)%Z
                 skills_tip
            ++ list_if (match sections_get section_texts (lit "projects")
                        with [] => true | _ => false end)
                 projects_tip)
    /\ (List.length bullet_tips <= 1)%nat
    /\ (forall t, In t bullet_tips ->
          tip_section t = lit "Experience/Projects").
Proof.
  unfold improvements.
  destruct (first_bullet_tip_total U title
              (sections_get section_texts (lit "experience") ++ [NL]
               ++ sections_get section_texts (lit "projects")))
    as (tips & -> & Hlen & Hsec).
  now exists tips.
Qed.

Lemma improvements_length (U : unicode_tables) (title : cp -> list cp)
    (section_texts : list (str * str)) :
  exists tips, improvements U title section_texts = Some tips
               /\ (List.length tips <= 3)%nat.
Proof.
  destruct (improvements_some U title section_texts) as (bt & E & Hlen & _).
  eexists. split; [exact E|].
  rewrite !length_app. unfold list_if.
  destruct (len _ <? 6)%Z;
    destruct (sections_get section_texts (lit "projects")); simpl; lia.
Qed.

(** X9.  [improvements] never raises: the first word it takes from a
    bullet exists, because every bullet begins with a capital letter.  It
    returns at most three tips, in the order bullet, skills, projects; the
    skills tip is there exactly when the skills section has fewer than six
    words and the projects tip exactly when the projects section is absent
    or empty. *)
Theorem improvements_total (U : unicode_tables) (title : cp -> list cp)
    (section_texts : list (str * str)) :
  exists bullet_tips,
    improvements U title section_texts
    = Some (bullet_tips
            ++ list_if (len (split_ws (sections_get section_texts
                                         (lit "skills"))) <? 6)%Z
                 skills_tip
            ++ list_if (match sections_get section_texts (lit "projects")
                        with [] => true | _ => false end)
                 projects_tip)
    /\ (List.length bullet_tips <= 1)%nat
    /\ (forall t, In t bullet_tips ->
          tip_section t = lit "Experience/Projects")
    /\ (List.length
          (bullet_tips
           ++ list_if (len (split_ws (sections_get section_texts
                                        (lit "skills"))) <? 6)%Z
                skills_tip
           ++ list_if (match sections_get section_texts (lit "projects")
                       with [] => true | _ => false end)
                projects_tip) <= 3)%nat.
Proof.
  destruct (improvements_some U title section_texts)
    as (bt & E & Hlen & Hsec).
  exists bt. refine (conj E (conj Hlen (conj Hsec _))).
  rewrite !length_app. unfold list_if.
  destruct (len _ <? 6)%Z;
    destruct (sections_get section_texts (lit "projects")); simpl; lia.
Qed.

(** X10.  The tips of [analyze] never fail either; they are the tips of
    [improvements] on the sections of the text, followed by the
    Structure/ATS tip exactly when [structure_ats] reports a reason (its
    issue being the reasons joined by "; "): at most four tips. *)
Theorem analyze_tips_total (U : unicode_tables) (title : cp -> list cp)
    (text : str) :
  exists tips,
    improvements U title (detect_sections U text) = Some tips
    /\ (List.length tips <= 3)%nat
    /\ analyze_tips U title text
       = Some (tips ++ match snd (structure_ats U text) with
                       | [] => []
                       | rs => [ats_tip rs]
                       end)
    /\ (List.length (tips ++ match snd (structure_ats U text) with
                             | [] => []
                             | rs => [ats_tip rs]
                             end) <= 4)%nat.
Proof.
  destruct (improvements_length U title (detect_sections U text))
    as (tips & E & Hlen).
  exists tips. unfold analyze_tips. rewrite E.
  refine (conj eq_refl (conj Hlen _)).
  rewrite length_app.
  destruct (snd (structure_ats U text)); simpl; split;
    [reflexivity | lia | reflexivity | lia].
Qed.

(** ** Ranges of the sub-scorers *)

Lemma py_abs_nonneg (x : Q) : 0 <= py_abs x.
Proof. unfold py_abs. cases_Qltb x 0; lra. Qed.

Lemma py_abs_cases (x : Q) :
  (py_abs x = - x /\ x < 0) \/ (py_abs x = x /\ 0 <= x).
Proof. unfold py_abs. cases_Qltb x 0; auto. Qed.

(** X11.  The readability term lies between 0 and 0.8.  It is 0.8 for a
    grade from 10 to 12 and drops below 0.7 right outside that range (the
    decay is measured from 11), it is 0 from eight grades away from 11,
    and it is 0.4 when the grade oracle raises. *)
Theorem readability_score_range (fk : str -> option Q) (text : str) :
  0 <= readability_score fk text <= 0.8
  /\ (fk text = None -> readability_score fk text == 0.4)
  /\ (forall g, fk text = Some g ->
        (10 <= g <= 12 -> readability_score fk text == 0.8)
        /\ (g < 10 \/ 12 < g -> readability_score fk text < 0.7)
        /\ (g <= 3 \/ 19 <= g -> readability_score fk text == 0)).
Proof.
  unfold readability_score.
  destruct (fk text) as [grade|]; [|repeat split; try discriminate; lra].
  destruct (Qle_bool 10 grade) eqn:E1; destruct (Qle_bool grade 12) eqn:E2;
    cbn [andb];
    try (apply Qle_bool_iff in E1); try (apply Qle_bool_iff in E2);
    try (assert (N1 : grade < 10)
           by (apply Qnot_le_lt; intros H; apply Qle_bool_iff in H;
               congruence));
    try (assert (N2 : 12 < grade)
           by (apply Qnot_le_lt; intros H; apply Qle_bool_iff in H;
               congruence)).
  1: { repeat split; try discriminate; intros; try lra;
       injection H as <-; intros; lra. }
  all: destruct (py_abs_cases (11 - grade)) as [[Ea Ha]|[Ea Ha]];
       rewrite Ea;
       destruct (py_max_cases 0.0 (0.8 - - (11 - grade) * 0.1))
         as [[Em Hm]|[Em Hm]];
       destruct (py_max_cases 0.0 (0.8 - (11 - grade) * 0.1))
         as [[Em' Hm']|[Em' Hm']];
       try rewrite Em; try rewrite Em';
       (split; [split; lra|]); (split; [discriminate|]);
       intros g Hg; injection Hg as <-;
       repeat split; intros; lra.
Qed.

Lemma readability_score_range_witness :
  readability_score (fun _ => Some 11) [] == 0.8
  /\ readability_score (fun _ => Some 12.5) [] < 0.7
  /\ readability_score (fun _ => Some 30) [] == 0
  /\ readability_score (fun _ => None) [] == 0.4.
Proof.
  destruct (readability_score_range (fun _ => Some 11) [])
    as (_ & _ & H11).
  destruct (readability_score_range (fun _ => Some 12.5) [])
    as (_ & _ & H12).
  destruct (readability_score_range (fun _ => Some 30) [])
    as (_ & _ & H30).
  destruct (readability_score_range (fun _ => None) [])
    as (_ & Hn & _).
  split; [apply (H11 11 eq_refl); split; discriminate|].
  split; [apply (H12 12.5 eq_refl); right; reflexivity|].
  split; [apply (H30 30 eq_refl); right; discriminate|].
  apply Hn. reflexivity.
Defined.

Lemma py_max_le (a b c : Q) : a <= c -> b <= c -> py_max a b <= c.
Proof.
  intros. destruct (py_max_cases a b) as [[-> _]|[-> _]]; assumption.
Qed.

Lemma round2_le (x : Q) (hi : Z) :
  x <= hundredths hi -> round2 x <= hundredths hi.
Proof.
  intros Hhi. pose proof (hundredths_scale hi) as Hs.
  assert (H2 : x * 100 <= inject_Z hi) by lra.
  apply round_half_even_le in H2.
  unfold round2, hundredths, Qle. simpl. lia.
Qed.

Lemma filter_length_le {A : Type} (f : A -> bool) (l : list A) :
  (List.length (filter f l) <= List.length l)%nat.
Proof.
  induction l as [|x l IH]; simpl; [lia|]. destruct (f x); simpl; lia.
Qed.

Lemma concision_bonus_upper (U : unicode_tables) (text : str) :
  concision_bonus U text <= 0.7.
Proof.
  unfold concision_bonus. destruct (bullets U text) as [|b bl] eqn:E;
    [discriminate|].
  set (blts := b :: bl).
  set (long := len (filter (fun b0 => (28 <? len (split_ws b0))%Z) blts)).
  assert (Hl : (0 <= long)%Z) by apply len_nonneg.
  assert (Hn : (0 < len blts)%Z) by (unfold len, blts; simpl; lia).
  pose proof (Qdiv_nonneg (of_int_nonneg Hl) (of_int_pos Hn)) as Hf.
  apply py_max_le; [discriminate | lra].
Qed.

(** X12.  The concision term lies between 0 and 0.7; it is 0.3 when the
    text has no bullet, 0.7 when no bullet has more than 28 words and 0
    when all of them have. *)
Theorem concision_bonus_range (U : unicode_tables) (text : str) :
  let blts := bullets U text in
  let long := filter (fun b => (28 <? len (split_ws b))%Z) blts in
  0 <= concision_bonus U text <= 0.7
  /\ (blts = [] -> concision_bonus U text == 0.3)
  /\ (blts <> [] -> long = [] -> concision_bonus U text == 0.7)
  /\ (blts <> [] -> long = blts -> concision_bonus U text == 0).
Proof.
  cbv zeta.
  split; [split; [apply concision_bonus_nonneg | apply concision_bonus_upper]|].
  unfold concision_bonus.
  destruct (bullets U text) as [|b bl]; [repeat split; congruence|].
  set (blts := b :: bl).
  assert (Hn : (0 < len blts)%Z) by (unfold len, blts; simpl; lia).
  pose proof (of_int_pos Hn) as Hq.
  split; [discriminate|]. split; intros _ ->.
  - change (len (@nil str)) with 0%Z.
    assert (E : of_int 0 / of_int (len blts) == 0)
      by (change (of_int 0) with 0; field; lra).
    destruct (py_max_cases 0.0 (0.7 - 0.7 * (of_int 0 / of_int (len blts))))
      as [[-> _]|[-> H]]; lra.
  - assert (E : of_int (len blts) / of_int (len blts) == 1) by (field; lra).
    destruct (py_max_cases 0.0
                (0.7 - 0.7 * (of_int (len blts) / of_int (len blts))))
      as [[-> H]|[-> _]]; lra.
Qed.

Lemma concision_bonus_range_witness :
  concision_bonus ascii_tables (lit "no capital letter here") == 0.3
  /\ concision_bonus ascii_tables (lit "- Built a short bullet") == 0.7.
Proof.
  destruct (concision_bonus_range ascii_tables
              (lit "no capital letter here")) as (_ & H0 & _).
  destruct (concision_bonus_range ascii_tables
              (lit "- Built a short bullet")) as (_ & _ & H1 & _).
  split; [apply H0; reflexivity|].
  apply H1; [discriminate | reflexivity].
Defined.

(** X13.  The tense term is above 0.35 and at most 0.5: the smaller of
    the two counts is less than half of their sum plus one.  It is 0.5
    exactly when no word ends in "ed" or no word ends in "ing". *)
Theorem tense_consistency_tight (U : unicode_tables) (text : str) :
  let past := re_count U (word_ending U "ed") (lower U text) in
  let present := re_count U (word_ending U "ing") (lower U text) in
  0.35 < tense_consistency U text <= 0.5
  /\ (tense_consistency U text == 0.5 <-> (past = 0 \/ present = 0)%Z).
Proof.
  cbv zeta. unfold tense_consistency.
  set (past := re_count U (word_ending U "ed") (lower U text)).
  set (present := re_count U (word_ending U "ing") (lower U text)).
  assert (Hp : (0 <= past)%Z) by apply len_nonneg.
  assert (Hq : (0 <= present)%Z) by apply len_nonneg.
  set (m := Z.min past present).
  set (t := (past + present + 1)%Z).
  assert (Ht : 0 < of_int t) by (apply of_int_pos; unfold t; lia).
  assert (Hm : 0 <= of_int m) by (apply of_int_nonneg; unfold m; lia).
  assert (H2 : 2 * of_int m < of_int t).
  { unfold of_int. change 2 with (inject_Z 2).
    rewrite <- inject_Z_mult, <- Zlt_Qlt. unfold m, t. lia. }
  assert (Hr0 : 0 <= of_int m / of_int t) by now apply Qdiv_nonneg.
  assert (Hr1 : of_int m / of_int t < 0.5).
  { apply Qlt_shift_div_r; [exact Ht | lra]. }
  split; [split; lra|].
  split.
  - intros E.
    assert (E0 : of_int m / of_int t == 0) by lra.
    assert (Em : of_int m == 0).
    { assert (Ht' : ~ of_int t == 0) by lra.
      pose proof (@Qmult_div_r (of_int m) (of_int t) Ht') as Hd.
      rewrite E0 in Hd. rewrite <- Hd. ring. }
    unfold of_int, Qeq, inject_Z in Em. cbn [Qnum Qden] in Em.
    unfold m in Em. lia.
  - intros H.
    assert (Em : m = 0%Z) by (unfold m; lia).
    rewrite Em.
    assert (E0 : of_int 0 / of_int t == 0)
      by (change (of_int 0) with 0; field; lra).
    lra.
Qed.

(** ** The caps of the aggregator *)

Lemma py_min_noop (cap x : Q) : x <= cap -> py_min cap x == x.
Proof.
  intros H. destruct (py_min_cases cap x) as [[-> _]|[-> H']];
    [reflexivity | lra].
Qed.

Lemma round2_le_cap (x cap : Q) (k : Z) :
  cap == hundredths k -> x <= cap -> round2 x <= cap.
Proof.
  intros E H. rewrite E. apply round2_le. now rewrite <- E.
Qed.

Lemma structure_ats_values (U : unicode_tables) (text : str) :
  0.2 <= fst (structure_ats U text) <= 1.5
  /\ (fst (structure_ats U text) == 1.5 <-> snd (structure_ats U text) = []).
Proof.
  unfold structure_ats.
  destruct (too_long text), (has_tab text), (few_markers text),
    (no_header U text); vm_compute;
    (split; [split; discriminate|]);
    split; intros H; first [reflexivity | discriminate H].
Qed.

Lemma hygiene_values (U : unicode_tables) (text : str) :
  0 <= hygiene U text <= 0.5
  /\ exists k : Z, (0 <= k <= 5)%Z /\ hygiene U text == inject_Z k / 10.
Proof.
  unfold hygiene.
  destruct (negb (re_found U (S_ "@") text)),
    (negb (re_found U (PHONE_RE U) text)), (len text <? 500)%Z;
    (split; [vm_compute; split; discriminate|]).
  - exists 0%Z. split; [lia | reflexivity].
  - exists 2%Z. split; [lia | reflexivity].
  - exists 1%Z. split; [lia | reflexivity].
  - exists 3%Z. split; [lia | reflexivity].
  - exists 2%Z. split; [lia | reflexivity].
  - exists 4%Z. split; [lia | reflexivity].
  - exists 3%Z. split; [lia | reflexivity].
  - exists 5%Z. split; [lia | reflexivity].
Qed.

Lemma clarity_range (U : unicode_tables) (fk : str -> option Q)
    (text : str) :
  0.35 <= readability_score fk text + concision_bonus U text
          + tense_consistency U text <= 2.0.
Proof.
  pose proof (readability_score_nonneg fk text) as H1.
  assert (H1' : readability_score fk text <= 0.8).
  { unfold readability_score. destruct (fk text); [|discriminate].
    destruct (Qle_bool 10 q && Qle_bool q 12); [discriminate|].
    apply py_max_le; [discriminate|].
    pose proof (py_abs_nonneg (11 - q)). lra. }
  pose proof (concision_bonus_nonneg U text) as H2.
  pose proof (concision_bonus_upper U text) as H2'.
  pose proof (tense_consistency_range U text) as H3.
  assert (H3' : 0.35 <= tense_consistency U text).
  { unfold tense_consistency.
    set (past := re_count U (word_ending U "ed") (lower U text)).
    set (present := re_count U (word_ending U "ing") (lower U text)).
    assert (Hp : (0 <= past)%Z) by apply len_nonneg.
    assert (Hq : (0 <= present)%Z) by apply len_nonneg.
    assert (Ht : 0 < of_int (past + present + 1)) by (apply of_int_pos; lia).
    assert (H : of_int (Z.min past present) / of_int (past + present + 1)
                <= 0.5).
    { apply Qle_shift_div_r; [exact Ht|].
      assert (Hz : 2 * of_int (Z.min past present)
                   <= of_int (past + present + 1)).
      { unfold of_int. change 2 with (inject_Z 2).
        rewrite <- inject_Z_mult, <- Zle_Qle. lia. }
      lra. }
    lra. }
  split; lra.
Qed.

(** X14.  None of the six caps of [analyze] ever cuts: each sub-scorer
    already stays within its bound, so every subscore equals the value the
    sub-scorer returned (rounded, for the clarity sum). *)
Theorem aggregator_caps_never_cut (U : unicode_tables)
    (pr : str -> str -> Q) (fk : str -> option Q) (text : str)
    (ont : ontology) :
  let s := rubric U pr fk text ont in
  let sections := detect_sections U text in
  let blts := bullets U (sections_get sections (lit "experience") ++ [NL]
                         ++ sections_get sections (lit "projects")) in
  sub_impact_bullets s == score (score_bullets U blts ont)
  /\ sub_skill_alignment s
     == round2 (2.0 * of_int (len (firstn 10
                                     (extract_skills U pr text ont))) / 10)
  /\ sub_clarity_tone s
     == round2 (readability_score fk text + concision_bonus U text
                + tense_consistency U text)
  /\ sub_structure_ats s == fst (structure_ats U text)
  /\ sub_projects s
     == projects_evidence U (sections_get sections (lit "projects"))
  /\ sub_hygiene s == hygiene U text.
Proof.
  cbv zeta. unfold rubric.
  cbn [sub_impact_bullets sub_skill_alignment sub_clarity_tone
       sub_structure_ats sub_projects sub_hygiene].
  repeat apply conj.
  - apply py_min_noop. apply score_bullets_range.
  - unfold keyword_alignment. apply py_min_noop.
    apply (@round2_le_cap _ _ 200); [reflexivity|].
    set (n := len (firstn 10 (extract_skills U pr text ont))).
    assert (Hn : (n <= 10)%Z).
    { unfold n, len. rewrite length_firstn. lia. }
    assert (Hq : of_int n <= 10).
    { unfold of_int. change 10 with (inject_Z 10). now rewrite <- Zle_Qle. }
    apply Qle_shift_div_r; [reflexivity | lra].
  - apply py_min_noop. apply (@round2_le_cap _ _ 200); [reflexivity|].
    apply clarity_range.
  - apply py_min_noop. apply structure_ats_values.
  - apply py_min_noop. unfold projects_evidence. apply py_min_le_l.
  - apply py_min_noop. apply hygiene_values.
Qed.

(** X15.  The overall score is never below 0.55: the tense term alone
    keeps the clarity subscore at 0.35 or more, and the Structure/ATS
    subscore is at least 0.2. *)
Theorem overall_score_floor
    (U : unicode_tables) (pr : str -> str -> Q) (fk : str -> option Q)
    (canon : list str) (text : str) (ont : ontology)
    (role jd : option str) :
  let r := analyze U pr fk canon text ont role jd in
  0.35 <= sub_clarity_tone (subscores r)
  /\ 0.2 <= sub_structure_ats (subscores r)
  /\ 0.55 <= overall_score r.
Proof.
  cbv zeta. unfold analyze. cbn [overall_score subscores].
  pose proof (rubric_range U pr fk text ont) as H. cbv zeta in H.
  destruct H as ((B1 & T1) & (B2 & T2) & (B3 & T3) & (B4 & T4)
                 & (B5 & T5) & (B6 & T6)).
  assert (C3 : 0.35 <= sub_clarity_tone (rubric U pr fk text ont)).
  { unfold rubric. cbn [sub_clarity_tone].
    apply py_min_ge; [discriminate|].
    apply Qle_trans with (hundredths 35); [discriminate|].
    apply round2_ge. pose proof (clarity_range U fk text).
    unfold hundredths. lra. }
  assert (C4 : 0.2 <= sub_structure_ats (rubric U pr fk text ont)).
  { unfold rubric. cbn [sub_structure_ats].
    apply py_min_ge; [discriminate | apply structure_ats_values]. }
  assert (Ttot : two_decimals (subscore_total (rubric U pr fk text ont))).
  { unfold subscore_total. repeat apply two_decimals_plus; assumption. }
  unfold round_subscores. cbn [sub_clarity_tone sub_structure_ats].
  rewrite (round2_two_decimals T3), (round2_two_decimals T4),
    (round2_two_decimals Ttot).
  refine (conj C3 (conj C4 _)).
  unfold subscore_total. lra.
Qed.

(** ** The bullet scorer *)

Lemma bump_le (c : bool) (n m : Z) : (n <= m)%Z -> (bump c n <= m + 1)%Z.
Proof. unfold bump. destruct c; lia. Qed.

Lemma count_step_at_most (U : unicode_tables) (verbs : list str)
    (h : hit_counts) (b : str) (n : Z) :
  hits_at_most n h -> hits_at_most (n + 1) (count_step U verbs h b).
Proof.
  intros (Ha & Hm & Ht). unfold count_step, hits_at_most.
  destruct (split_ws b); [lia|].
  cbn [action_hits metric_hits tech_hits].
  repeat split; now apply bump_le.
Qed.

Lemma count_hits_at_most (U : unicode_tables) (bl : list str)
    (ont : ontology) : hits_at_most (len bl) (count_hits U bl ont).
Proof.
  unfold count_hits.
  set (h0 := {| action_hits := 0; metric_hits := 0; tech_hits := 0 |}).
  assert (H0 : hits_at_most 0 h0) by (repeat split; simpl; lia).
  assert (G : forall l h n, hits_at_most n h ->
            hits_at_most (n + len l)
              (fold_left (count_step U (get_or (ont_action_verbs ont) []))
                 l h)).
  { induction l as [|b l IH]; intros h n Hh; simpl.
    - unfold len. simpl. now rewrite Z.add_0_r.
    - replace (n + len (b :: l))%Z with ((n + 1) + len l)%Z
        by (unfold len; simpl List.length; lia).
      apply IH. now apply count_step_at_most. }
  exact (G bl h0 0%Z H0).
Qed.

(** X16.  In [score_bullets] each of the three counters lies between 0
    and the number of bullets, and the score lies between 0 and 3.0.  The
    score is 3.0 as soon as the weighted counters
    [0.8*a + 1.2*m + 1.0*t] reach the number of bullets, a third of what
    they can reach. *)
Theorem score_bullets_saturates (U : unicode_tables) (b : str)
    (bl : list str) (ont : ontology) :
  let bullets_list := b :: bl in
  let h := count_hits U bullets_list ont in
  let n := len bullets_list in
  (0 <= action_hits h <= n)%Z
  /\ (0 <= metric_hits h <= n)%Z
  /\ (0 <= tech_hits h <= n)%Z
  /\ 0 <= score (score_bullets U bullets_list ont) <= 3.0
  /\ (of_int n <= 0.8 * of_int (action_hits h)
                  + 1.2 * of_int (metric_hits h)
                  + 1.0 * of_int (tech_hits h) ->
      score (score_bullets U bullets_list ont) == 3.0).
Proof.
  cbv zeta.
  destruct (count_hits_nonneg U (b :: bl) ont) as (A0 & M0 & T0).
  destruct (count_hits_at_most U (b :: bl) ont) as (A1 & M1 & T1).
  repeat split; try assumption; try apply score_bullets_range.
  intros Hsat. rewrite score_bullets_cons. unfold score_bullets_simplified.
  set (h := count_hits U (b :: bl) ont) in *.
  assert (Hn : 0 < of_int (len (b :: bl))).
  { apply of_int_pos. unfold len. simpl List.length. lia. }
  assert (Hc : 1 <= composite h (len (b :: bl))).
  { unfold composite.
    assert (E : 0.8 * (of_int (action_hits h) / of_int (len (b :: bl)))
                + 1.2 * (of_int (metric_hits h) / of_int (len (b :: bl)))
                + 1.0 * (of_int (tech_hits h) / of_int (len (b :: bl)))
                == (0.8 * of_int (action_hits h)
                    + 1.2 * of_int (metric_hits h)
                    + 1.0 * of_int (tech_hits h))
                   / of_int (len (b :: bl))) by (field; lra).
    rewrite E. apply Qle_shift_div_l; [exact Hn | lra]. }
  assert (Hr : hundredths 300
               <= round2 (composite h (len (b :: bl)) * 3.0)).
  { apply round2_ge. unfold hundredths. lra. }
  destruct (py_min_cases 3.0 (round2 (composite h (len (b :: bl)) * 3.0)))
    as [[-> Hlt]|[-> _]]; [|reflexivity].
  unfold hundredths in Hr. lra.
Qed.

Lemma score_bullets_saturates_witness :
  score (score_bullets ascii_tables
           [lit "Cut load time by 40%"; lit "Raised sales by 12%"]
           {| ont_skills := None; ont_action_verbs := None |}) == 3.0.
Proof.
  apply (@score_bullets_saturates ascii_tables (lit "Cut load time by 40%")
           [lit "Raised sales by 12%"]
           {| ont_skills := None; ont_action_verbs := None |}).
  vm_compute. discriminate.
Defined.

(** ** The job-description comparison, further *)

(** X17.  [jd_compare] never reports as missing a skill the candidate
    has: a missing skill is a canonical skill and a token of the job
    description that is the normal form of no detected skill; and every
    matched keyword is a detected skill whose normal form is therefore
    not reported missing. *)
Theorem jd_compare_consistent (U : unicode_tables) (canon : list str)
    (c : cp) (jd : str) (skills : list str) :
  let r := jd_compare U canon (c :: jd) skills in
  (forall m, In m (missing_skills r) ->
     In m canon /\ In m (jd_tokens U (c :: jd))
     /\ forall s, In s skills -> normalize_token U s <> m)
  /\ (forall s, In s (matched_keywords r) ->
        In s skills
        /\ In (normalize_token U s) (jd_tokens U (c :: jd))
        /\ ~ In (normalize_token U s) (missing_skills r)).
Proof.
  cbv zeta. unfold jd_compare. cbn [missing_skills matched_keywords].
  assert (Hmiss : forall m, In m (jd_missing U canon (c :: jd) skills) ->
            In m canon /\ In m (jd_tokens U (c :: jd))
            /\ forall s, In s skills -> normalize_token U s <> m).
  { intros m Hm. unfold jd_missing in Hm. apply filter_In in Hm.
    destruct Hm as [Hc Hb]. apply andb_true_iff in Hb.
    destruct Hb as [Hn Ht]. apply negb_true_iff in Hn.
    apply str_mem_In in Ht. repeat split; try assumption.
    intros s Hs E.
    assert (Hin : str_mem m (List.map (normalize_token U) skills) = true).
    { apply str_mem_In. apply in_map_iff. now exists s. }
    congruence. }
  split.
  - intros m Hm. apply Hmiss. now apply In_firstn in Hm.
  - intros s Hs. unfold jd_matched in Hs. apply filter_In in Hs.
    destruct Hs as [Hs Ht]. apply str_mem_In in Ht.
    repeat split; try assumption.
    intros Hm. apply In_firstn in Hm.
    destruct (Hmiss _ Hm) as (_ & _ & Hno). now apply (Hno s Hs).
Qed.

Lemma jd_compare_consistent_witness :
  let r := jd_compare ascii_tables canon_literal
             (lit "Python, Docker and SQL.") [lit "Python"] in
  missing_skills r = [lit "docker"]
  /\ In (lit "docker") canon_literal
  /\ ~ In (normalize_token ascii_tables (lit "Python")) (missing_skills r).
Proof.
  intros r.
  destruct (jd_compare_consistent ascii_tables canon_literal 80%N
              (lit "ython, Docker and SQL.") [lit "Python"])
    as (Hmiss & Hmatch).
  assert (H1 : In (lit "docker")
                 (missing_skills
                    (jd_compare ascii_tables canon_literal
                       (80%N :: lit "ython, Docker and SQL.")
                       [lit "Python"]))) by (vm_compute; tauto).
  assert (H2 : In (lit "Python")
                 (matched_keywords
                    (jd_compare ascii_tables canon_literal
                       (80%N :: lit "ython, Docker and SQL.")
                       [lit "Python"]))) by (vm_compute; tauto).
  split; [reflexivity|].
  split.
  - exact (proj1 (Hmiss _ H1)).
  - exact (proj2 (proj2 (Hmatch _ H2))).
Defined.

(** X18.  The coverage is 100 exactly when at least one detected skill is
    matched and no canonical skill is missing. *)
Theorem coverage_full_iff (U : unicode_tables) (canon : list str)
    (c : cp) (jd : str) (skills : list str) :
  coverage_pct (jd_compare U canon (c :: jd) skills) = Some 100%Z
  <-> (jd_matched U (c :: jd) skills <> []
       /\ jd_missing U canon (c :: jd) skills = []).
Proof.
  rewrite coverage_value.
  set (matched := jd_matched U (c :: jd) skills).
  set (missing := jd_missing U canon (c :: jd) skills).
  assert (Ha : (0 <= len matched)%Z) by apply len_nonneg.
  assert (Hb : (0 <= len missing)%Z) by apply len_nonneg.
  assert (Hla : matched <> [] <-> (1 <= len matched)%Z).
  { unfold len. destruct matched; simpl; split; intros H;
      try lia; try congruence. }
  assert (Hlb : missing = [] <-> (len missing = 0)%Z).
  { unfold len. destruct missing; simpl; split; intros H;
      try lia; try congruence; discriminate. }
  rewrite Hla, Hlb.
  set (a := len matched) in *. set (b := len missing) in *.
  split.
  - intros E.
    assert (E' : (100 * a / Z.max 1 (a + b))%Z = 100%Z) by congruence.
    assert (Hd : (0 < Z.max 1 (a + b))%Z) by lia.
    pose proof (Z.mul_div_le (100 * a) _ Hd) as H1.
    pose proof (Z.mul_succ_div_gt (100 * a) _ Hd) as H2.
    rewrite E' in H1, H2. lia.
  - intros [H1 H0]. rewrite H0, Z.add_0_r.
    replace (Z.max 1 a) with a by lia.
    f_equal. apply Z.div_mul. lia.
Qed.

(** X19.  A job description that holds white space only is not treated
    as absent: the comparison has the computed coverage 0 and three empty
    lists, through [analyze] as well. *)
Theorem blank_job_description (U : unicode_tables) (pr : str -> str -> Q)
    (fk : str -> option Q) (canon : list str) (text : str)
    (ont : ontology) (role : option str) (c : cp) (jd : str)
    (skills : list str) (Hblank : split_ws (c :: jd) = []) :
  let zero := {| coverage_pct := Some 0%Z; missing_skills := [];
                 matched_keywords := []; recommendations := [] |} in
  jd_compare U canon (c :: jd) skills = zero
  /\ jd_result (analyze U pr fk canon text ont role (Some (c :: jd))) = zero.
Proof.
  cbv zeta.
  assert (H : forall sk, jd_compare U canon (c :: jd) sk
              = {| coverage_pct := Some 0%Z; missing_skills := [];
                   matched_keywords := []; recommendations := [] |}).
  { intros sk.
    assert (Ht : jd_tokens U (c :: jd) = []).
    { unfold jd_tokens. now rewrite Hblank. }
    assert (Hm : jd_matched U (c :: jd) sk = []).
    { unfold jd_matched. rewrite Ht. induction sk as [|s sk IH];
        [reflexivity | simpl; exact IH]. }
    assert (Hn : jd_missing U canon (c :: jd) sk = []).
    { unfold jd_missing. rewrite Ht. induction canon as [|s l IH];
        [reflexivity | simpl; rewrite andb_false_r; exact IH]. }
    unfold jd_compare. rewrite Hm, Hn. reflexivity. }
  split; [apply H|]. unfold analyze. cbn [jd_result str_or]. apply H.
Qed.

Lemma blank_job_description_witness :
  coverage_pct (jd_compare ascii_tables canon_literal (lit "  ")
                  [lit "python"]) = Some 0%Z
  /\ coverage_pct (jd_compare ascii_tables canon_literal [] [lit "python"])
     = None.
Proof.
  split; [|reflexivity].
  exact (f_equal coverage_pct
           (proj1 (@blank_job_description ascii_tables (fun _ _ => 0)
                     (fun _ => None) canon_literal []
                     {| ont_skills := None; ont_action_verbs := None |}
                     None 32%N (lit " ") [lit "python"] eq_refl))).
Defined.

(** ** The matcher misses no match *)

Section MatcherComplete.

Variable U : unicode_tables.
Variable A : Type.

Lemma rep_lo_exact (p : cp -> bool) (w : str) :
  forall prev rest (k : option cp -> str -> option A),
    forallb p w = true ->
    rep_lo p (List.length w) prev (w ++ rest) k = k (lastc prev w) rest.
Proof.
  induction w as [|c w IH]; intros prev rest k Hp; simpl; [reflexivity|].
  simpl in Hp. apply andb_true_iff in Hp. destruct Hp as [Hc Hw].
  rewrite Hc. now apply IH.
Qed.

Lemma rep_greedy_fallback (p : cp -> bool) (b : option nat)
    (prev : option cp) (s : str) (k : option cp -> str -> option A) :
  k prev s <> None -> rep_greedy p b prev s k <> None.
Proof.
  intros Hk. destruct s as [|c s]; simpl; [exact Hk|].
  destruct (p c && budget_left b); [|exact Hk].
  destruct (rep_greedy p (budget_pred b) (Some c) s k);
    [discriminate | exact Hk].
Qed.

Lemma rep_greedy_complete (p : cp -> bool) (w : str) :
  forall b prev rest (k : option cp -> str -> option A),
    forallb p w = true ->
    match b with
    | Some n => (List.length w <= n)%nat
    | None => True
    end ->
    k (lastc prev w) rest <> None ->
    rep_greedy p b prev (w ++ rest) k <> None.
Proof.
  induction w as [|c w IH]; intros b prev rest k Hp Hb Hk.
  - now apply rep_greedy_fallback.
  - simpl in Hp. apply andb_true_iff in Hp. destruct Hp as [Hc Hw].
    simpl. rewrite Hc.
    assert (Hl : budget_left b = true).
    { destruct b as [[|n]|]; simpl in *; [lia | reflexivity | reflexivity]. }
    rewrite Hl. simpl.
    assert (Hin : rep_greedy p (budget_pred b) (Some c) (w ++ rest) k
                  <> None).
    { apply IH; [exact Hw | | exact Hk].
      destruct b as [n|]; simpl in *; [lia | exact I]. }
    destruct (rep_greedy p (budget_pred b) (Some c) (w ++ rest) k);
      [discriminate | contradiction].
Qed.

(** When the pattern matches a first part of the text and the
    continuation succeeds after it, the matcher succeeds. *)
Lemma rmatch_complete (r : regex) (prev : option cp) (w rest : str) :
  matches U r prev w rest ->
  forall g (k : kont A),
    (forall g', k g' (lastc prev w) rest <> None) ->
    rmatch U r g prev (w ++ rest) k <> None.
Proof.
  induction 1 as [prev rest|p c prev rest Hc
                 |r1 r2 prev w1 w2 rest M1 IH1 M2 IH2
                 |r1 r2 prev w rest M IH|r1 r2 prev w rest M IH
                 |p lo hi prev w rest Hp Hlo Hhi
                 |prev rest Hx|prev rest Hb|r prev w rest M IH];
    intros g k Hk.
  - apply Hk.
  - simpl. rewrite Hc. apply Hk.
  - rewrite <- app_assoc. simpl. apply IH1. intros g1.
    apply IH2. intros g2. rewrite <- lastc_app. apply Hk.
  - simpl. specialize (IH g k Hk).
    destruct (rmatch U r1 g prev (w ++ rest) k); [discriminate|contradiction].
  - simpl. destruct (rmatch U r1 g prev (w ++ rest) k); [discriminate|].
    now apply IH.
  - simpl.
    rewrite <- (firstn_skipn lo w), <- app_assoc.
    assert (Hf : forallb p (firstn lo w) = true).
    { apply forallb_forall. intros x Hx. apply In_firstn in Hx.
      rewrite forallb_forall in Hp. now apply Hp. }
    assert (Hs : forallb p (skipn lo w) = true).
    { apply forallb_forall. intros x Hx.
      rewrite forallb_forall in Hp. apply Hp.
      rewrite <- (firstn_skipn lo w). apply in_or_app. now right. }
    assert (Hlen : List.length (firstn lo w) = lo)
      by (rewrite length_firstn; lia).
    rewrite <- Hlen at 1. rewrite (rep_lo_exact _ _ _ _ _ Hf).
    apply rep_greedy_complete; [exact Hs | |].
    + destruct hi as [h|]; simpl; [|exact I]. rewrite length_skipn. lia.
    + rewrite <- lastc_app, firstn_skipn. apply Hk.
  - simpl. rewrite Hx. apply Hk.
  - simpl. destruct Hb as [->| ->]; [apply Hk|].
    rewrite cp_eqb_refl. apply Hk.
  - simpl. apply IH. intros g'. apply Hk.
Qed.

End MatcherComplete.

Lemma match_here_iff (U : unicode_tables) (r : regex) (prev : option cp)
    (s : str) :
  match_here U r prev s <> None
  <-> exists w rest, s = w ++ rest /\ matches U r prev w rest.
Proof.
  unfold match_here. split.
  - destruct (rmatch U r None prev s _) as [m|] eqn:E; [|congruence].
    intros _. apply rmatch_sound in E.
    destruct E as (w & rest & _ & -> & M & _). now exists w, rest.
  - intros (w & rest & -> & M).
    apply (rmatch_complete M). discriminate.
Qed.

Lemma search_from_iff (U : unicode_tables) (r : regex) (s : str) :
  forall prev,
    search_from U r prev s <> None
    <-> exists a w b, s = a ++ w ++ b /\ matches U r (lastc prev a) w b.
Proof.
  induction s as [|c s IH]; intros prev; simpl.
  - destruct (match_here U r prev []) as [m|] eqn:E.
    + split; [intros _|discriminate].
      assert (H : match_here U r prev [] <> None) by congruence.
      apply match_here_iff in H. destruct H as (w & rest & Es & M).
      now exists [], w, rest.
    + split; [congruence|]. intros (a & w & b & Es & M).
      destruct a; [|discriminate]. simpl in Es, M.
      assert (H : match_here U r prev [] <> None)
        by (apply match_here_iff; now exists w, b).
      congruence.
  - destruct (match_here U r prev (c :: s)) as [m|] eqn:E.
    + split; [intros _|discriminate].
      assert (H : match_here U r prev (c :: s) <> None) by congruence.
      apply match_here_iff in H. destruct H as (w & rest & Es & M).
      now exists [], w, rest.
    + rewrite IH. split.
      * intros (a & w & b & -> & M). now exists (c :: a), w, b.
      * intros (a & w & b & Es & M). destruct a as [|d a].
        -- simpl in Es, M.
           assert (H : match_here U r prev (c :: s) <> None)
             by (apply match_here_iff; now exists w, b).
           congruence.
        -- injection Es as <- ->. now exists a, w, b.
Qed.

(** [r.search(s)] finds a match exactly when some part of [s] matches. *)
Lemma re_found_iff (U : unicode_tables) (r : regex) (s : str) :
  re_found U r s = true <-> has_match U r s.
Proof.
  unfold re_found, re_search, has_match.
  rewrite <- (search_from_iff U r s None).
  destruct (search_from U r None s); split; intros H;
    congruence || reflexivity || discriminate.
Qed.

(** ** Hygiene *)

Lemma at_sign_found (U : unicode_tables) (text : str) :
  re_found U (S_ "@") text = true <-> In 64%N text.
Proof.
  rewrite re_found_iff. unfold has_match. split.
  - intros (a & w & b & -> & M). inversion M; subst.
    apply cp_eqb_eq in H0. subst. apply in_or_app. right. now left.
  - intros H. apply in_split in H. destruct H as (a & b & ->).
    exists a, [64%N], b. split; [reflexivity|]. now constructor.
Qed.

Lemma phone_found (U : unicode_tables) (text : str) :
  re_found U (PHONE_RE U) text = true <-> seven_digits U text.
Proof.
  rewrite re_found_iff. unfold has_match, seven_digits, PHONE_RE. split.
  - intros (a & w & b & -> & M).
    inversion M as [| |? ? ? w1 w2 ? M1 M2| | | | | |]; subst.
    inversion M2 as [| | | | |? ? ? ? ? ? Hp Hlo Hhi| | |]; subst.
    exists (a ++ w1), (firstn 7 w2), (skipn 7 w2 ++ b).
    repeat split.
    + rewrite <- !app_assoc. do 2 f_equal.
      now rewrite app_assoc, firstn_skipn.
    + rewrite length_firstn. lia.
    + apply forallb_forall. intros x Hx. apply In_firstn in Hx.
      rewrite forallb_forall in Hp. now apply Hp.
  - intros (a & d & b & -> & Hlen & Hd).
    exists a, d, b. split; [reflexivity|].
    change d with ([] ++ d).
    constructor; [apply matches_Alt_r; constructor|].
    constructor; [exact Hd | lia | exact I].
Qed.

Lemma hygiene_table (a p l : bool) :
  let h := py_max 0.0
             (round2 (sub_if l 0.2
                        (sub_if (negb p) 0.1 (sub_if (negb a) 0.2 0.5)))) in
  (h == 0.5 <-> a = true /\ p = true /\ l = false)
  /\ (p = false -> h <= 0.4)
  /\ (a = false -> h <= 0.3)
  /\ (l = true -> h <= 0.3).
Proof.
  destruct a, p, l; vm_compute; intuition (discriminate || congruence).
Qed.

(** X20.  [hygiene] looks for the character "@" and for seven digits in a
    row.  The full 0.5 is given exactly when the text has an "@", seven
    consecutive digits and at least 500 characters; a text without seven
    consecutive digits (a phone number written with separators, say) gets
    at most 0.4, and a text of fewer than 500 characters at most 0.3. *)
Theorem hygiene_spec (U : unicode_tables) (text : str) :
  (hygiene U text == 0.5
   <-> In 64%N text /\ seven_digits U text /\ (500 <= len text)%Z)
  /\ (~ seven_digits U text -> hygiene U text <= 0.4)
  /\ (~ In 64%N text -> hygiene U text <= 0.3)
  /\ ((len text < 500)%Z -> hygiene U text <= 0.3).
Proof.
  rewrite <- at_sign_found, <- phone_found, <- Z.ltb_ge, <- Z.ltb_lt,
    !not_true_iff_false.
  unfold hygiene. apply hygiene_table.
Qed.

Lemma hygiene_spec_witness :
  hygiene ascii_tables (lit "jane@mail.org 555-123-4567") <= 0.3
  /\ ~ seven_digits ascii_tables (lit "555-123-4567").
Proof.
  assert (Hno : ~ seven_digits ascii_tables (lit "555-123-4567")).
  { intros H. apply phone_found in H. discriminate H. }
  split; [|exact Hno].
  apply (proj2 (proj2 (proj2 (hygiene_spec ascii_tables
           (lit "jane@mail.org 555-123-4567"))))).
  reflexivity.
Defined.

(** ** Projects evidence *)

Lemma Str_matches (U : unicode_tables) (eqc : cp -> cp -> bool) (s : str)
    (prev : option cp) (rest : str) :
  (forall c, eqc c c = true) -> matches U (Str eqc s) prev s rest.
Proof.
  intros Hrefl. revert prev. induction s as [|c s IH]; intros prev.
  - constructor.
  - destruct s as [|d s].
    + simpl. now constructor.
    + change (Str eqc (c :: d :: s))
        with (Seq (Chr (eqc c)) (Str eqc (d :: s))).
      change (c :: d :: s) with ([c] ++ d :: s).
      constructor; [now constructor | apply IH].
Qed.

Lemma Alts_matches (U : unicode_tables) (rs : list regex) (r : regex)
    (prev : option cp) (w rest : str) :
  In r rs -> matches U r prev w rest -> matches U (Alts rs) prev w rest.
Proof.
  induction rs as [|r0 rs IH]; intros Hin M; [destruct Hin|].
  destruct rs as [|r1 rs].
  - destruct Hin as [<-|[]]. exact M.
  - change (Alts (r0 :: r1 :: rs)) with (Alt r0 (Alts (r1 :: rs))).
    destruct Hin as [<-|Hin];
      [now apply matches_Alt_l | apply matches_Alt_r; now apply IH].
Qed.

Lemma ci_eqb_refl (U : unicode_tables) (c : cp) : ci_eqb U c c = true.
Proof. unfold ci_eqb. now rewrite cp_eqb_refl. Qed.

Lemma any_word_ci_found (U : unicode_tables) (ws : list string)
    (text : str) :
  contains_any ws text = true -> re_found U (any_word_ci U ws) text = true.
Proof.
  unfold contains_any. intros H. apply existsb_exists in H.
  destruct H as (w & Hw & Hc). apply contains_split in Hc.
  destruct Hc as (a & b & ->).
  apply re_found_iff. exists a, (lit w), b. split; [reflexivity|].
  unfold any_word_ci. constructor.
  apply Alts_matches with (r := Str (ci_eqb U) (lit w)).
  - apply in_map_iff. now exists w.
  - apply Str_matches. apply ci_eqb_refl.
Qed.

Lemma digit_percent_metric (U : unicode_tables) (text : str) :
  digit_percent U text -> has_metric U text = true.
Proof.
  intros (a & d & b & -> & Hd). unfold has_metric.
  apply re_found_iff. exists a, [d; 37%N], b. split; [reflexivity|].
  unfold METRIC_RE. apply matches_Alt_l.
  change [d; 37%N] with ([d] ++ [37%N]).
  constructor.
  - constructor. change [d] with ([d] ++ [] ++ []).
    constructor.
    + constructor; [simpl; now rewrite Hd | simpl; lia | exact I].
    + constructor.
      * apply matches_Alt_r. constructor.
      * constructor; [reflexivity | simpl; lia | exact I].
  - now constructor.
Qed.

Lemma projects_table (p1 p2 p3 : bool) :
  let v := py_min 1.0
             (round2 (add_if p3 0.4 (add_if p2 0.3 (add_if p1 0.3 0.0)))) in
  0 <= v <= 1.0
  /\ (v == 1.0 <-> p1 = true /\ p2 = true /\ p3 = true)
  /\ (v == 0 <-> p1 = false /\ p2 = false /\ p3 = false)
  /\ (p3 = true -> 0.4 <= v).
Proof.
  destruct p1, p2, p3; vm_compute; intuition (discriminate || congruence).
Qed.

(** X21.  The projects score lies between 0 and 1.0 and is 1.0 exactly
    when all three patterns are found.  The words are looked for as
    substrings ("technology" counts for "tech"): a section text that
    contains one word of each of the two lists and a digit followed by
    "%" scores 1.0, and any text with a digit followed by "%" scores at
    least 0.4.  The empty text scores 0. *)
Theorem projects_evidence_substrings (U : unicode_tables) (sec_text : str) :
  0 <= projects_evidence U sec_text <= 1.0
  /\ (contains_any ["problem"; "challenge"; "goal"]%string sec_text = true ->
      contains_any ["approach"; "method"; "stack"; "tech"]%string sec_text
      = true ->
      digit_percent U sec_text ->
      projects_evidence U sec_text == 1.0)
  /\ (digit_percent U sec_text -> 0.4 <= projects_evidence U sec_text)
  /\ projects_evidence U [] == 0.
Proof.
  pose proof (projects_table
    (re_found U (any_word_ci U ["problem"; "challenge"; "goal"]%string)
       sec_text)
    (re_found U (any_word_ci U
                   ["approach"; "method"; "stack"; "tech"]%string) sec_text)
    (has_metric U sec_text)) as H.
  cbv zeta in H. fold (projects_evidence U sec_text) in H.
  destruct H as (Hr & H1 & _ & H4).
  refine (conj Hr (conj _ (conj _ _))).
  - intros Ha Hb Hc. apply H1.
    repeat split; [now apply any_word_ci_found | now apply any_word_ci_found
                  | now apply digit_percent_metric].
  - intros Hc. apply H4. now apply digit_percent_metric.
  - reflexivity.
Qed.

Lemma projects_evidence_substrings_witness :
  projects_evidence ascii_tables
    (lit "goalkeeper app on new technology, 12% faster") == 1.0.
Proof.
  apply (proj1 (proj2 (projects_evidence_substrings ascii_tables
           (lit "goalkeeper app on new technology, 12% faster")))).
  - reflexivity.
  - reflexivity.
  - exists (lit "goalkeeper app on new technology, 1"), 50%N,
      (lit " faster"). split; reflexivity.
Defined.

(** ** What [METRIC_RE] asks for *)

Lemma Alts_matches_inv (U : unicode_tables) (rs : list regex)
    (prev : option cp) (w rest : str) :
  rs <> [] -> matches U (Alts rs) prev w rest ->
  exists r, In r rs /\ matches U r prev w rest.
Proof.
  induction rs as [|r0 rs IH]; intros Hne M; [contradiction|].
  destruct rs as [|r1 rs].
  - exists r0. split; [now left | exact M].
  - change (Alts (r0 :: r1 :: rs)) with (Alt r0 (Alts (r1 :: rs))) in M.
    inversion M; subst.
    + exists r0. split; [now left | assumption].
    + destruct IH as (r & Hin & Mr); [discriminate | assumption|].
      exists r. split; [now right | exact Mr].
Qed.

Lemma Str_matches_head (U : unicode_tables) (c0 : cp) (s : str)
    (prev : option cp) (w rest : str) :
  matches U (Str cp_eqb (c0 :: s)) prev w rest -> exists w', w = c0 :: w'.
Proof.
  destruct s as [|d s]; intros M.
  - simpl in M. inversion M; subst. apply cp_eqb_eq in H0. subst.
    now exists [].
  - change (Str cp_eqb (c0 :: d :: s))
      with (Seq (Chr (cp_eqb c0)) (Str cp_eqb (d :: s))) in M.
    inversion M as [| |? ? ? w1 w2 ? M1 M2| | | | | |]; subst.
    inversion M1; subst. apply cp_eqb_eq in H0. subst.
    now exists w2.
Qed.

(** A unit begins with an ASCII letter. *)
Lemma unit_head (U : unicode_tables) (prev : option cp) (w rest : str) :
  matches U METRIC_UNITS prev w rest ->
  exists c w', w = c :: w' /\ is_word U c = true.
Proof.
  intros M. unfold METRIC_UNITS in M.
  apply Alts_matches_inv in M; [|discriminate].
  destruct M as (r & Hin & M).
  assert (Hstr : forall (u : string) c0 s0 p w0 r0,
            lit u = c0 :: s0 -> is_word U c0 = true ->
            matches U (S_ u) p w0 r0 ->
            exists c w', w0 = c :: w' /\ is_word U c = true).
  { intros u c0 s0 p w0 r0 E Hc Mu. unfold S_ in Mu. rewrite E in Mu.
    apply Str_matches_head in Mu. destruct Mu as [w' ->].
    now exists c0, w'. }
  repeat (destruct Hin as [<-|Hin];
          [try (eapply Hstr; [| | exact M]; reflexivity)|]).
  - inversion M as [| |? ? ? w1 w2 ? M1 M2| | | | | |]; subst.
    destruct (Hstr "day"%string _ _ _ _ _ eq_refl eq_refl M1)
      as (c & w' & -> & Hc).
    now exists c, (w' ++ w2).
  - destruct Hin.
Qed.

Lemma lastc_nonempty (prev : option cp) (w : str) :
  w <> [] -> exists w' c, w = w' ++ [c] /\ lastc prev w = Some c.
Proof.
  intros H. destruct (exists_last H) as (w' & c & ->).
  exists w', c. split; [reflexivity|].
  rewrite lastc_app. reflexivity.
Qed.

(** X22.  [METRIC_RE] finds a metric only in a text that has a "%" or a
    digit directly followed by white space: the word boundary it asks for
    after the number can only be met by white space before the unit, so a
    number written next to its unit ("120ms", "2x", "10k") is never
    counted.  (The tables are asked to class every decimal digit as a word
    character, as the Unicode data does.) *)
Theorem metric_needs_percent_or_space (U : unicode_tables) (b : str)
    (Hword : forall c, is_digit U c = true -> is_word U c = true)
    (Hfound : has_metric U b = true) :
  In 37%N b
  \/ exists a d s rest, b = a ++ d :: s :: rest
                        /\ is_digit U d = true /\ is_space s = true.
Proof.
  unfold has_metric in Hfound. apply re_found_iff in Hfound.
  destruct Hfound as (a & w & rest & -> & M). unfold METRIC_RE in M.
  inversion M as [| | |? ? ? ? ? Ml|? ? ? ? ? Mr| | | |]; subst.
  - left.
    inversion Ml as [| |? ? ? w1 w2 ? M1 M2| | | | | |]; subst.
    inversion M2; subst. apply cp_eqb_eq in H0. subst.
    apply in_or_app. right. apply in_or_app. left.
    apply in_or_app. right. now left.
  - right.
    inversion Mr as [| |? ? ? w0 w1 ? M0 M1| | | | | |]; subst.
    inversion M0; subst.
    inversion M1 as [| |? ? ? ds w2 ? Md M2| | | | | |]; subst.
    inversion Md as [| | | | |? ? ? ? ? ? Hds Hlo _| | |]; subst.
    inversion M2 as [| |? ? ? w3 w4 ? Mb M4| | | | | |]; subst.
    inversion Mb as [| | | | | |? ? Hx| |]; subst.
    inversion M4 as [| |? ? ? ws u ? Mws Mu| | | | | |]; subst.
    inversion Mws as [| | | | |? ? ? ? ? ? Hws _ _| | |]; subst.
    apply unit_head in Mu. destruct Mu as (c & u' & -> & Hc).
    assert (Hne : ds <> []) by (destruct ds; simpl in Hlo; [lia|discriminate]).
    destruct (lastc_nonempty (lastc (lastc None a) []) Hne)
      as (ds' & dl & -> & Hl).
    assert (Hdl : is_digit U dl = true).
    { rewrite forallb_app in Hds. apply andb_true_iff in Hds.
      destruct Hds as [_ Hds]. simpl in Hds.
      now rewrite andb_true_r in Hds. }
    simpl app in Hx. rewrite Hl in Hx. simpl word_before in Hx.
    rewrite (Hword _ Hdl) in Hx.
    destruct ws as [|s ws].
    + simpl in Hx. rewrite Hc in Hx. discriminate.
    + simpl in Hws. apply andb_true_iff in Hws. destruct Hws as [Hs _].
      exists (a ++ ds'), dl, s, (ws ++ (c :: u') ++ rest).
      split; [|split; assumption].
      simpl. rewrite <- !app_assoc. simpl. rewrite <- app_assoc.
      reflexivity.
Qed.

Lemma ascii_digits_are_words (c : cp) :
  is_digit ascii_tables c = true -> is_word ascii_tables c = true.
Proof.
  unfold is_digit, is_word. destruct (is_ascii c); [|discriminate].
  intros ->. now rewrite !orb_true_r.
Qed.

Lemma metric_needs_percent_or_space_witness :
  In 37%N (lit "Cut costs by 40%")
  \/ exists a d s rest, lit "Cut costs by 40%" = a ++ d :: s :: rest
                        /\ is_digit ascii_tables d = true
                        /\ is_space s = true.
Proof.
  apply (@metric_needs_percent_or_space ascii_tables
           (lit "Cut costs by 40%") ascii_digits_are_words).
  reflexivity.
Defined.

(** ** A line that begins with a capital letter *)

Lemma rep_greedy_all (A : Type) (p : cp -> bool) (w : str) :
  forall b prev (k : option cp -> str -> option A) a,
    forallb p w = true ->
    match b with
    | Some n => (List.length w <= n)%nat
    | None => True
    end ->
    k (lastc prev w) [] = Some a ->
    rep_greedy p b prev w k = Some a.
Proof.
  induction w as [|c w IH]; intros b prev k a Hp Hb Hk; simpl.
  - exact Hk.
  - simpl in Hp. apply andb_true_iff in Hp. destruct Hp as [Hc Hw].
    rewrite Hc.
    assert (Hl : budget_left b = true).
    { destruct b as [[|n]|]; simpl in *; [lia | reflexivity | reflexivity]. }
    rewrite Hl. simpl.
    rewrite (IH (budget_pred b) (Some c) k a Hw); [reflexivity | | exact Hk].
    destruct b as [n|]; simpl in *; [lia | exact I].
Qed.

Lemma finditer_skip_all (U : unicode_tables) (r : regex) (s : str) :
  forall prev skip,
    (List.length s <= skip)%nat -> finditer_from U r prev s skip = [].
Proof.
  induction s as [|c s IH]; intros prev skip H; simpl; [reflexivity|].
  destruct skip as [|n]; simpl in H; [lia|]. apply IH. lia.
Qed.

Lemma is_AZ_not_marker (c : cp) : is_AZ c = true -> is_marker c = false.
Proof.
  unfold is_AZ, is_marker, in_range, cp_eqb, HYPHEN, BULLET. intros H.
  apply andb_true_iff in H. destruct H as [H1 H2].
  apply N.leb_le in H1, H2.
  repeat (apply orb_false_iff; split); apply N.eqb_neq; lia.
Qed.

(** The capture of [ACTION_BULLET_RE] from a capital letter on. *)
Lemma capital_line_group (U : unicode_tables) (A : Type) (c : cp) (w : str)
    (g : option str) (prev : option cp) (k : kont A) (a : A) :
  is_AZ c = true -> forallb not_newline w = true ->
  (List.length w <= 200)%nat ->
  k (Some (c :: w)) (lastc (Some c) w) [] = Some a ->
  rmatch U (Grp (Seq (Chr is_AZ) (Rep not_newline 0 (Some 200%nat))))
    g prev (c :: w) k = Some a.
Proof.
  intros Hc Hw Hlen Hk. simpl. rewrite Hc.
  apply rep_greedy_all; [exact Hw | simpl; lia|].
  cbn [List.length firstn]. rewrite firstn_all. exact Hk.
Qed.

(** X23.  The marker of a bullet is optional.  A text of one line that
    begins with a capital letter and has at most 200 further characters
    is one bullet, with or without "- " in front: names and headings
    count as bullets as well. *)
Theorem bullets_single_line (U : unicode_tables) (c : cp) (w : str)
    (Hc : is_AZ c = true) (Hw : forallb not_newline w = true)
    (Hlen : (List.length w <= 200)%nat) :
  bullets U (c :: w) = [strip (c :: w)]
  /\ bullets U (HYPHEN :: SPACE :: c :: w) = [strip (c :: w)].
Proof.
  pose proof (is_AZ_not_marker c Hc) as Hm.
  pose proof (@is_AZ_not_space c Hc) as Hs.
  assert (H1 : match_here U ACTION_BULLET_RE None (c :: w)
               = Some {| group0 := c :: w; group1 := Some (c :: w) |}).
  { unfold match_here, ACTION_BULLET_RE, Opt.
    remember (Grp (Seq (Chr is_AZ) (Rep not_newline 0 (Some 200%nat))))
      as G eqn:EG.
    cbn [rmatch]. rewrite Hm. subst G.
    apply capital_line_group; try assumption.
    cbn [List.length firstn Nat.sub]. now rewrite firstn_all. }
  assert (H2 : match_here U ACTION_BULLET_RE None
                 (HYPHEN :: SPACE :: c :: w)
               = Some {| group0 := HYPHEN :: SPACE :: c :: w;
                         group1 := Some (c :: w) |}).
  { unfold match_here, ACTION_BULLET_RE, Opt, Star.
    remember (Grp (Seq (Chr is_AZ) (Rep not_newline 0 (Some 200%nat))))
      as G eqn:EG.
    cbn [rmatch rep_lo rep_greedy].
    change (is_marker HYPHEN) with true. cbv iota.
    change (is_space SPACE) with true. cbn [andb budget_left option_map].
    rewrite Hs. cbn [andb]. subst G.
    rewrite (@capital_line_group U rematch c w None (Some SPACE) _
               {| group0 := HYPHEN :: SPACE :: c :: w;
                  group1 := Some (c :: w) |}); try assumption;
      [reflexivity|].
    cbn [List.length firstn Nat.sub]. now rewrite firstn_all. }
  unfold bullets, re_finditer. split.
  - change (finditer_from U ACTION_BULLET_RE None (c :: w) 0)
      with (match match_here U ACTION_BULLET_RE None (c :: w) with
            | Some m => m :: finditer_from U ACTION_BULLET_RE (Some c) w
                               (Nat.pred (List.length (group0 m)))
            | None => finditer_from U ACTION_BULLET_RE (Some c) w 0
            end).
    rewrite H1. cbn [group0 List.length Nat.pred].
    rewrite finditer_skip_all by lia. reflexivity.
  - change (finditer_from U ACTION_BULLET_RE None
              (HYPHEN :: SPACE :: c :: w) 0)
      with (match match_here U ACTION_BULLET_RE None
                    (HYPHEN :: SPACE :: c :: w) with
            | Some m => m :: finditer_from U ACTION_BULLET_RE (Some HYPHEN)
                               (SPACE :: c :: w)
                               (Nat.pred (List.length (group0 m)))
            | None => finditer_from U ACTION_BULLET_RE (Some HYPHEN)
                        (SPACE :: c :: w) 0
            end).
    rewrite H2. cbn [group0 List.length Nat.pred].
    rewrite finditer_skip_all by (simpl; lia). reflexivity.
Qed.

Lemma bullets_single_line_witness :
  bullets ascii_tables (lit "Jane Doe") = [lit "Jane Doe"]
  /\ bullets ascii_tables (lit "- Jane Doe") = [lit "Jane Doe"].
Proof.
  exact (@bullets_single_line ascii_tables 74%N (lit "ane Doe")
           eq_refl eq_refl ltac:(simpl; lia)).
Defined.

(** ** A period after a skill *)

Lemma strip_snoc (x : str) (c : cp) :
  is_space c = false -> strip (x ++ [c]) = drop_while is_space x ++ [c].
Proof.
  intros Hc. unfold strip.
  rewrite (@drop_while_snoc is_space x c Hc), rev_app_distr.
  cbn [rev app].
  rewrite (@drop_while_fixed is_space c _ Hc).
  change (c :: rev (drop_while is_space x))
    with (rev [c] ++ rev (drop_while is_space x)).
  rewrite <- rev_app_distr. apply rev_involutive.
Qed.

Lemma normalize_final_period (U : unicode_tables) (w : str) :
  normalize_token U (w ++ [46%N])
  = drop_while is_space
      (List.map (fun c => if is_token_char c then c else SPACE) (lower U w))
    ++ [46%N].
Proof.
  unfold normalize_token. rewrite lower_app, map_app.
  match goal with
  | |- context [List.map ?f (lower U [?d])] =>
      change (List.map f (lower U [d])) with [d]
  end.
  now apply strip_snoc.
Qed.

Lemma canon_no_final_period (t : str) :
  In (t ++ [46%N]) canon_literal -> False.
Proof.
  intros Hin. unfold canon_literal in Hin. cbn [List.map In] in Hin.
  repeat (destruct Hin as [Hin|Hin];
          [apply (f_equal (fun l => last l 0%N)) in Hin;
           rewrite last_last in Hin; discriminate Hin|]).
  exact Hin.
Qed.

(** X24.  [normalize_token] keeps a final period, so a word of the job
    description that ends a sentence normalizes to a token ending in a
    period, which is none of the canonical skills and so is never listed as
    missing.  For the job description "Docker and SQL." and the detected
    skill "sql", [jd_compare] matches nothing and gives the coverage 0,
    where "Docker and SQL" matches "sql" and gives 50. *)
Theorem final_period_kept (U : unicode_tables) (w jd : str)
    (skills : list str) :
  let t := normalize_token U (w ++ [46%N]) in
  ((exists t', t = t' ++ [46%N])
   /\ ~ In t canon_literal
   /\ ~ In t (jd_missing U canon_literal jd skills))
  /\ jd_compare ascii_tables canon_literal (lit "Docker and SQL.")
       [lit "sql"]
     = {| coverage_pct := Some 0%Z;
          missing_skills := [lit "docker"];
          matched_keywords := [];
          recommendations := [recommendation (lit "docker")] |}
  /\ jd_compare ascii_tables canon_literal (lit "Docker and SQL")
       [lit "sql"]
     = {| coverage_pct := Some 50%Z;
          missing_skills := [lit "docker"];
          matched_keywords := [lit "sql"];
          recommendations := [recommendation (lit "docker")] |}.
Proof.
  cbv zeta. rewrite normalize_final_period.
  refine (conj (conj _ (conj _ _)) (conj _ _)).
  - now eexists.
  - intros Hin. exact (canon_no_final_period _ Hin).
  - intros Hin. unfold jd_missing in Hin. apply filter_In in Hin.
    exact (canon_no_final_period _ (proj1 Hin)).
  - vm_compute. reflexivity.
  - vm_compute. reflexivity.
Qed.
